(** * The priority task scheduler of [week3/advanced_task_scheduler.hpp]

    A shallow embedding of the classes [TaskResult], [Task], [TaskComparator],
    [ThreadPool] and [TaskScheduler], followed by the properties of the
    scheduler that are checked against it.

    Conventions of the embedding.
    - A [std::shared_ptr<TaskBase>] is an address [loc] into a store of task
      objects ([heap]); the registry, the pool's queue, the timer threads and
      the workers all hold addresses, so a change made through one of them is
      seen through the others.
    - A C++ function that may throw is a computation [M St A]: it maps a state
      to an [outcome] and the state it leaves behind.
    - A caller-supplied [std::function<ResultType()>] reads and writes the
      rest of the program ([World]) and either returns a value or throws; it
      is assumed to terminate.
    - [std::priority_queue] is known by its contract: [top()] is an element
      that the comparison orders before no other element.
    - Threads interleave at the granularity of the events of [event]: a call
      of the scheduler's interface, the critical section of a worker, and each
      half of [Task::execute] (up to [status_ = RUNNING], and the [try] block
      with its handler) is one atomic step. A timer may fire at any time
      after it was set. *)

From stdpp Require Import base option list gmap strings.
From Stdlib Require Import ZArith NArith Lia.

Local Open Scope Z_scope.

(** ** Enumerations *)

(** [enum class Priority { LOW, MEDIUM, HIGH, CRITICAL }] *)
Inductive Priority := LOW | MEDIUM | HIGH | CRITICAL.

(** The enumerators' underlying values, which [<] and [!=] compare. *)
Definition Priority_value (p : Priority) : Z :=
  match p with LOW => 0 | MEDIUM => 1 | HIGH => 2 | CRITICAL => 3 end.

(** [enum class TaskStatus { PENDING, RUNNING, COMPLETED, FAILED, CANCELLED }] *)
Inductive TaskStatus := PENDING | RUNNING | COMPLETED | FAILED | CANCELLED.

#[global] Instance TaskStatus_eq_dec : EqDecision TaskStatus.
Proof. solve_decision. Defined.

#[global] Instance Priority_eq_dec : EqDecision Priority.
Proof. solve_decision. Defined.

(** The statuses the specification calls terminal. *)
Definition terminal (s : TaskStatus) : bool :=
  match s with COMPLETED | FAILED | CANCELLED => true | _ => false end.

(** [std::chrono::system_clock::time_point]: a tick count. *)
Definition time_point := Z.

(** A [std::shared_ptr] to a task object: the index of its allocation. *)
Abbreviation loc := nat.

(** ** Exceptions *)

(** The dynamic type of a thrown object: the three classes of the header,
    their base [std::runtime_error], and any other type by name. *)
Inductive exception_class :=
| std_runtime_error
| TaskSchedulerException
| TaskNotFoundException
| DuplicateTaskException
| other_exception (type_name : string).

#[global] Instance exception_class_eq_dec : EqDecision exception_class.
Proof. solve_decision. Defined.

(** The direct base class, as the header declares it. *)
Definition base_class (c : exception_class) : option exception_class :=
  match c with
  | TaskNotFoundException => Some TaskSchedulerException
  | DuplicateTaskException => Some TaskSchedulerException
  | TaskSchedulerException => Some std_runtime_error
  | std_runtime_error => None
  | other_exception _ => None
  end.

(** [c] is [b] or derives from it: what a handler [catch (const b&)] accepts.
    The hierarchy is two levels deep. *)
Definition derives_from (c b : exception_class) : bool :=
  bool_decide (c = b)
  || bool_decide (base_class c = Some b)
  || bool_decide (base_class c ≫= base_class = Some b).

(** A thrown object, and equally the [std::exception_ptr] that refers to it. *)
Record exception := Exception { exn_class : exception_class; what : string }.

#[global] Instance exception_eq_dec : EqDecision exception.
Proof. solve_decision. Defined.

(** ** Computations that may throw *)

(** How a call ends: it returns, it throws, or it has no defined behaviour
    (a pointer that refers to no object is dereferenced). *)
Inductive outcome (A : Type) :=
| Returned (a : A)
| Raised (e : exception)
| Undefined.
Arguments Returned {A} a.
Arguments Raised {A} e.
Arguments Undefined {A}.

Definition M (St A : Type) : Type := St -> outcome A * St.

Definition ret {St A} (a : A) : M St A := fun s => (Returned a, s).

Definition bind {St A B} (m : M St A) (k : A -> M St B) : M St B :=
  fun s =>
    match m s with
    | (Returned a, s') => k a s'
    | (Raised e, s') => (Raised e, s')
    | (Undefined, s') => (Undefined, s')
    end.

(** [throw e;] *)
Definition throw {St A} (e : exception) : M St A := fun s => (Raised e, s).

Definition undefined {St A} : M St A := fun s => (Undefined, s).

Definition gets {St A} (f : St -> A) : M St A := fun s => (Returned (f s), s).

Definition modify {St} (f : St -> St) : M St unit := fun s => (Returned tt, f s).

(** [try { body } catch (const C&) { handler }] for the classes [C] that
    [catches] accepts; [catch (...)] accepts every exception. The handler runs
    in the state the body left. *)
Definition try_catch {St A} (body : M St A) (catches : exception -> bool)
    (handler : exception -> M St A) : M St A :=
  fun s =>
    match body s with
    | (Raised e, s') => if catches e then handler e s' else (Raised e, s')
    | r => r
    end.

Definition catch_all (e : exception) : bool := true.

(** Unfolds the operations on computations. *)
Ltac unfold_M :=
  unfold bind, ret, throw, gets, modify, try_catch, catch_all, undefined in *.

Notation "'let*' x ':=' m 'in' k" := (bind m (fun x => k))
  (at level 10, x name, m at level 100, k at level 200).
Notation "m1 '>>' m2" := (bind m1 (fun _ => m2))
  (at level 100, m2 at level 200, right associativity).

(** ** Result types *)

(** The template argument [ResultType]: [void], or a type known by its name. *)
Inductive result_type := void | typed (type_name : string).

#[global] Instance result_type_eq_dec : EqDecision result_type.
Proof. solve_decision. Defined.

(** ** [std::size_t] counters *)

Definition size_t_modulus : N := (2 ^ 64)%N.

(** [n++] on a [std::size_t]. *)
Definition size_t_incr (n : N) : N := ((n + 1) mod size_t_modulus)%N.

(** [n--] on a [std::size_t]. *)
Definition size_t_decr (n : N) : N := ((n + size_t_modulus - 1) mod size_t_modulus)%N.

(** ** [TaskResult<ResultType>] *)

Module TaskResult.
Section Def.
Context {value : Type}.

(** The primary template has the three members; the [void] specialisation
    has no [result_], which then stays [None]: none of the specialisation's
    members writes it. *)
Record t := mk {
  result_ : option value;
  exception_ : option exception;
  status_ : TaskStatus
}.

(** [TaskResult() : status_(TaskStatus::PENDING) {}] *)
Definition new : t := mk None None PENDING.

Definition setResult (result : value) (r : t) : t :=
  mk (Some result) (exception_ r) COMPLETED.

(** [TaskResult<void>::setCompleted] *)
Definition setCompleted (r : t) : t :=
  mk (result_ r) (exception_ r) COMPLETED.

Definition setException (e : exception) (r : t) : t :=
  mk (result_ r) (Some e) FAILED.

Definition setStatus (status : TaskStatus) (r : t) : t :=
  mk (result_ r) (exception_ r) status.

Definition getStatus (r : t) : TaskStatus := status_ r.

Definition hasResult (r : t) : bool := bool_decide (is_Some (result_ r)).

Definition hasException (r : t) : bool := bool_decide (is_Some (exception_ r)).

(** [ResultType getResult() const] of the primary template. *)
Definition getResult (r : t) : outcome value :=
  match exception_ r with
  | Some e => Raised e                       (* std::rethrow_exception *)
  | None =>
      match result_ r with
      | None => Raised (Exception TaskSchedulerException "Task has no result")
      | Some v => Returned v
      end
  end.

(** [void getResult() const] of [TaskResult<void>]. *)
Definition getResult_void (r : t) : outcome unit :=
  match exception_ r with
  | Some e => Raised e
  | None =>
      if bool_decide (status_ r ≠ COMPLETED)
      then Raised (Exception TaskSchedulerException "Task not completed")
      else Returned tt
  end.

(** [getResult] of [TaskResult<R>]: [Some v] for a value, [None] for the
    [void] specialisation's plain return. *)
Definition getResult_of (R : result_type) (r : t) : outcome (option value) :=
  match R with
  | void =>
      match getResult_void r with
      | Returned _ => Returned None
      | Raised e => Raised e
      | Undefined => Undefined
      end
  | typed _ =>
      match getResult r with
      | Returned v => Returned (Some v)
      | Raised e => Raised e
      | Undefined => Undefined
      end
  end.

Definition tryGetResult (r : t) : option value := result_ r.

End Def.
Arguments t : clear implicits.
End TaskResult.

(** ** [std::any] *)

(** What a [std::any] of this program can hold: nothing, a
    [std::optional<R>], or a bare [R]. *)
Inductive any (value : Type) :=
| any_empty
| any_optional (type_name : string) (o : option value)
| any_value (type_name : string) (v : value).
Arguments any_empty {value}.
Arguments any_optional {value} type_name o.
Arguments any_value {value} type_name v.

(** ** The environment of the callables *)

(** The program state the callables act on, and a record of the calls made:
    the name of the task whose [function_] was invoked, in order. *)
Record Env (World : Type) := mkEnv {
  world : World;
  invocations : list string
}.
Arguments mkEnv {World} world invocations.
Arguments world {World} e.
Arguments invocations {World} e.

(** ** [Task<ResultType>] *)

Module Task.
Section Def.
Context {World value : Type}.

(** [std::function<ResultType()>] *)
Definition callable := World -> outcome value * World.

Record t := mk {
  name_ : string;
  function_ : callable;
  result_ : TaskResult.t value;
  priority_ : Priority;
  scheduledTime_ : time_point;
  status_ : TaskStatus;
  cancellable_ : bool;
  ResultType : result_type     (* the template argument of this instance *)
}.

(** The constructor. *)
Definition new (R : result_type) (name : string) (function : callable)
    (priority : Priority) (scheduledTime : time_point) (cancellable : bool) : t :=
  mk name function TaskResult.new priority scheduledTime PENDING cancellable R.

Definition set_status (s : TaskStatus) (x : t) : t :=
  mk (name_ x) (function_ x) (result_ x) (priority_ x) (scheduledTime_ x) s
     (cancellable_ x) (ResultType x).

Definition set_result (r : TaskResult.t value) (x : t) : t :=
  mk (name_ x) (function_ x) r (priority_ x) (scheduledTime_ x) (status_ x)
     (cancellable_ x) (ResultType x).

Definition getStatus (x : t) : TaskStatus := status_ x.
Definition getName (x : t) : string := name_ x.
Definition getPriority (x : t) : Priority := priority_ x.
Definition getScheduledTime (x : t) : time_point := scheduledTime_ x.
Definition isCancellable (x : t) : bool := cancellable_ x.
Definition getResult (x : t) : TaskResult.t value := result_ x.

(** A member function runs on the object and the environment. *)
Definition method (A : Type) := M (t * Env World) A.

Definition this {A} (f : t -> A) : method A := gets (fun s => f (fst s)).

Definition update (f : t -> t) : method unit :=
  modify (fun s => (f (fst s), snd s)).

(** [function_()]: the call is recorded, and acts on the world. *)
Definition call_function : method value :=
  fun s =>
    let '(x, env) := s in
    let '(o, w) := function_ x (world env) in
    (o, (x, mkEnv w (invocations env ++ [name_ x]))).

(** The first lines of [execute]: the test of [CANCELLED] and
    [status_ = RUNNING]. [false] stands for the early [return]. *)
Definition execute_begin : method bool :=
  let* status := this status_ in
  if bool_decide (status = CANCELLED) then ret false
  else update (set_status RUNNING) >> ret true.

(** The [try] block of [execute] and its [catch (...)]. *)
Definition execute_body : method unit :=
  try_catch
    (let* R := this ResultType in
     (match R with
      | void =>
          call_function >>
          update (fun x => set_result (TaskResult.setCompleted (result_ x)) x)
      | typed _ =>
          let* v := call_function in
          update (fun x => set_result (TaskResult.setResult v (result_ x)) x)
      end) >>
     update (set_status COMPLETED))
    catch_all
    (fun e =>
       update (fun x => set_result (TaskResult.setException e (result_ x)) x) >>
       update (set_status FAILED)).

(** [void execute() override] *)
Definition execute : method unit :=
  let* go := execute_begin in
  if go then execute_body else ret tt.

(** [void cancel() override] *)
Definition cancel : method unit :=
  let* c := this cancellable_ in
  let* status := this status_ in
  if c && bool_decide (status = PENDING) then
    update (set_status CANCELLED) >>
    update (fun x => set_result (TaskResult.setStatus CANCELLED (result_ x)) x)
  else ret tt.

(** [std::any getResultAsAny() const override] *)
Definition getResultAsAny (x : t) : any value :=
  match ResultType x with
  | void => any_empty
  | typed R =>
      if TaskResult.hasResult (result_ x)
      then any_optional R (TaskResult.tryGetResult (result_ x))
      else any_empty
  end.

End Def.
Arguments t : clear implicits.
Arguments callable : clear implicits.
Arguments method : clear implicits.
End Task.

(** ** [TaskComparator] *)

Section Comparator.
Context {World value : Type}.

(** [bool operator()(a, b)]: [true] when [a] is ordered before [b], that is,
    when the queue serves [b] first. *)
Definition TaskComparator (a b : Task.t World value) : bool :=
  if bool_decide (Priority_value (Task.getPriority a) ≠ Priority_value (Task.getPriority b))
  then Priority_value (Task.getPriority a) <? Priority_value (Task.getPriority b)
  else Task.getScheduledTime a >? Task.getScheduledTime b.

End Comparator.

(** ** [ThreadPool] *)

(** Where a worker thread stands in its loop: blocked in (or about to enter)
    [condition_.wait]; holding the task it popped; inside [execute], past
    [status_ = RUNNING]; or returned from the loop. *)
Inductive worker := Waiting | Holding (task : loc) | Executing (task : loc) | Exited.

Module ThreadPool.

Record t := mk {
  workers_ : list worker;
  tasks_ : list loc;          (* the elements of the std::priority_queue *)
  stop_ : bool;
  activeThreads_ : N;
  maxThreads_ : N
}.

(** The constructor: [threads] workers, each at the top of its loop. *)
Definition new (threads : nat) : t :=
  mk (replicate threads Waiting) [] false 0%N (N.of_nat threads mod size_t_modulus)%N.

Definition set_workers (w : list worker) (p : t) : t :=
  mk w (tasks_ p) (stop_ p) (activeThreads_ p) (maxThreads_ p).
Definition set_tasks (q : list loc) (p : t) : t :=
  mk (workers_ p) q (stop_ p) (activeThreads_ p) (maxThreads_ p).
Definition set_stop (b : bool) (p : t) : t :=
  mk (workers_ p) (tasks_ p) b (activeThreads_ p) (maxThreads_ p).
Definition set_activeThreads (n : N) (p : t) : t :=
  mk (workers_ p) (tasks_ p) (stop_ p) n (maxThreads_ p).

(** *** The contract of [std::priority_queue]

    With comparison [comp], [top()] is an element that [comp] orders before
    no other element of the queue, and [pop()] removes it. Which of several
    such elements is served is left to the heap algorithm of the library. *)
Section PriorityQueue.
Context (comp : loc -> loc -> bool).

Definition is_top (q : list loc) (l : loc) : bool :=
  bool_decide (l ∈ q) && forallb (fun x => negb (comp l x)) q.

(** One admissible [top()]: the first element that the rest does not beat. *)
Fixpoint max_from (best : loc) (q : list loc) : loc :=
  match q with
  | [] => best
  | x :: q' => max_from (if comp best x then x else best) q'
  end.

Definition top (q : list loc) : option loc :=
  match q with
  | [] => None
  | x :: q' => Some (max_from x q')
  end.

(** [pop()]: one occurrence of the top element leaves the queue. *)
Fixpoint remove_first (l : loc) (q : list loc) : list loc :=
  match q with
  | [] => []
  | x :: q' => if bool_decide (x = l) then q' else x :: remove_first l q'
  end.

End PriorityQueue.

(** [void enqueue(std::shared_ptr<TaskBase> task)] *)
Definition enqueue (task : loc) : M t unit :=
  let* stop := gets stop_ in
  if stop then throw (Exception TaskSchedulerException "ThreadPool has been stopped")
  else modify (fun p => set_tasks (tasks_ p ++ [task]) p).

Definition getQueueSize (p : t) : N := (N.of_nat (length (tasks_ p)) mod size_t_modulus)%N.
Definition getActiveThreadCount (p : t) : N := activeThreads_ p.
Definition getMaxThreadCount (p : t) : N := maxThreads_ p.

(** The critical section of worker [i]'s loop, from [condition_.wait] to
    [tasks_.pop()], when the queue serves [choice] as its top. The worker
    stays blocked while the pool is neither stopped nor non-empty; it returns
    when the pool is stopped and the queue is empty; otherwise it pops. *)
Definition worker_pop (comp : loc -> loc -> bool) (i : nat) (choice : loc) (p : t) : t :=
  match workers_ p !! i with
  | Some Waiting =>
      if negb (stop_ p || negb (bool_decide (tasks_ p = []))) then p
      else if stop_ p && bool_decide (tasks_ p = []) then
        set_workers (<[i := Exited]> (workers_ p)) p
      else if is_top comp (tasks_ p) choice then
        set_workers (<[i := Holding choice]> (workers_ p))
          (set_tasks (remove_first choice (tasks_ p)) p)
      else p
  | _ => p
  end.

(** What that critical section pops. *)
Definition popped_by (comp : loc -> loc -> bool) (i : nat) (choice : loc) (p : t) : option loc :=
  match workers_ p !! i with
  | Some Waiting =>
      if negb (bool_decide (tasks_ p = [])) && is_top comp (tasks_ p) choice
      then Some choice else None
  | _ => None
  end.

(** [~ThreadPool()], up to [notify_all]: the flag is set; the joins then wait
    for the workers' own steps. *)
Definition shutdown (p : t) : t := set_stop true p.

End ThreadPool.

(** ** [TaskScheduler] *)

Module TaskScheduler.
Section Def.
Context {World value : Type}.

(** [struct Statistics] *)
Record Statistics := mkStatistics {
  totalTasks : N;
  completedTasks : N;
  failedTasks : N;
  cancelledTasks : N
}.

(** The members of the class, and with them what they refer to: the store of
    task objects that the shared pointers address, the detached timer threads
    (each holding the task it will enqueue), and the callables' environment. *)
Record t := mk {
  threadPool_ : ThreadPool.t;
  tasks_ : gmap string loc;        (* std::unordered_map<std::string, std::shared_ptr<TaskBase>> *)
  stats_ : Statistics;
  heap : list (Task.t World value);
  timers : list loc;
  env : Env World
}.

(** [explicit TaskScheduler(size_t threadCount)] *)
Definition new (threadCount : nat) (e : Env World) : t :=
  mk (ThreadPool.new threadCount) ∅ (mkStatistics 0 0 0 0)%N [] [] e.

Definition set_threadPool (p : ThreadPool.t) (s : t) : t :=
  mk p (tasks_ s) (stats_ s) (heap s) (timers s) (env s).
Definition set_tasks (m : gmap string loc) (s : t) : t :=
  mk (threadPool_ s) m (stats_ s) (heap s) (timers s) (env s).
Definition set_stats (st : Statistics) (s : t) : t :=
  mk (threadPool_ s) (tasks_ s) st (heap s) (timers s) (env s).
Definition set_heap (h : list (Task.t World value)) (s : t) : t :=
  mk (threadPool_ s) (tasks_ s) (stats_ s) h (timers s) (env s).
Definition set_timers (l : list loc) (s : t) : t :=
  mk (threadPool_ s) (tasks_ s) (stats_ s) (heap s) l (env s).
Definition set_env (e : Env World) (s : t) : t :=
  mk (threadPool_ s) (tasks_ s) (stats_ s) (heap s) (timers s) e.

(** [task->m()]: the member function runs on the object at [task] and the
    environment, and the object is written back. *)
Definition call {A} (task : loc) (m : Task.method World value A) : M t A :=
  fun s =>
    match heap s !! task with
    | None => (Undefined, s)
    | Some x =>
        let '(o, (x', e')) := m (x, env s) in
        (o, set_env e' (set_heap (<[task := x']> (heap s)) s))
    end.

(** A [const] member function: the object is read only. *)
Definition read {A} (task : loc) (f : Task.t World value -> A) : M t A :=
  fun s =>
    match heap s !! task with
    | None => (Undefined, s)
    | Some x => (Returned (f x), s)
    end.

(** [std::make_shared<Task<ResultType>>(...)] *)
Definition make_shared (x : Task.t World value) : M t loc :=
  fun s => (Returned (length (heap s)), set_heap (heap s ++ [x]) s).

(** A call into the pool. *)
Definition in_pool {A} (m : M ThreadPool.t A) : M t A :=
  fun s => let '(o, p) := m (threadPool_ s) in (o, set_threadPool p s).

(** [TaskComparator] through the shared pointers. *)
Definition comp (s : t) (a b : loc) : bool :=
  match heap s !! a, heap s !! b with
  | Some x, Some y => TaskComparator x y
  | _, _ => false
  end.

Definition not_found {A} (name : string) : M t A :=
  throw (Exception TaskNotFoundException ("Task '" +:+ name +:+ "' not found")).

(** The state [scheduleTask] builds before it hands the task to the pool or
    to a timer. *)
Definition registered (s : t) (name : string) (x : Task.t World value) : t :=
  set_stats
    (mkStatistics (size_t_incr (totalTasks (stats_ s))) (completedTasks (stats_ s))
       (failedTasks (stats_ s)) (cancelledTasks (stats_ s)))
    (set_tasks (<[name := length (heap s)]> (tasks_ s)) (set_heap (heap s ++ [x]) s)).

(** [scheduleTask<ResultType>(name, function, priority, scheduledTime,
    cancellable)]; [now] is what [system_clock::now()] reads in the body. *)
Definition scheduleTask (R : result_type) (name : string)
    (function : Task.callable World value) (priority : Priority)
    (scheduledTime : time_point) (cancellable : bool) (now : time_point) : M t loc :=
  let* found := gets (fun s => tasks_ s !! name) in
  match found with
  | Some _ =>
      throw (Exception DuplicateTaskException
               ("Task with name '" +:+ name +:+ "' already exists"))
  | None =>
      let* task := make_shared (Task.new R name function priority scheduledTime cancellable) in
      modify (fun s => set_tasks (<[name := task]> (tasks_ s)) s) >>
      modify (fun s =>
        let st := stats_ s in
        set_stats (mkStatistics (size_t_incr (totalTasks st)) (completedTasks st)
                                (failedTasks st) (cancelledTasks st)) s) >>
      (if bool_decide (scheduledTime <= now)
       then in_pool (ThreadPool.enqueue task)
       else modify (fun s => set_timers (timers s ++ [task]) s)) >>
      ret task
  end.

(** The body of a timer thread once its sleep is over: the task goes from
    the thread to the pool. On a stopped pool [enqueue] throws inside the
    detached thread; the state then stays as that call left it. *)
Definition timer_fire (task : loc) : M t unit :=
  let* waiting := gets (fun s => bool_decide (task ∈ timers s)) in
  if waiting then
    modify (fun s => set_timers (ThreadPool.remove_first task (timers s)) s) >>
    in_pool (ThreadPool.enqueue task)
  else ret tt.

(** [bool cancelTask(const std::string& name)] *)
Definition cancelTask (name : string) : M t bool :=
  let* found := gets (fun s => tasks_ s !! name) in
  match found with
  | None => not_found name
  | Some task =>
      let* c := read task Task.isCancellable in
      let* status := read task Task.getStatus in
      if c && bool_decide (status = PENDING) then
        call task Task.cancel >>
        modify (fun s =>
          let st := stats_ s in
          set_stats (mkStatistics (totalTasks st) (completedTasks st)
                                  (failedTasks st) (size_t_incr (cancelledTasks st))) s) >>
        ret true
      else ret false
  end.

(** [TaskStatus getTaskStatus(const std::string& name) const] *)
Definition getTaskStatus (name : string) : M t TaskStatus :=
  let* found := gets (fun s => tasks_ s !! name) in
  match found with
  | None => not_found name
  | Some task =>
      let* status := read task Task.getStatus in
      (* Update statistics if needed *)
      let* again := read task Task.getStatus in
      (if bool_decide (status = COMPLETED) && bool_decide (again ≠ COMPLETED) then
         modify (fun s =>
           let st := stats_ s in
           set_stats (mkStatistics (totalTasks st) (size_t_incr (completedTasks st))
                                   (failedTasks st) (cancelledTasks st)) s)
       else
         let* again := read task Task.getStatus in
         if bool_decide (status = FAILED) && bool_decide (again ≠ FAILED) then
           modify (fun s =>
             let st := stats_ s in
             set_stats (mkStatistics (totalTasks st) (completedTasks st)
                                     (size_t_incr (failedTasks st)) (cancelledTasks st)) s)
         else ret tt) >>
      ret status
  end.

(** [std::any getTaskResultAsAny(const std::string& name) const] *)
Definition getTaskResultAsAny (name : string) : M t (any value) :=
  let* found := gets (fun s => tasks_ s !! name) in
  match found with
  | None => not_found name
  | Some task => read task Task.getResultAsAny
  end.

(** [TaskResult<ResultType> getTaskResult(const std::string& name) const]:
    the [std::dynamic_pointer_cast] to [Task<R>] yields the object exactly
    when it is an instance for [R]. *)
Definition getTaskResult (R : result_type) (name : string) : M t (TaskResult.t value) :=
  let* found := gets (fun s => tasks_ s !! name) in
  match found with
  | None => not_found name
  | Some task =>
      let* typedTask := read task (fun x => if bool_decide (Task.ResultType x = R) then Some x else None) in
      match typedTask with
      | None => throw (Exception TaskSchedulerException "Task result type mismatch")
      | Some x => ret (Task.getResult x)
      end
  end.

(** [getTaskResult<R>(name).getResult()] *)
Definition getTaskResult_getResult (R : result_type) (name : string) : M t (option value) :=
  let* r := getTaskResult R name in
  fun s => (TaskResult.getResult_of R r, s).

(** One pass through the loop of [waitForTask<R>]: [Some v] when it returns
    [v], [None] when it goes on to sleep. *)
Definition waitForTask_pass (R : result_type) (name : string) : M t (option (option value)) :=
  try_catch
    (let* status := getTaskStatus name in
     if bool_decide (status = COMPLETED) then
       let* v := getTaskResult_getResult R name in ret (Some v)
     else if bool_decide (status = FAILED) then
       getTaskResult_getResult R name >> ret None
     else if bool_decide (status = CANCELLED) then
       throw (Exception TaskSchedulerException "Task was cancelled")
     else ret None)
    (fun e => derives_from (exn_class e) TaskNotFoundException)
    (fun e => throw e).

(** [waitForTask<R>(name)] while no other thread takes a step; [fuel] bounds
    the passes, and [None] reports that they were used up. *)
Fixpoint waitForTask (R : result_type) (name : string) (fuel : nat) : M t (option (option value)) :=
  match fuel with
  | O => ret None
  | S fuel' =>
      let* r := waitForTask_pass R name in
      match r with
      | Some v => ret (Some v)
      | None => waitForTask R name fuel'
      end
  end.

(** [struct TaskStatistics] *)
Record TaskStatistics := mkTaskStatistics {
  ts_totalTasks : N;
  ts_completedTasks : N;
  ts_failedTasks : N;
  ts_cancelledTasks : N;
  ts_pendingTasks : N;
  ts_activeThreads : N;
  ts_maxThreads : N
}.

(** [TaskStatistics getStatistics() const] *)
Definition getStatistics (s : t) : TaskStatistics :=
  let pending :=
    map_fold (fun (_ : string) (task : loc) (n : N) =>
                match heap s !! task with
                | Some x => if bool_decide (Task.getStatus x = PENDING) then size_t_incr n else n
                | None => n
                end) 0%N (tasks_ s) in
  mkTaskStatistics (totalTasks (stats_ s)) (completedTasks (stats_ s))
    (failedTasks (stats_ s)) (cancelledTasks (stats_ s)) pending
    (ThreadPool.getActiveThreadCount (threadPool_ s))
    (ThreadPool.getMaxThreadCount (threadPool_ s)).

(** The status behind a shared pointer is terminal. *)
Definition terminal_at (s : t) (task : loc) : bool :=
  match heap s !! task with
  | Some x => terminal (Task.getStatus x)
  | None => false
  end.

(** [void cleanup()] *)
Definition cleanup (s : t) : t :=
  set_tasks (filter (fun kv => terminal_at s kv.2 = false) (tasks_ s)) s.

(** *** Listing and waiting *)

(** The loop of [listTasks] over the registry's pairs, in the order the
    map yields them. *)
Fixpoint listTasks_loop (h : list (Task.t World value)) (pairs : list (string * loc))
    : outcome (list (string * TaskStatus)) :=
  match pairs with
  | [] => Returned []
  | (name, task) :: rest =>
      match h !! task with
      | None => Undefined
      | Some x =>
          match listTasks_loop h rest with
          | Returned l => Returned ((name, Task.getStatus x) :: l)
          | r => r
          end
      end
  end.

(** [std::vector<std::pair<std::string, TaskStatus>> listTasks() const] *)
Definition listTasks (s : t) : outcome (list (string * TaskStatus)) :=
  listTasks_loop (heap s) (map_to_list (tasks_ s)).

(** The [for] loop of [waitForAll]: [allDone] starts [true], and the first
    [PENDING] or [RUNNING] task sets it [false] and breaks. *)
Fixpoint allDone_loop (h : list (Task.t World value)) (pairs : list (string * loc))
    : outcome bool :=
  match pairs with
  | [] => Returned true
  | (_, task) :: rest =>
      match h !! task with
      | None => Undefined
      | Some x =>
          if bool_decide (Task.getStatus x = PENDING) || bool_decide (Task.getStatus x = RUNNING)
          then Returned false
          else allDone_loop h rest
      end
  end.

(** [void waitForAll()] while no other thread takes a step: [true] when it
    returns, [false] when [fuel] passes were not enough. *)
Fixpoint waitForAll (fuel : nat) (s : t) : outcome bool :=
  match fuel with
  | O => Returned false
  | S fuel' =>
      match allDone_loop (heap s) (map_to_list (tasks_ s)) with
      | Returned true => Returned true
      | Returned false => waitForAll fuel' s
      | r => r
      end
  end.

(** *** The worker threads *)

(** [++activeThreads_; task->execute()] up to [status_ = RUNNING]; a
    cancelled task makes [execute] return, and [--activeThreads_] follows. *)
Definition worker_begin (i : nat) (s : t) : t :=
  match ThreadPool.workers_ (threadPool_ s) !! i with
  | Some (Holding task) =>
      match heap s !! task with
      | None => s
      | Some x =>
          let p := threadPool_ s in
          let active := size_t_incr (ThreadPool.activeThreads_ p) in
          let '(o, (x', e')) := Task.execute_begin (x, env s) in
          let s' := set_env e' (set_heap (<[task := x']> (heap s)) s) in
          match o with
          | Returned true =>
              set_threadPool
                (ThreadPool.set_workers (<[i := Executing task]> (ThreadPool.workers_ p))
                   (ThreadPool.set_activeThreads active p)) s'
          | _ =>
              set_threadPool
                (ThreadPool.set_workers (<[i := Waiting]> (ThreadPool.workers_ p))
                   (ThreadPool.set_activeThreads (size_t_decr active) p)) s'
          end
      end
  | _ => s
  end.

(** The rest of [task->execute()], then [--activeThreads_] and the next
    turn of the loop. *)
Definition worker_finish (i : nat) (s : t) : t :=
  match ThreadPool.workers_ (threadPool_ s) !! i with
  | Some (Executing task) =>
      match heap s !! task with
      | None => s
      | Some x =>
          let p := threadPool_ s in
          let '(_, (x', e')) := Task.execute_body (x, env s) in
          set_threadPool
            (ThreadPool.set_workers (<[i := Waiting]> (ThreadPool.workers_ p))
               (ThreadPool.set_activeThreads (size_t_decr (ThreadPool.activeThreads_ p)) p))
            (set_env e' (set_heap (<[task := x']> (heap s)) s))
      end
  | _ => s
  end.

(** *** Events

    What the threads of the program do to a scheduler, one atomic step each:
    the calls of the public interface, the end of a timer's sleep, the three
    stages of a worker's loop, and the destruction of the pool. *)
Inductive event :=
| ScheduleTask (R : result_type) (name : string) (function : Task.callable World value)
    (priority : Priority) (scheduledTime : time_point) (cancellable : bool) (now : time_point)
| CancelTask (name : string)
| GetTaskStatus (name : string)
| Cleanup
| TimerFire (task : loc)
| WorkerPop (i : nat) (choice : loc)
| WorkerBegin (i : nat)
| WorkerFinish (i : nat)
| Shutdown.

Definition step (ev : event) (s : t) : t :=
  match ev with
  | ScheduleTask R name function priority scheduledTime cancellable now =>
      snd (scheduleTask R name function priority scheduledTime cancellable now s)
  | CancelTask name => snd (cancelTask name s)
  | GetTaskStatus name => snd (getTaskStatus name s)
  | Cleanup => cleanup s
  | TimerFire task => snd (timer_fire task s)
  | WorkerPop i choice =>
      set_threadPool (ThreadPool.worker_pop (comp s) i choice (threadPool_ s)) s
  | WorkerBegin i => worker_begin i s
  | WorkerFinish i => worker_finish i s
  | Shutdown => set_threadPool (ThreadPool.shutdown (threadPool_ s)) s
  end.

(** The task that the event takes out of the queue, if it takes one. *)
Definition dequeued (ev : event) (s : t) : option loc :=
  match ev with
  | WorkerPop i choice => ThreadPool.popped_by (comp s) i choice (threadPool_ s)
  | _ => None
  end.

Fixpoint run (evs : list event) (s : t) : t :=
  match evs with
  | [] => s
  | ev :: evs' => run evs' (step ev s)
  end.

(** The tasks dequeued along a run, in order. *)
Fixpoint dequeue_order (evs : list event) (s : t) : list loc :=
  match evs with
  | [] => []
  | ev :: evs' =>
      match dequeued ev s with
      | Some task => task :: dequeue_order evs' (step ev s)
      | None => dequeue_order evs' (step ev s)
      end
  end.

(** One worker's loop run on its own, the queue serving [ThreadPool.top]:
    the events it goes through until it returns, at most [fuel] turns. *)
Fixpoint worker_loop (fuel : nat) (i : nat) (s : t) : list event :=
  match fuel with
  | O => []
  | S fuel' =>
      match ThreadPool.top (comp s) (ThreadPool.tasks_ (threadPool_ s)) with
      | None => [WorkerPop i 0%nat]
      | Some task =>
          let evs := [WorkerPop i task; WorkerBegin i; WorkerFinish i] in
          evs ++ worker_loop fuel' i (run evs s)
      end
  end.

End Def.
Arguments t : clear implicits.
Arguments event : clear implicits.
End TaskScheduler.

(** ** Lifecycles and well-formed states *)

Section Wellformed.
Context {World value : Type}.
Abbreviation task := (Task.t World value).
Abbreviation scheduler := (TaskScheduler.t World value).

(** What the constructor fixes for the life of a task. *)
Definition same_task (x y : task) : Prop :=
  Task.name_ x = Task.name_ y /\
  Task.function_ x = Task.function_ y /\
  Task.priority_ x = Task.priority_ y /\
  Task.scheduledTime_ x = Task.scheduledTime_ y /\
  Task.cancellable_ x = Task.cancellable_ y /\
  Task.ResultType x = Task.ResultType y.

(** What a member function may do to a task: the constructor's arguments
    stay, and the status does not go back to [PENDING]. *)
Definition evolves (x x' : task) : Prop :=
  same_task x x' /\ (Task.status_ x' = PENDING -> Task.status_ x = PENDING).

(** The states a task object can be in: it is constructed, and then
    [execute] and [cancel] are called on it, any number of times and in any
    environment. *)
Inductive lifecycle : task -> Prop :=
| lifecycle_new R name function priority scheduledTime cancellable :
    lifecycle (Task.new R name function priority scheduledTime cancellable)
| lifecycle_execute x e :
    lifecycle x -> lifecycle (fst (snd (Task.execute (x, e))))
| lifecycle_cancel x e :
    lifecycle x -> lifecycle (fst (snd (Task.cancel (x, e)))).

(** [execute] has not got past its first test. *)
Definition unstarted (x : task) : Prop :=
  Task.status_ x = PENDING \/ Task.status_ x = CANCELLED.

(** What the result holder stores, by status, in a task that [execute] has
    run on at most once. *)
Definition holder_ok (x : task) : Prop :=
  match Task.status_ x with
  | PENDING | CANCELLED | RUNNING =>
      TaskResult.result_ (Task.result_ x) = None /\
      TaskResult.exception_ (Task.result_ x) = None
  | FAILED => TaskResult.result_ (Task.result_ x) = None
  | COMPLETED => Task.ResultType x <> void -> is_Some (TaskResult.result_ (Task.result_ x))
  end.

(** The task a worker refers to. *)
Definition worker_refs (w : worker) : list loc :=
  match w with
  | Holding l | Executing l => [l]
  | Waiting | Exited => []
  end.

(** Every reference through which a task is still to be run, or is being
    run: the queue's, the timers' and the workers'. *)
Definition refs (q tm : list loc) (ws : list worker) : list loc :=
  q ++ tm ++ (ws ≫= worker_refs).

(** The task at [l] has not been started. *)
Definition unstarted_at (h : list task) (l : loc) : Prop :=
  exists x, h !! l = Some x /\ unstarted x.

Definition worker_ok (h : list task) (w : worker) : Prop :=
  match w with
  | Holding l => unstarted_at h l
  | Executing l => exists x, h !! l = Some x /\ Task.status_ x = RUNNING
  | Waiting | Exited => True
  end.

(** The registry [reg], the store [h], the queue [q], the timers [tm] and
    the workers [ws] fit together: registered tasks exist; no task is
    referred to twice by queue, timers and workers; what waits in the queue,
    with a timer or in a worker's hand has not been started; a worker inside
    [execute] has a [RUNNING] task; and every result holder fits its task's
    status. *)
Record consistent_parts (reg : gmap string loc) (h : list task)
    (q tm : list loc) (ws : list worker) : Prop := {
  registry_allocated : forall name l, reg !! name = Some l -> is_Some (h !! l);
  refs_NoDup : NoDup (refs q tm ws);
  queued_unstarted : forall l, l ∈ q ++ tm -> unstarted_at h l;
  workers_ok : forall w, w ∈ ws -> worker_ok h w;
  holders_ok : forall l x, h !! l = Some x -> holder_ok x
}.

Definition consistent (s : scheduler) : Prop :=
  consistent_parts (TaskScheduler.tasks_ s) (TaskScheduler.heap s)
    (ThreadPool.tasks_ (TaskScheduler.threadPool_ s)) (TaskScheduler.timers s)
    (ThreadPool.workers_ (TaskScheduler.threadPool_ s)).

(** The states a scheduler goes through: constructed with some number of
    threads, then any events. *)
Definition reachable (s : scheduler) : Prop :=
  exists threadCount e evs,
    s = TaskScheduler.run evs (TaskScheduler.new threadCount e).

(** The status of the task at [l]. *)
Definition status_at (s : scheduler) (l : loc) : option TaskStatus :=
  Task.status_ <$> TaskScheduler.heap s !! l.

(** [a] is served before [b]: higher priority, or the same priority and an
    earlier scheduled time. *)
Definition precedes (a b : task) : Prop :=
  Priority_value (Task.priority_ a) > Priority_value (Task.priority_ b) \/
  (Task.priority_ a = Task.priority_ b /\ Task.scheduledTime_ a < Task.scheduledTime_ b).

End Wellformed.

(** ** Sample programs

    Callables over a world that counts the calls made, with integer
    results, in the manner of the demonstration program. *)

Module Demo.

Definition failure : exception :=
  Exception std_runtime_error "This task is designed to fail".

(** [[]() { return computeFactorial(10); }] *)
Definition factorial_10 : Task.callable nat Z := fun w => (Returned 3628800, S w).

(** [failingTask] *)
Definition failingTask : Task.callable nat Z := fun w => (Raised failure, S w).

(** A callable that returns when first called and throws from then on. *)
Definition once : Task.callable nat Z :=
  fun w => match w with O => (Returned 1, 1%nat) | S _ => (Raised failure, S w) end.

Definition env0 : Env nat := mkEnv 0%nat [].

Definition scheduler0 : TaskScheduler.t nat Z := TaskScheduler.new 1 env0.

(** A fresh task around [once], and the same task after one and after two
    calls of [execute]. *)
Definition once_task : Task.t nat Z := Task.new (typed "int") "once" once MEDIUM 0 true.
Definition once_task_1 : Task.t nat Z := fst (snd (Task.execute (once_task, env0))).
Definition once_env_1 : Env nat := snd (snd (Task.execute (once_task, env0))).
Definition once_task_2 : Task.t nat Z := fst (snd (Task.execute (once_task_1, once_env_1))).

(** A fresh task that is cancelled. *)
Definition cancelled_task : Task.t nat Z :=
  fst (snd (Task.cancel (Task.new (typed "int") "c" factorial_10 HIGH 5 true, env0))).

(** The tasks of [scheduled] as their constructor leaves them. *)
Definition factorial_task : Task.t nat Z :=
  Task.new (typed "int") "factorial_10" factorial_10 HIGH 0 true.
Definition failing_task : Task.t nat Z :=
  Task.new void "failing_task" failingTask MEDIUM 0 true.

(** The events that lead to [scheduled], [worked] and
    [stopped]. *)
Definition scheduling : list (TaskScheduler.event nat Z) :=
  [TaskScheduler.ScheduleTask (typed "int") "factorial_10" factorial_10 HIGH 0 true 0;
   TaskScheduler.ScheduleTask void "failing_task" failingTask MEDIUM 0 true 0;
   TaskScheduler.ScheduleTask (typed "int") "future_task" factorial_10 HIGH 5 true 0].
Definition working : list (TaskScheduler.event nat Z) :=
  [TaskScheduler.WorkerPop 0 0%nat; TaskScheduler.WorkerBegin 0; TaskScheduler.WorkerFinish 0;
   TaskScheduler.WorkerPop 0 1%nat; TaskScheduler.WorkerBegin 0; TaskScheduler.WorkerFinish 0].

(** One worker; "factorial_10" (HIGH) and "failing_task" (MEDIUM) are
    scheduled at time 0 for time 0, "future_task" for time 5. *)
Definition scheduled : TaskScheduler.t nat Z := TaskScheduler.run scheduling scheduler0.

(** The worker then runs its loop twice. *)
Definition worked : TaskScheduler.t nat Z := TaskScheduler.run working scheduled.

(** The pool is destroyed while both ready tasks are still queued. *)
Definition stopped : TaskScheduler.t nat Z :=
  TaskScheduler.step TaskScheduler.Shutdown scheduled.

(** The third task of [scheduled] as its constructor leaves it, and the
    first as the worker leaves it in [worked]. *)
Definition future_task : Task.t nat Z :=
  Task.new (typed "int") "future_task" factorial_10 HIGH 5 true.
Definition factorial_done : Task.t nat Z :=
  fst (snd (Task.execute (factorial_task, env0))).

(** One turn of a worker's loop on the first task. *)
Definition turn : list (TaskScheduler.event nat Z) :=
  [TaskScheduler.WorkerPop 0 0%nat; TaskScheduler.WorkerBegin 0; TaskScheduler.WorkerFinish 0].

(** After [worked], the third task is cancelled as well. *)
Definition all_done : TaskScheduler.t nat Z :=
  TaskScheduler.step (TaskScheduler.CancelTask "future_task") worked.

(** What may still happen after [worked] and after [stopped]. *)
Definition afterwards : list (TaskScheduler.event nat Z) :=
  [TaskScheduler.CancelTask "factorial_10"; TaskScheduler.TimerFire 2%nat;
   TaskScheduler.WorkerPop 0 2%nat; TaskScheduler.WorkerBegin 0;
   TaskScheduler.WorkerFinish 0; TaskScheduler.Cleanup].
Definition too_late : list (TaskScheduler.event nat Z) :=
  [TaskScheduler.ScheduleTask (typed "int") "late" factorial_10 CRITICAL 0 true 0;
   TaskScheduler.WorkerPop 0 0%nat; TaskScheduler.WorkerBegin 0;
   TaskScheduler.WorkerFinish 0; TaskScheduler.TimerFire 2%nat].

(** "once" is scheduled and run by the worker; then the caller calls
    [execute] again, through the pointer that [scheduleTask] returned. *)
Definition once_worked : TaskScheduler.t nat Z :=
  TaskScheduler.run turn
    (TaskScheduler.step
       (TaskScheduler.ScheduleTask (typed "int") "once" once MEDIUM 0 true 0) scheduler0).
Definition once_reexecuted : TaskScheduler.t nat Z :=
  snd (TaskScheduler.call 0%nat Task.execute once_worked).

End Demo.


(** ** The life of a task inside the scheduler *)

Section TaskSteps.
Context {World value : Type}.
Abbreviation task := (Task.t World value).
Abbreviation scheduler := (TaskScheduler.t World value).

(** What [Task::cancel] writes when it takes effect. *)
Definition cancelled (x : task) : task :=
  Task.set_result (TaskResult.setStatus CANCELLED (Task.result_ x))
    (Task.set_status CANCELLED x).

(** The writes a worker makes to a task: the start of [execute] on a
    [PENDING] task, and the [try] block of [execute] on a [RUNNING] task. *)
Inductive task_step : task -> task -> Prop :=
| task_start x :
    Task.status_ x = PENDING -> task_step x (Task.set_status RUNNING x)
| task_finish x e :
    Task.status_ x = RUNNING -> task_step x (fst (snd (Task.execute_body (x, e)))).

(** How one step changes the store and the counters. *)
Inductive effect (s s' : scheduler) : Prop :=
| effect_none :
    TaskScheduler.heap s' = TaskScheduler.heap s ->
    TaskScheduler.stats_ s' = TaskScheduler.stats_ s -> effect s s'
| effect_schedule R name function priority scheduledTime cancellable :
    TaskScheduler.heap s' =
      TaskScheduler.heap s ++ [Task.new R name function priority scheduledTime cancellable] ->
    TaskScheduler.stats_ s' =
      TaskScheduler.mkStatistics
        (size_t_incr (TaskScheduler.totalTasks (TaskScheduler.stats_ s)))
        (TaskScheduler.completedTasks (TaskScheduler.stats_ s))
        (TaskScheduler.failedTasks (TaskScheduler.stats_ s))
        (TaskScheduler.cancelledTasks (TaskScheduler.stats_ s)) ->
    effect s s'
| effect_cancel l x :
    TaskScheduler.heap s !! l = Some x ->
    Task.status_ x = PENDING -> Task.cancellable_ x = true ->
    TaskScheduler.heap s' = <[l := cancelled x]> (TaskScheduler.heap s) ->
    TaskScheduler.stats_ s' =
      TaskScheduler.mkStatistics
        (TaskScheduler.totalTasks (TaskScheduler.stats_ s))
        (TaskScheduler.completedTasks (TaskScheduler.stats_ s))
        (TaskScheduler.failedTasks (TaskScheduler.stats_ s))
        (size_t_incr (TaskScheduler.cancelledTasks (TaskScheduler.stats_ s))) ->
    effect s s'
| effect_worker l x x' :
    TaskScheduler.heap s !! l = Some x ->
    l ∈ (ThreadPool.workers_ (TaskScheduler.threadPool_ s) ≫= worker_refs) ->
    Task.status_ x <> CANCELLED ->
    task_step x x' ->
    TaskScheduler.heap s' = <[l := x']> (TaskScheduler.heap s) ->
    TaskScheduler.stats_ s' = TaskScheduler.stats_ s -> effect s s'.

(** The pairs of the registry and the pairs that [listTasks] returns. *)
Definition listed (h : list task) (pair : string * loc) (entry : string * TaskStatus) : Prop :=
  pair.1 = entry.1 /\ exists x, h !! pair.2 = Some x /\ Task.status_ x = entry.2.

(** The event is a call of [cancelTask] that returns [true]. *)
Definition cancels (ev : TaskScheduler.event World value) (s : scheduler) : bool :=
  match ev with
  | TaskScheduler.CancelTask name =>
      match fst (TaskScheduler.cancelTask name s) with
      | Returned true => true
      | _ => false
      end
  | _ => false
  end.

(** The number of such calls along a run. *)
Fixpoint cancelled_calls (evs : list (TaskScheduler.event World value)) (s : scheduler) : nat :=
  match evs with
  | [] => 0
  | ev :: evs' =>
      ((if cancels ev s then 1 else 0) + cancelled_calls evs' (TaskScheduler.step ev s))%nat
  end.

(** The number of workers that are inside [execute]. *)
Definition is_executing (w : worker) : bool :=
  match w with Executing _ => true | _ => false end.

Definition count_executing (ws : list worker) : nat :=
  length (filter (fun w => is_executing w = true) ws).

(** The pool's counter and its workers fit together. *)
Definition pool_counts (n : nat) (p : ThreadPool.t) : Prop :=
  ThreadPool.activeThreads_ p =
    (N.of_nat (count_executing (ThreadPool.workers_ p)) mod size_t_modulus)%N /\
  length (ThreadPool.workers_ p) = n /\
  ThreadPool.maxThreads_ p = (N.of_nat n mod size_t_modulus)%N.

End TaskSteps.

(** ** The helper functions of the demonstration program *)

Module DemoProgram.

(** [int]: 32 bits, two's complement; an arithmetic result outside the range
    has no defined behaviour. *)
Definition INT_MAX : Z := 2 ^ 31 - 1.
Definition INT_MIN : Z := - 2 ^ 31.

(** The values of the enumerators of [enum class TaskStatus]; those of
    [enum class Priority] are [Priority_value]. An object of either type can
    hold any value of the underlying [int]. *)
Definition TaskStatus_value (s : TaskStatus) : Z :=
  match s with PENDING => 0 | RUNNING => 1 | COMPLETED => 2 | FAILED => 3 | CANCELLED => 4 end.

(** [std::string statusToString(TaskStatus status)], on the value of its
    argument. *)
Definition statusToString (status : Z) : string :=
  match status with
  | 0 => "PENDING"
  | 1 => "RUNNING"
  | 2 => "COMPLETED"
  | 3 => "FAILED"
  | 4 => "CANCELLED"
  | _ => "UNKNOWN"
  end.

(** [std::string priorityToString(Priority priority)], on the value of its
    argument. *)
Definition priorityToString (priority : Z) : string :=
  match priority with
  | 0 => "LOW"
  | 1 => "MEDIUM"
  | 2 => "HIGH"
  | 3 => "CRITICAL"
  | _ => "UNKNOWN"
  end.

(** The loop of [computeFactorial],
    [for (int i = 2; i <= n; ++i) result *= i;], by the number of turns it
    still has to make: [n - i + 1] of them while [i <= n], none after. *)
Fixpoint computeFactorial_loop (turns : nat) (i result : Z) : outcome Z :=
  match turns with
  | O => Returned result
  | S turns' =>
      let result' := result * i in
      if (INT_MIN <=? result') && (result' <=? INT_MAX) then
        if i + 1 <=? INT_MAX then computeFactorial_loop turns' (i + 1) result'
        else Undefined
      else Undefined
  end.

(** [int computeFactorial(int n)] *)
Definition computeFactorial (n : Z) : outcome Z :=
  if n <? 0 then
    Raised (Exception (other_exception "std::invalid_argument")
              "Factorial not defined for negative numbers")
  else computeFactorial_loop (Z.to_nat (n - 1)) 2 1.

(** The factorial of the mathematicians. *)
Fixpoint factorial (n : nat) : Z :=
  match n with
  | O => 1
  | S n' => Z.of_nat n * factorial n'
  end.

End DemoProgram.

(** * Properties *)

Import TaskScheduler.

(** ** [Task] *)

Section TaskProperties.
Context {World value : Type}.
Abbreviation task := (Task.t World value).

(** A cancelled task makes [execute] return at once: the object and the
    environment are as they were. *)
Lemma execute_CANCELLED (x : task) (e : Env World) :
  Task.status_ x = CANCELLED -> Task.execute (x, e) = (Returned tt, (x, e)).
Proof.
  intros H. unfold Task.execute, Task.execute_begin, Task.this. unfold_M.
  simpl. rewrite H. reflexivity.
Qed.

(** [execute_begin] either returns [false] and changes nothing, or sets
    [RUNNING]. *)
Lemma execute_begin_cases (x : task) (e : Env World) :
  (Task.status_ x = CANCELLED /\ Task.execute_begin (x, e) = (Returned false, (x, e))) \/
  (Task.status_ x <> CANCELLED /\
   Task.execute_begin (x, e) = (Returned true, (Task.set_status RUNNING x, e))).
Proof.
  unfold Task.execute_begin, Task.this, Task.update. unfold_M. simpl.
  case_bool_decide; [left | right]; split; auto.
Qed.

(** What the [try] block and its handler leave, by the callable's outcome. *)
Lemma execute_body_cases (x : task) (e : Env World) :
  let called := mkEnv (snd (Task.function_ x (world e))) (invocations e ++ [Task.name_ x]) in
  match fst (Task.function_ x (world e)) with
  | Returned v =>
      Task.execute_body (x, e) =
        (Returned tt,
         (Task.set_status COMPLETED
            (Task.set_result
               (match Task.ResultType x with
                | void => TaskResult.setCompleted (Task.result_ x)
                | typed _ => TaskResult.setResult v (Task.result_ x)
                end) x), called))
  | Raised ex =>
      Task.execute_body (x, e) =
        (Returned tt,
         (Task.set_status FAILED
            (Task.set_result (TaskResult.setException ex (Task.result_ x)) x), called))
  | Undefined => Task.execute_body (x, e) = (Undefined, (x, called))
  end.
Proof.
  unfold Task.execute_body, Task.call_function, Task.this, Task.update. unfold_M.
  cbn [fst snd]. destruct (Task.ResultType x); cbn [fst snd];
    destruct (Task.function_ x (world e)) as [[v | ex |] w]; reflexivity.
Qed.

(** [cancel] moves a cancellable [PENDING] task to [CANCELLED] and leaves
    every other task alone; the environment is not touched. *)
Lemma cancel_cases (x : task) (e : Env World) :
  Task.cancel (x, e) =
    (Returned tt,
     (if Task.cancellable_ x && bool_decide (Task.status_ x = PENDING)
      then Task.set_result (TaskResult.setStatus CANCELLED (Task.result_ x))
             (Task.set_status CANCELLED x)
      else x, e)).
Proof.
  unfold Task.cancel, Task.this, Task.update. unfold_M. simpl.
  destruct (Task.cancellable_ x && bool_decide (Task.status_ x = PENDING)); reflexivity.
Qed.

Lemma execute_unfold (x : task) (e : Env World) :
  Task.execute (x, e) =
    if bool_decide (Task.status_ x = CANCELLED) then (Returned tt, (x, e))
    else Task.execute_body (Task.set_status RUNNING x, e).
Proof.
  unfold Task.execute. unfold bind at 1.
  destruct (execute_begin_cases x e) as [[Hc ->] | [Hc ->]];
    case_bool_decide; try contradiction; reflexivity.
Qed.

(** A task that is [PENDING] or [CANCELLED] stores neither a value nor an
    error, however often [execute] and [cancel] were called. *)
Lemma lifecycle_unstarted (x : task) :
  lifecycle x -> unstarted x ->
  TaskResult.result_ (Task.result_ x) = None /\ TaskResult.exception_ (Task.result_ x) = None.
Proof.
  induction 1 as [| x e Hx IH | x e Hx IH]; intros Hu.
  - split; reflexivity.
  - revert Hu. rewrite execute_unfold. case_bool_decide as Hc.
    + simpl. intros _. apply IH. right. exact Hc.
    + pose proof (execute_body_cases (Task.set_status RUNNING x) e) as Hb.
      simpl in Hb. destruct (fst (Task.function_ x (world e))); rewrite Hb; simpl.
      * intros [Hu | Hu]; discriminate.
      * intros [Hu | Hu]; discriminate.
      * intros [Hu | Hu]; discriminate.
  - revert Hu. rewrite cancel_cases. simpl.
    destruct (Task.cancellable_ x && bool_decide (Task.status_ x = PENDING)) eqn:Hg.
    + simpl. intros _. apply IH. left.
      apply andb_true_iff in Hg as [_ Hg]. apply bool_decide_eq_true in Hg. exact Hg.
    + exact IH.
Qed.

End TaskProperties.

(** ** [TaskScheduler]: single calls *)

Section SchedulerProperties.
Context {World value : Type}.
Abbreviation scheduler := (TaskScheduler.t World value).

Lemma read_Some {A} (s : scheduler) l x (f : Task.t World value -> A) :
  heap s !! l = Some x -> read l f s = (Returned (f x), s).
Proof. intros H. unfold read. rewrite H. reflexivity. Qed.

Lemma set_heap_id (s : scheduler) l x :
  heap s !! l = Some x -> set_env (env s) (set_heap (<[l := x]> (heap s)) s) = s.
Proof.
  intros H. destruct s. unfold set_env, set_heap. simpl in *.
  rewrite list_insert_id by exact H. reflexivity.
Qed.

(** [getTaskStatus] returns the status and changes nothing: the test
    [status == S && getStatus() != S] never holds, so neither counter is
    touched. *)
Lemma getTaskStatus_cases (s : scheduler) name :
  getTaskStatus name s =
    match tasks_ s !! name with
    | None => (Raised (Exception TaskNotFoundException ("Task '" +:+ name +:+ "' not found")), s)
    | Some l =>
        match heap s !! l with
        | None => (Undefined, s)
        | Some x => (Returned (Task.status_ x), s)
        end
    end.
Proof.
  unfold getTaskStatus, not_found. unfold_M.
  destruct (tasks_ s !! name) as [l |]; [| reflexivity].
  unfold read. destruct (heap s !! l) as [x |] eqn:Hx; [| reflexivity].
  unfold Task.getStatus.
  destruct (Task.status_ x) eqn:Hs;
    repeat first
      [ reflexivity
      | progress (simpl; rewrite ?Hx, ?Hs)
      | case_bool_decide; try congruence ].
Qed.

Lemma cancelTask_cases (s : scheduler) name :
  cancelTask name s =
    match tasks_ s !! name with
    | None => (Raised (Exception TaskNotFoundException ("Task '" +:+ name +:+ "' not found")), s)
    | Some l =>
        match heap s !! l with
        | None => (Undefined, s)
        | Some x =>
            if Task.cancellable_ x && bool_decide (Task.status_ x = PENDING) then
              (Returned true,
               set_stats
                 (mkStatistics (totalTasks (stats_ s)) (completedTasks (stats_ s))
                    (failedTasks (stats_ s)) (size_t_incr (cancelledTasks (stats_ s))))
                 (set_heap
                    (<[l := Task.set_result (TaskResult.setStatus CANCELLED (Task.result_ x))
                              (Task.set_status CANCELLED x)]> (heap s)) s))
            else (Returned false, s)
        end
    end.
Proof.
  unfold cancelTask, not_found. unfold_M.
  destruct (tasks_ s !! name) as [l |]; [| reflexivity].
  unfold read, call. destruct (heap s !! l) as [x |] eqn:Hx; [| reflexivity].
  unfold Task.isCancellable, Task.getStatus. cbv beta iota. rewrite Hx. cbv beta iota.
  destruct (Task.cancellable_ x && bool_decide (Task.status_ x = PENDING)) eqn:Hg;
    [| reflexivity].
  rewrite Hx, cancel_cases, Hg. destruct s; reflexivity.
Qed.

Lemma getTaskResult_cases (s : scheduler) R name :
  getTaskResult R name s =
    match tasks_ s !! name with
    | None => (Raised (Exception TaskNotFoundException ("Task '" +:+ name +:+ "' not found")), s)
    | Some l =>
        match heap s !! l with
        | None => (Undefined, s)
        | Some x =>
            if bool_decide (Task.ResultType x = R) then (Returned (Task.result_ x), s)
            else (Raised (Exception TaskSchedulerException "Task result type mismatch"), s)
        end
    end.
Proof.
  unfold getTaskResult, not_found. unfold_M.
  destruct (tasks_ s !! name) as [l |]; [| reflexivity].
  unfold read. destruct (heap s !! l) as [x |]; [| reflexivity].
  case_bool_decide; reflexivity.
Qed.

Lemma getTaskResultAsAny_cases (s : scheduler) name :
  getTaskResultAsAny name s =
    match tasks_ s !! name with
    | None => (Raised (Exception TaskNotFoundException ("Task '" +:+ name +:+ "' not found")), s)
    | Some l =>
        match heap s !! l with
        | None => (Undefined, s)
        | Some x => (Returned (Task.getResultAsAny x), s)
        end
    end.
Proof.
  unfold getTaskResultAsAny, not_found. unfold_M.
  destruct (tasks_ s !! name) as [l |]; [| reflexivity].
  unfold read. destruct (heap s !! l) as [x |]; reflexivity.
Qed.

Lemma scheduleTask_cases (s : scheduler) R name function priority scheduledTime
    cancellable now :
  scheduleTask R name function priority scheduledTime cancellable now s =
    match tasks_ s !! name with
    | Some _ =>
        (Raised (Exception DuplicateTaskException
                   ("Task with name '" +:+ name +:+ "' already exists")), s)
    | None =>
        let l := length (heap s) in
        let s1 := registered s name
                    (Task.new R name function priority scheduledTime cancellable) in
        if bool_decide (scheduledTime <= now) then
          if ThreadPool.stop_ (threadPool_ s)
          then (Raised (Exception TaskSchedulerException "ThreadPool has been stopped"), s1)
          else (Returned l,
                set_threadPool
                  (ThreadPool.set_tasks (ThreadPool.tasks_ (threadPool_ s) ++ [l])
                     (threadPool_ s)) s1)
        else (Returned l, set_timers (timers s ++ [l]) s1)
    end.
Proof.
  unfold scheduleTask, registered. unfold_M. cbv beta.
  destruct (tasks_ s !! name); [reflexivity |].
  unfold make_shared, in_pool, ThreadPool.enqueue. unfold_M.
  destruct s as [[ws q [|] act mx] reg st h tm e]; simpl;
    case_bool_decide; reflexivity.
Qed.

Lemma timer_fire_cases (s : scheduler) l :
  snd (timer_fire l s) =
    if bool_decide (l ∈ timers s) then
      let s1 := set_timers (ThreadPool.remove_first l (timers s)) s in
      if ThreadPool.stop_ (threadPool_ s) then s1
      else set_threadPool
             (ThreadPool.set_tasks (ThreadPool.tasks_ (threadPool_ s) ++ [l])
                (threadPool_ s)) s1
    else s.
Proof.
  unfold timer_fire. unfold_M. cbv beta.
  case_bool_decide; [| reflexivity].
  unfold in_pool, ThreadPool.enqueue. unfold_M.
  destruct s as [[ws q [|] act mx] reg st h tm e]; reflexivity.
Qed.

(** The stored error comes back from [getResult] of either template. *)
Lemma getResult_of_exception R (r : TaskResult.t value) E :
  TaskResult.exception_ r = Some E -> TaskResult.getResult_of R r = Raised E.
Proof.
  intros H. destruct R; unfold TaskResult.getResult_of, TaskResult.getResult,
    TaskResult.getResult_void; rewrite H; reflexivity.
Qed.

(** *** C2 *)

(** C2. When a task named [name] is registered, [scheduleTask] with that
    name throws [DuplicateTaskException] and the whole state is as before:
    the registered task with its status and result, the registry, the
    [totalTasks] counter, the pool's queue and the timers. *)
Theorem scheduleTask_duplicate (s : scheduler) R name function priority scheduledTime
    cancellable now l :
  tasks_ s !! name = Some l ->
  scheduleTask R name function priority scheduledTime cancellable now s =
    (Raised (Exception DuplicateTaskException
               ("Task with name '" +:+ name +:+ "' already exists")), s).
Proof.
  intros H. unfold scheduleTask. unfold_M. rewrite H. reflexivity.
Qed.

(** *** C3 *)

(** C3. When the callable of a task that is not cancelled throws [E],
    [execute] returns normally and leaves the task [FAILED]; on a scheduler
    where that task is registered, [getTaskResult<R>(name).getResult()] and
    [waitForTask<R>(name)], for the task's own result type [R], throw [E]
    itself, the latter on its first pass. *)
Theorem failure_is_captured_and_rethrown (x : Task.t World value) (e : Env World)
    (E : exception) :
  Task.status_ x <> CANCELLED ->
  fst (Task.function_ x (world e)) = Raised E ->
  let x' := fst (snd (Task.execute (x, e))) in
  fst (Task.execute (x, e)) = Returned tt /\
  Task.status_ x' = FAILED /\
  forall (s : scheduler) name l,
    tasks_ s !! name = Some l -> heap s !! l = Some x' ->
    getTaskResult_getResult (Task.ResultType x) name s = (Raised E, s) /\
    forall fuel, waitForTask (Task.ResultType x) name (S fuel) s = (Raised E, s).
Proof.
  intros Hc HE x'. subst x'. rewrite execute_unfold.
  case_bool_decide; [contradiction |].
  pose proof (execute_body_cases (Task.set_status RUNNING x) e) as Hb.
  simpl in Hb. rewrite HE in Hb. rewrite Hb. simpl.
  split; [reflexivity |]. split; [reflexivity |].
  intros s name l Hn Hl.
  assert (Hget : getTaskResult_getResult (Task.ResultType x) name s = (Raised E, s)).
  { unfold getTaskResult_getResult. unfold bind. rewrite getTaskResult_cases, Hn, Hl.
    simpl. rewrite bool_decide_eq_true_2 by reflexivity.
    rewrite getResult_of_exception with (E := E) by reflexivity. reflexivity. }
  split; [exact Hget |].
  intros fuel. simpl. unfold waitForTask_pass. unfold bind at 1. unfold try_catch.
  unfold bind at 1. rewrite getTaskStatus_cases, Hn, Hl. simpl.
  unfold bind at 1. rewrite Hget.
  destruct (derives_from (exn_class E) TaskNotFoundException); reflexivity.
Qed.

(** *** C5 *)

(** C5. [cancelTask] on an unregistered name throws [TaskNotFoundException].
    On a registered task it returns [true], and the task becomes
    [CANCELLED], when the task is cancellable and [PENDING]; in every other
    case it returns [false] and nothing changes. *)
Theorem cancelTask_spec (s : scheduler) name :
  (tasks_ s !! name = None ->
   cancelTask name s =
     (Raised (Exception TaskNotFoundException ("Task '" +:+ name +:+ "' not found")), s)) /\
  (forall l x, tasks_ s !! name = Some l -> heap s !! l = Some x ->
     (Task.isCancellable x = true /\ Task.getStatus x = PENDING ->
      exists s', cancelTask name s = (Returned true, s') /\
                 status_at s' l = Some CANCELLED) /\
     (~ (Task.isCancellable x = true /\ Task.getStatus x = PENDING) ->
      cancelTask name s = (Returned false, s))).
Proof.
  split.
  - intros H. rewrite cancelTask_cases, H. reflexivity.
  - intros l x Hn Hl. rewrite cancelTask_cases, Hn, Hl.
    unfold Task.isCancellable, Task.getStatus. split.
    + intros [Hc Hp]. rewrite Hc, bool_decide_eq_true_2 by exact Hp. simpl.
      eexists. split; [reflexivity |].
      unfold status_at. simpl. rewrite list_lookup_insert_eq; [reflexivity |].
      apply lookup_lt_Some with (x := x). exact Hl.
    + intros Hn'. destruct (Task.cancellable_ x) eqn:Hc; [| reflexivity].
      rewrite bool_decide_eq_false_2; [reflexivity |]. intros Hp. apply Hn'. auto.
Qed.

(** *** C9 *)

(** C9. [getTaskResult<R>] on an unregistered name throws
    [TaskNotFoundException]. On a registered task declared with another
    result type it throws a [TaskSchedulerException] with the message
    [Task result type mismatch], which a handler for
    [TaskNotFoundException] or for [DuplicateTaskException] does not
    catch. The state is unchanged by either. *)
Theorem getTaskResult_errors (s : scheduler) R name :
  (tasks_ s !! name = None ->
   getTaskResult R name s =
     (Raised (Exception TaskNotFoundException ("Task '" +:+ name +:+ "' not found")), s)) /\
  (forall l x, tasks_ s !! name = Some l -> heap s !! l = Some x ->
     Task.ResultType x <> R ->
     let mismatch := Exception TaskSchedulerException "Task result type mismatch" in
     getTaskResult R name s = (Raised mismatch, s) /\
     derives_from (exn_class mismatch) TaskNotFoundException = false /\
     derives_from (exn_class mismatch) DuplicateTaskException = false).
Proof.
  split.
  - intros H. rewrite getTaskResult_cases, H. reflexivity.
  - intros l x Hn Hl HR. rewrite getTaskResult_cases, Hn, Hl.
    rewrite bool_decide_eq_false_2 by exact HR. repeat split; reflexivity.
Qed.

End SchedulerProperties.

(** ** Lists: the queue and the workers *)

Section Lists.

Lemma remove_first_Permutation (l : loc) (q : list loc) :
  l ∈ q -> q ≡ₚ l :: ThreadPool.remove_first l q.
Proof.
  induction q as [| x q IH]; intros H.
  - inversion H.
  - simpl. case_bool_decide as Hx.
    + subst. reflexivity.
    + apply elem_of_cons in H as [H | H]; [congruence |].
      rewrite (IH H) at 1. apply perm_swap.
Qed.

Lemma remove_first_submseteq (l : loc) (q : list loc) :
  ThreadPool.remove_first l q ⊆+ q.
Proof.
  induction q as [| x q IH]; simpl; [reflexivity |].
  case_bool_decide.
  - apply submseteq_cons. reflexivity.
  - apply submseteq_skip. exact IH.
Qed.

Lemma elem_of_remove_first (x l : loc) (q : list loc) :
  x ∈ ThreadPool.remove_first l q -> x ∈ q.
Proof.
  intros H. eapply elem_of_submseteq; [exact H | apply remove_first_submseteq].
Qed.

Lemma elem_of_remove_first_ne (x l : loc) (q : list loc) :
  x ∈ q -> x <> l -> x ∈ ThreadPool.remove_first l q.
Proof.
  induction q as [| y q IH]; intros H Hne; [inversion H |].
  simpl. case_bool_decide as Hy.
  - subst. apply elem_of_cons in H as [H | H]; [congruence | exact H].
  - apply elem_of_cons in H as [H | H]; [subst; left | right; auto].
Qed.

Lemma length_remove_first (l : loc) (q : list loc) :
  l ∈ q -> S (length (ThreadPool.remove_first l q)) = length q.
Proof.
  intros H. rewrite (Permutation_length (remove_first_Permutation l q H)). reflexivity.
Qed.

(** The worker at [i] splits the list of workers, and replacing it keeps
    both sides. *)
Lemma workers_split (ws : list worker) (i : nat) (w : worker) :
  ws !! i = Some w ->
  exists pre post, ws = pre ++ w :: post /\
    forall w', <[i := w']> ws = pre ++ w' :: post.
Proof.
  intros H. exists (take i ws), (drop (S i) ws). split.
  - symmetry. apply take_drop_middle. exact H.
  - intros w'. apply insert_take_drop. apply lookup_lt_Some with (x := w). exact H.
Qed.

Lemma sublist_NoDup_submseteq {A} (l k : list A) : NoDup k -> l ⊆+ k -> NoDup l.
Proof.
  intros Hk H. apply submseteq_Permutation in H as [k' H].
  rewrite H in Hk. apply NoDup_app in Hk as [Hk _]. exact Hk.
Qed.

Lemma replicate_Waiting_refs (n : nat) : replicate n Waiting ≫= worker_refs = [].
Proof. induction n as [| n IH]; [reflexivity |]. simpl. exact IH. Qed.

End Lists.

(** ** Every reachable state is consistent *)

Section Consistency.
Context {World value : Type}.
Abbreviation task := (Task.t World value).
Abbreviation scheduler := (TaskScheduler.t World value).

Lemma unstarted_at_insert_ne (h : list task) l l0 x' :
  l <> l0 -> unstarted_at h l -> unstarted_at (<[l0 := x']> h) l.
Proof.
  intros Hne (x & Hx & Hu). exists x. split; [| exact Hu].
  rewrite list_lookup_insert_ne by congruence. exact Hx.
Qed.

Lemma unstarted_at_insert_eq (h : list task) l x x' :
  h !! l = Some x -> unstarted x' -> unstarted_at (<[l := x']> h) l.
Proof.
  intros Hx Hu. exists x'. split; [| exact Hu].
  apply list_lookup_insert_eq. apply lookup_lt_Some with (x := x). exact Hx.
Qed.

Lemma unstarted_at_app (h : list task) l y :
  unstarted_at h l -> unstarted_at (h ++ [y]) l.
Proof.
  intros (x & Hx & Hu). exists x. split; [| exact Hu].
  apply lookup_app_l_Some. exact Hx.
Qed.

Lemma worker_ok_insert_ne (h : list task) w l0 x' :
  l0 ∉ worker_refs w -> worker_ok h w -> worker_ok (<[l0 := x']> h) w.
Proof.
  destruct w as [| l | l |]; simpl; intros Hn H; try exact I.
  - apply unstarted_at_insert_ne; [| exact H]. set_solver.
  - destruct H as (x & Hx & Hs). exists x. split; [| exact Hs].
    rewrite list_lookup_insert_ne; [exact Hx |]. set_solver.
Qed.

Lemma worker_ok_app (h : list task) w y : worker_ok h w -> worker_ok (h ++ [y]) w.
Proof.
  destruct w as [| l | l |]; simpl; intros H; try exact I.
  - apply unstarted_at_app. exact H.
  - destruct H as (x & Hx & Hs). exists x. split; [| exact Hs].
    apply lookup_app_l_Some. exact Hx.
Qed.

Lemma is_Some_insert (h : list task) l l0 x' :
  is_Some (h !! l) -> is_Some (<[l0 := x']> h !! l).
Proof.
  intros H. apply lookup_lt_is_Some. rewrite length_insert.
  apply lookup_lt_is_Some. exact H.
Qed.

(** Whatever is referred to exists. *)
Lemma refs_allocated reg (h : list task) q tm ws l :
  consistent_parts reg h q tm ws -> l ∈ refs q tm ws -> is_Some (h !! l).
Proof.
  intros [_ _ Hq Hw _] H. unfold refs in H. rewrite app_assoc in H.
  apply elem_of_app in H as [H | H].
  - destruct (Hq l H) as (x & Hx & _). eauto.
  - apply list_elem_of_bind in H as (w & Hl & Hin).
    specialize (Hw w Hin). destruct w as [| l' | l' |]; simpl in *;
      try (inversion Hl; fail);
      apply list_elem_of_singleton in Hl; subst.
    + destruct Hw as (x & Hx & _). eauto.
    + destruct Hw as (x & Hx & _). eauto.
Qed.

(** The task a worker refers to is referred to by nothing else. *)
Lemma refs_worker_unique q tm pre w post l :
  NoDup (refs q tm (pre ++ w :: post)) -> l ∈ worker_refs w ->
  (l ∉ q ++ tm) /\ (forall w', w' ∈ pre ++ post -> l ∉ worker_refs w').
Proof.
  unfold refs. rewrite bind_app, bind_cons. intros Hnd Hl.
  rewrite app_assoc in Hnd.
  apply NoDup_app in Hnd as (_ & Hq & Hnd).
  apply NoDup_app in Hnd as (_ & Hpre & Hnd).
  apply NoDup_app in Hnd as (_ & Hw & _).
  split.
  - intros Hin. apply (Hq l Hin).
    apply elem_of_app. right. apply elem_of_app. left. exact Hl.
  - intros w' Hin Hl'. apply elem_of_app in Hin as [Hin | Hin].
    + apply (Hpre l); [apply list_elem_of_bind; eauto |].
      apply elem_of_app. left. exact Hl.
    + apply (Hw l Hl). apply list_elem_of_bind. eauto.
Qed.

Lemma consistent_new threadCount (e : Env World) :
  consistent (new (value := value) threadCount e).
Proof.
  constructor; simpl.
  - intros name l H. rewrite lookup_empty in H. discriminate.
  - unfold refs. simpl. rewrite replicate_Waiting_refs. constructor.
  - intros l H. inversion H.
  - intros w H. apply elem_of_replicate_inv in H. subst. exact I.
  - intros l x H. rewrite lookup_nil in H. discriminate.
Qed.

Lemma consistent_cancelTask (s : scheduler) name :
  consistent s -> consistent (snd (cancelTask name s)).
Proof.
  intros Hc. rewrite cancelTask_cases.
  destruct (tasks_ s !! name) as [l0 |]; [| exact Hc].
  destruct (heap s !! l0) as [x |] eqn:Hx; [| exact Hc].
  destruct (Task.cancellable_ x && bool_decide (Task.status_ x = PENDING)) eqn:Hg;
    [| exact Hc].
  apply andb_true_iff in Hg as [_ Hp]. apply bool_decide_eq_true in Hp.
  destruct Hc as [Hreg Hnd Hq Hw Hh]. unfold consistent. simpl.
  assert (Hu : unstarted_at
                 (<[l0 := Task.set_result (TaskResult.setStatus CANCELLED (Task.result_ x))
                             (Task.set_status CANCELLED x)]> (heap s)) l0).
  { apply unstarted_at_insert_eq with (x := x); [exact Hx |]. right. reflexivity. }
  constructor.
  - intros n l H. apply is_Some_insert. eauto.
  - exact Hnd.
  - intros l H. destruct (decide (l = l0)) as [-> | Hne]; [exact Hu |].
    apply unstarted_at_insert_ne; auto.
  - intros w H. specialize (Hw w H).
    destruct w as [| l | l |]; simpl in *; try exact I.
    + destruct (decide (l = l0)) as [-> | Hne]; [exact Hu |].
      apply unstarted_at_insert_ne; auto.
    + destruct Hw as (x1 & Hx1 & Hs1).
      destruct (decide (l = l0)) as [-> | Hne]; [congruence |].
      exists x1. split; [| exact Hs1]. rewrite list_lookup_insert_ne by congruence. exact Hx1.
  - intros l x1 H. destruct (decide (l = l0)) as [-> | Hne].
    + rewrite list_lookup_insert_eq in H by (apply lookup_lt_Some with (x := x); exact Hx).
      inversion H; subst. specialize (Hh l0 x Hx). unfold holder_ok in *.
      rewrite Hp in Hh. simpl. exact Hh.
    + rewrite list_lookup_insert_ne in H by congruence. eauto.
Qed.

Lemma consistent_cleanup (s : scheduler) : consistent s -> consistent (cleanup s).
Proof.
  intros [Hreg Hnd Hq Hw Hh]. unfold consistent, cleanup. simpl.
  constructor; auto.
  intros n l H. apply map_lookup_filter_Some in H as [H _]. eauto.
Qed.

Lemma consistent_scheduleTask (s : scheduler) R name function priority scheduledTime
    cancellable now :
  consistent s ->
  consistent (snd (scheduleTask R name function priority scheduledTime cancellable now s)).
Proof.
  intros Hc. rewrite scheduleTask_cases.
  destruct (tasks_ s !! name) as [l0 |] eqn:Hn; [exact Hc |].
  set (x := Task.new R name function priority scheduledTime cancellable).
  assert (Hfresh : length (heap s) ∉ refs (ThreadPool.tasks_ (threadPool_ s)) (timers s)
                                  (ThreadPool.workers_ (threadPool_ s))).
  { intros Hl. apply (refs_allocated _ _ _ _ _ _ Hc) in Hl.
    apply lookup_lt_is_Some in Hl. lia. }
  assert (Hnew : (heap s ++ [x]) !! length (heap s) = Some x).
  { rewrite lookup_app_r by lia. rewrite Nat.sub_diag. reflexivity. }
  assert (Hux : unstarted_at (heap s ++ [x]) (length (heap s))).
  { exists x. split; [exact Hnew | left; reflexivity]. }
  destruct Hc as [Hreg Hnd Hq Hw Hh].
  assert (Hreg' : forall n l, <[name := length (heap s)]> (tasks_ s) !! n = Some l ->
                              is_Some ((heap s ++ [x]) !! l)).
  { intros n l H. destruct (decide (name = n)) as [-> | Hne].
    - rewrite lookup_insert_eq in H. inversion H; subst. eauto.
    - rewrite lookup_insert_ne in H by exact Hne.
      destruct (Hreg n l H) as [y Hy]. exists y. apply lookup_app_l_Some. exact Hy. }
  assert (Hh' : forall l y, (heap s ++ [x]) !! l = Some y -> holder_ok y).
  { intros l y H. apply lookup_app_Some in H as [H | [_ H]]; [eauto |].
    destruct (l - length (heap s))%nat; simpl in H; [| discriminate].
    inversion H; subst. split; reflexivity. }
  assert (Hw' : forall w, w ∈ ThreadPool.workers_ (threadPool_ s) ->
                          worker_ok (heap s ++ [x]) w).
  { intros w H. apply worker_ok_app. auto. }
  assert (Hq' : forall l, l ∈ ThreadPool.tasks_ (threadPool_ s) ++ timers s ->
                          unstarted_at (heap s ++ [x]) l).
  { intros l H. apply unstarted_at_app. auto. }
  cbv zeta. case_bool_decide as Htime;
    [destruct (ThreadPool.stop_ (threadPool_ s)) eqn:Hstop |];
    unfold consistent; simpl; constructor; try assumption.
  - unfold refs in *. rewrite <- !app_assoc.
    eapply NoDup_Permutation_proper; [symmetry; apply Permutation_middle |].
    apply NoDup_cons. split; assumption.
  - intros l H. rewrite <- app_assoc in H.
    apply elem_of_app in H as [H | H]; [apply Hq'; set_solver |].
    apply elem_of_cons in H as [-> | H]; [exact Hux |].
    apply Hq'. set_solver.
  - unfold refs in *. rewrite <- !app_assoc.
    eapply NoDup_Permutation_proper;
      [symmetry; rewrite app_assoc; apply Permutation_middle |].
    apply NoDup_cons. split; [| rewrite <- app_assoc; exact Hnd].
    rewrite <- app_assoc. exact Hfresh.
  - intros l H. rewrite app_assoc in H.
    apply elem_of_app in H as [H | H]; [apply Hq'; exact H |].
    apply list_elem_of_singleton in H as ->. exact Hux.
Qed.

Lemma consistent_timer_fire (s : scheduler) l0 :
  consistent s -> consistent (snd (timer_fire l0 s)).
Proof.
  intros Hc. rewrite timer_fire_cases.
  case_bool_decide as Hin; [| exact Hc].
  destruct Hc as [Hreg Hnd Hq Hw Hh].
  pose proof (remove_first_Permutation l0 (timers s) Hin) as Hperm.
  cbv zeta. destruct (ThreadPool.stop_ (threadPool_ s));
    unfold consistent; simpl; constructor; try assumption.
  - eapply sublist_NoDup_submseteq; [exact Hnd |].
    unfold refs. apply submseteq_skips_l, submseteq_skips_r, remove_first_submseteq.
  - intros l H. apply Hq. apply elem_of_app in H as [H | H]; apply elem_of_app;
      [left; exact H | right; eapply elem_of_remove_first; exact H].
  - unfold refs in *. rewrite Hperm in Hnd. rewrite <- !app_assoc.
    eapply NoDup_Permutation_proper; [| exact Hnd].
    simpl. reflexivity.
  - intros l H. apply Hq. rewrite <- app_assoc in H.
    apply elem_of_app in H as [H | H]; [set_solver |].
    apply elem_of_cons in H as [-> | H]; [set_solver |].
    apply elem_of_app. right. eapply elem_of_remove_first; exact H.
Qed.

(** A worker changes what it holds, taking it from the queue or letting it
    go; the store is not written. *)
Lemma consistent_replace_worker reg (h : list task) q tm pre w w' post q' tm' :
  consistent_parts reg h q tm (pre ++ w :: post) ->
  q' ++ tm' ++ worker_refs w' ⊆+ q ++ tm ++ worker_refs w ->
  (forall l, l ∈ q' ++ tm' -> l ∈ q ++ tm) ->
  worker_ok h w' ->
  consistent_parts reg h q' tm' (pre ++ w' :: post).
Proof.
  intros [Hreg Hnd Hq Hw Hh] Hsub Hin Hok. constructor; auto.
  - eapply sublist_NoDup_submseteq; [exact Hnd |].
    unfold refs. rewrite !bind_app, !bind_cons.
    remember (pre ≫= worker_refs) as P. remember (post ≫= worker_refs) as Q.
    assert (H1 : q' ++ tm' ++ P ++ worker_refs w' ++ Q ≡ₚ
                 (q' ++ tm' ++ worker_refs w') ++ P ++ Q) by solve_Permutation.
    assert (H2 : q ++ tm ++ P ++ worker_refs w ++ Q ≡ₚ
                 (q ++ tm ++ worker_refs w) ++ P ++ Q) by solve_Permutation.
    rewrite H1, H2. apply submseteq_skips_r. exact Hsub.
  - intros w0 H0. apply elem_of_app in H0 as [H0 | H0].
    + apply Hw. apply elem_of_app. left. exact H0.
    + apply elem_of_cons in H0 as [-> | H0]; [exact Hok |].
      apply Hw. apply elem_of_app. right. right. exact H0.
Qed.

(** A worker writes the task it refers to, and keeps or drops the
    reference. *)
Lemma consistent_worker_update reg (h : list task) q tm pre w w' post l x' :
  consistent_parts reg h q tm (pre ++ w :: post) ->
  worker_refs w = [l] ->
  worker_refs w' ⊆+ [l] ->
  holder_ok x' ->
  worker_ok (<[l := x']> h) w' ->
  consistent_parts reg (<[l := x']> h) q tm (pre ++ w' :: post).
Proof.
  intros Hc Hl Hsub Hx' Hok.
  assert (Hin : l ∈ worker_refs w) by (rewrite Hl; left).
  destruct (refs_worker_unique q tm pre w post l (refs_NoDup _ _ _ _ _ Hc) Hin)
    as [Hnq Hnw].
  destruct Hc as [Hreg Hnd Hq Hw Hh]. constructor.
  - intros n l1 H. apply is_Some_insert. eauto.
  - eapply sublist_NoDup_submseteq; [exact Hnd |].
    unfold refs. rewrite !bind_app, !bind_cons, Hl.
    do 3 apply submseteq_skips_l. apply submseteq_skips_r. exact Hsub.
  - intros l1 H. apply unstarted_at_insert_ne; [| auto]. intros ->. contradiction.
  - intros w0 H0. apply elem_of_app in H0 as [H0 | H0].
    + apply worker_ok_insert_ne; [apply Hnw; set_solver | apply Hw; set_solver].
    + apply elem_of_cons in H0 as [-> | H0]; [exact Hok |].
      apply worker_ok_insert_ne; [apply Hnw; set_solver | apply Hw; set_solver].
  - intros l1 x1 H. destruct (decide (l1 = l)) as [-> | Hne].
    + apply list_lookup_insert_Some in H as [(_ & -> & _) | (Hne & _)];
        [exact Hx' | congruence].
    + rewrite list_lookup_insert_ne in H by congruence. eauto.
Qed.

Lemma consistent_worker_pop (s : scheduler) i choice :
  consistent s -> consistent (step (WorkerPop i choice) s).
Proof.
  intros Hc. unfold consistent, step, ThreadPool.worker_pop in *. simpl.
  destruct (ThreadPool.workers_ (threadPool_ s) !! i) as [[| l | l |] |] eqn:Hi;
    try exact Hc.
  destruct (workers_split _ _ _ Hi) as (pre & post & Hws & Hins).
  destruct (negb _); [exact Hc |].
  destruct (_ && _).
  - simpl. rewrite Hins. rewrite Hws in Hc.
    eapply consistent_replace_worker; [exact Hc | | auto | exact I]. reflexivity.
  - destruct (ThreadPool.is_top _ _ _) eqn:Htop; [| exact Hc].
    apply andb_true_iff in Htop as [Hin _]. apply bool_decide_eq_true in Hin.
    simpl. rewrite Hins. rewrite Hws in Hc.
    eapply consistent_replace_worker; [exact Hc | | |].
    + pose proof (remove_first_Permutation _ _ Hin) as Hp. simpl.
      set (rest := ThreadPool.remove_first choice _) in *.
      rewrite Hp. apply Permutation_submseteq. solve_Permutation.
    + intros l H. apply elem_of_app in H as [H | H]; apply elem_of_app;
        [left; eapply elem_of_remove_first; exact H | right; exact H].
    + simpl. apply (queued_unstarted _ _ _ _ _ Hc). apply elem_of_app. left. exact Hin.
Qed.

Lemma consistent_worker_begin (s : scheduler) i :
  consistent s -> consistent (worker_begin i s).
Proof.
  intros Hc. unfold worker_begin.
  destruct (ThreadPool.workers_ (threadPool_ s) !! i) as [[| l | l |] |] eqn:Hi;
    try exact Hc.
  destruct (heap s !! l) as [x |] eqn:Hx; [| exact Hc].
  destruct (workers_split _ _ _ Hi) as (pre & post & Hws & Hins).
  unfold consistent in Hc. rewrite Hws in Hc.
  assert (Hhold : holder_ok x) by (eapply holders_ok; eauto).
  destruct (execute_begin_cases x (env s)) as [[Hs ->] | [Hs ->]];
    unfold consistent; simpl; rewrite Hins.
  - eapply consistent_worker_update; [exact Hc | reflexivity | | exact Hhold | exact I].
    apply submseteq_nil_l.
  - eapply consistent_worker_update; [exact Hc | reflexivity | reflexivity | |].
    + assert (Hu : unstarted_at (heap s) l).
      { apply (workers_ok _ _ _ _ _ Hc (Holding l)). set_solver. }
      destruct Hu as (x0 & Hx0 & [Hp | Hp]); rewrite Hx in Hx0; inversion Hx0; subst;
        [| contradiction].
      unfold holder_ok in *. rewrite Hp in Hhold. exact Hhold.
    + simpl. exists (Task.set_status RUNNING x). split; [| reflexivity].
      apply list_lookup_insert_eq. apply lookup_lt_Some with (x := x). exact Hx.
Qed.

Lemma consistent_worker_finish (s : scheduler) i :
  consistent s -> consistent (worker_finish i s).
Proof.
  intros Hc. unfold worker_finish.
  destruct (ThreadPool.workers_ (threadPool_ s) !! i) as [[| l | l |] |] eqn:Hi;
    try exact Hc.
  destruct (heap s !! l) as [x |] eqn:Hx; [| exact Hc].
  destruct (workers_split _ _ _ Hi) as (pre & post & Hws & Hins).
  unfold consistent in Hc. rewrite Hws in Hc.
  assert (Hhold : holder_ok x) by (eapply holders_ok; eauto).
  assert (Hrun : Task.status_ x = RUNNING).
  { destruct (workers_ok _ _ _ _ _ Hc (Executing l)) as (x0 & Hx0 & Hr); [set_solver |].
    congruence. }
  unfold holder_ok in Hhold. rewrite Hrun in Hhold. destruct Hhold as [Hres Hexn].
  pose proof (execute_body_cases x (env s)) as Hb. cbv zeta in Hb.
  destruct (fst (Task.function_ x (world (env s)))) as [v | ex |];
    rewrite Hb; unfold consistent; simpl; rewrite Hins;
    (eapply consistent_worker_update;
       [exact Hc | reflexivity | apply submseteq_nil_l | | exact I]).
  - unfold holder_ok. simpl. destruct (Task.ResultType x); simpl; [congruence | eauto].
  - unfold holder_ok. simpl. exact Hres.
  - unfold holder_ok. rewrite Hrun. auto.
Qed.

Lemma getTaskStatus_unchanged (s : scheduler) name : snd (getTaskStatus name s) = s.
Proof.
  rewrite getTaskStatus_cases. destruct (tasks_ s !! name) as [l |]; [| reflexivity].
  destruct (heap s !! l); reflexivity.
Qed.

Lemma consistent_step (ev : event World value) (s : scheduler) :
  consistent s -> consistent (step ev s).
Proof.
  intros Hc. destruct ev.
  - apply consistent_scheduleTask. exact Hc.
  - apply consistent_cancelTask. exact Hc.
  - simpl. rewrite getTaskStatus_unchanged. exact Hc.
  - apply consistent_cleanup. exact Hc.
  - apply consistent_timer_fire. exact Hc.
  - apply consistent_worker_pop. exact Hc.
  - apply consistent_worker_begin. exact Hc.
  - apply consistent_worker_finish. exact Hc.
  - exact Hc.
Qed.

Lemma consistent_run (evs : list (event World value)) (s : scheduler) :
  consistent s -> consistent (run evs s).
Proof.
  revert s. induction evs as [| ev evs IH]; intros s Hc; [exact Hc |].
  simpl. apply IH. apply consistent_step. exact Hc.
Qed.

Lemma reachable_consistent (s : scheduler) : reachable s -> consistent s.
Proof.
  intros (n & e & evs & ->). apply consistent_run. apply consistent_new.
Qed.

Lemma run_app (evs1 evs2 : list (event World value)) (s : scheduler) :
  run (evs1 ++ evs2) s = run evs2 (run evs1 s).
Proof.
  revert s. induction evs1 as [| ev evs1 IH]; intros s; [reflexivity |].
  simpl. apply IH.
Qed.

Lemma reachable_run (evs : list (event World value)) (s : scheduler) :
  reachable s -> reachable (run evs s).
Proof.
  intros (n & e & evs0 & ->). exists n, e, (evs0 ++ evs). symmetry. apply run_app.
Qed.

End Consistency.

(** ** How a step changes a task *)

Section Steps.
Context {World value : Type}.
Abbreviation task := (Task.t World value).
Abbreviation scheduler := (TaskScheduler.t World value).

Lemma evolves_refl (x : task) : evolves x x.
Proof. repeat split; auto. Qed.

Lemma evolves_cancel (x : task) (e : Env World) :
  evolves x (fst (snd (Task.cancel (x, e)))).
Proof.
  rewrite cancel_cases. simpl.
  destruct (Task.cancellable_ x && bool_decide (Task.status_ x = PENDING));
    [| apply evolves_refl].
  repeat split; simpl; auto. discriminate.
Qed.

Lemma evolves_execute_begin (x : task) (e : Env World) :
  evolves x (fst (snd (Task.execute_begin (x, e)))).
Proof.
  destruct (execute_begin_cases x e) as [[_ ->] | [_ ->]]; simpl;
    [apply evolves_refl |].
  repeat split; simpl; auto. discriminate.
Qed.

Lemma evolves_execute_body (x : task) (e : Env World) :
  evolves x (fst (snd (Task.execute_body (x, e)))).
Proof.
  pose proof (execute_body_cases x e) as Hb. cbv zeta in Hb.
  destruct (fst (Task.function_ x (world e))); rewrite Hb; simpl;
    [| | apply evolves_refl]; repeat split; simpl; auto; discriminate.
Qed.

(** A step leaves the store as it is, allocates one task at its end, or
    writes one task; and a task whose status is terminal is written back
    with that status. *)
Lemma step_heap_cases (ev : event World value) (s : scheduler) :
  heap (step ev s) = heap s \/
  (exists y, heap (step ev s) = heap s ++ [y]) \/
  (exists l0 x0 x0', heap s !! l0 = Some x0 /\
      heap (step ev s) = <[l0 := x0']> (heap s) /\ evolves x0 x0' /\
      (consistent s -> terminal (Task.status_ x0) = true ->
       Task.status_ x0' = Task.status_ x0)).
Proof.
  destruct ev; simpl.
  - rewrite scheduleTask_cases. destruct (tasks_ s !! name); [left; reflexivity |].
    right. left. eexists. cbv zeta. case_bool_decide;
      [destruct (ThreadPool.stop_ (threadPool_ s)) |]; reflexivity.
  - rewrite cancelTask_cases. destruct (tasks_ s !! name) as [l0 |]; [| left; reflexivity].
    destruct (heap s !! l0) as [x |] eqn:Hx; [| left; reflexivity].
    destruct (Task.cancellable_ x && bool_decide (Task.status_ x = PENDING)) eqn:Hg;
      [| left; reflexivity].
    right. right. exists l0, x. eexists. split; [exact Hx |]. split; [reflexivity |].
    pose proof (evolves_cancel x (env s)) as He. rewrite cancel_cases, Hg in He.
    split; [exact He |].
    apply andb_true_iff in Hg as [_ Hp]. apply bool_decide_eq_true in Hp.
    rewrite Hp. discriminate.
  - rewrite getTaskStatus_unchanged. left. reflexivity.
  - left. reflexivity.
  - rewrite timer_fire_cases. left. case_bool_decide; [| reflexivity].
    cbv zeta. destruct (ThreadPool.stop_ (threadPool_ s)); reflexivity.
  - left. reflexivity.
  - unfold worker_begin.
    destruct (ThreadPool.workers_ (threadPool_ s) !! i) as [[| l | l |] |] eqn:Hi;
      try (left; reflexivity).
    destruct (heap s !! l) as [x |] eqn:Hx; [| left; reflexivity].
    right. right. exists l, x, (fst (snd (Task.execute_begin (x, env s)))).
    split; [exact Hx |]. split; [| split; [apply evolves_execute_begin |]].
    + destruct (Task.execute_begin (x, env s)) as [[[|] | |] [x' e']]; reflexivity.
    + intros Hc.
      destruct (execute_begin_cases x (env s)) as [[_ ->] | [Hs ->]]; [reflexivity |].
      apply list_elem_of_lookup_2 in Hi.
      destruct (workers_ok _ _ _ _ _ Hc _ Hi) as (x0 & Hx0 & [Hp | Hp]);
        rewrite Hx in Hx0; inversion Hx0; subst; [| contradiction].
      rewrite Hp. discriminate.
  - unfold worker_finish.
    destruct (ThreadPool.workers_ (threadPool_ s) !! i) as [[| l | l |] |] eqn:Hi;
      try (left; reflexivity).
    destruct (heap s !! l) as [x |] eqn:Hx; [| left; reflexivity].
    right. right. exists l, x, (fst (snd (Task.execute_body (x, env s)))).
    split; [exact Hx |]. split; [| split; [apply evolves_execute_body |]].
    + destruct (Task.execute_body (x, env s)) as [o [x' e']]; reflexivity.
    + intros Hc. apply list_elem_of_lookup_2 in Hi.
      destruct (workers_ok _ _ _ _ _ Hc _ Hi) as (x0 & Hx0 & Hr).
      assert (x0 = x) by congruence. subst. rewrite Hr. discriminate.
  - left. reflexivity.
Qed.

(** A task stays where it is, with the constructor's arguments; a terminal
    status stays; and no step makes a task [PENDING]. *)
Lemma step_task (ev : event World value) (s : scheduler) l x :
  heap s !! l = Some x ->
  exists x', heap (step ev s) !! l = Some x' /\ evolves x x' /\
    (consistent s -> terminal (Task.status_ x) = true ->
     Task.status_ x' = Task.status_ x).
Proof.
  intros Hx.
  destruct (step_heap_cases ev s) as [-> | [[y ->] | (l0 & x0 & x0' & H0 & -> & He & Ht)]].
  - exists x. split; [exact Hx |]. split; [apply evolves_refl | auto].
  - exists x. split; [apply lookup_app_l_Some; exact Hx |].
    split; [apply evolves_refl | auto].
  - destruct (decide (l = l0)) as [-> | Hne].
    + rewrite Hx in H0. inversion H0; subst. exists x0'. split; [| auto].
      apply list_lookup_insert_eq. apply lookup_lt_Some with (x := x0). exact Hx.
    + exists x. rewrite list_lookup_insert_ne by congruence.
      split; [exact Hx |]. split; [apply evolves_refl | auto].
Qed.

Lemma evolves_trans (x y z : task) : evolves x y -> evolves y z -> evolves x z.
Proof.
  intros [(A1 & A2 & A3 & A4 & A5 & A6) Ap] [(B1 & B2 & B3 & B4 & B5 & B6) Bp].
  repeat split; try congruence. auto.
Qed.

Lemma run_task (evs : list (event World value)) (s : scheduler) l x :
  heap s !! l = Some x ->
  exists x', heap (run evs s) !! l = Some x' /\ evolves x x' /\
    (consistent s -> terminal (Task.status_ x) = true ->
     Task.status_ x' = Task.status_ x).
Proof.
  revert s x. induction evs as [| ev evs IH]; intros s x Hx.
  - exists x. split; [exact Hx |]. split; [apply evolves_refl | auto].
  - destruct (step_task ev s l x Hx) as (x1 & Hx1 & He1 & Ht1).
    destruct (IH (step ev s) x1 Hx1) as (x2 & Hx2 & He2 & Ht2).
    exists x2. split; [exact Hx2 |]. split; [eapply evolves_trans; eauto |].
    intros Hc Ht. rewrite Ht2; [auto | apply consistent_step; exact Hc |].
    rewrite Ht1; auto.
Qed.

End Steps.

(** ** Cancelled and terminal tasks, results, statistics *)

Section Claims.
Context {World value : Type}.
Abbreviation task := (Task.t World value).
Abbreviation scheduler := (TaskScheduler.t World value).

(** *** C6 *)


(** *** C7 *)

(** C7, amended. For a task whose status is [COMPLETED], [FAILED] or
    [CANCELLED]: [cancel] leaves the status; [cancelTask] on a scheduler
    that holds the task leaves the status; [execute] leaves a [CANCELLED]
    task as it is. On a [COMPLETED] or [FAILED] task [execute] invokes the
    callable again and sets the status from the new outcome. *)
Theorem terminal_status_is_kept (x : task) (e : Env World) :
  terminal (Task.status_ x) = true ->
  Task.status_ (fst (snd (Task.cancel (x, e)))) = Task.status_ x /\
  (Task.status_ x = CANCELLED -> Task.execute (x, e) = (Returned tt, (x, e))) /\
  (forall (s : scheduler) l, heap s !! l = Some x ->
     forall name, status_at (snd (cancelTask name s)) l = Some (Task.status_ x)) /\
  (Task.status_ x <> CANCELLED ->
   invocations (snd (snd (Task.execute (x, e)))) = invocations e ++ [Task.name_ x] /\
   match fst (Task.function_ x (world e)) with
   | Returned _ => Task.status_ (fst (snd (Task.execute (x, e)))) = COMPLETED
   | Raised _ => Task.status_ (fst (snd (Task.execute (x, e)))) = FAILED
   | Undefined => True
   end).
Proof.
  intros Ht. split; [| split; [| split]].
  - rewrite cancel_cases. simpl.
    destruct (Task.cancellable_ x && bool_decide (Task.status_ x = PENDING)) eqn:Hg;
      [| reflexivity].
    apply andb_true_iff in Hg as [_ Hp]. apply bool_decide_eq_true in Hp.
    rewrite Hp in Ht. discriminate.
  - apply execute_CANCELLED.
  - intros s l Hx name. unfold status_at. rewrite cancelTask_cases.
    destruct (tasks_ s !! name) as [l0 |]; [| cbn [snd]; rewrite Hx; reflexivity].
    destruct (heap s !! l0) as [x0 |] eqn:Hx0; [| cbn [snd]; rewrite Hx; reflexivity].
    destruct (Task.cancellable_ x0 && bool_decide (Task.status_ x0 = PENDING)) eqn:Hg;
      [| cbn [snd]; rewrite Hx; reflexivity].
    apply andb_true_iff in Hg as [_ Hp]. apply bool_decide_eq_true in Hp.
    assert (Hne : l0 <> l).
    { intros ->. rewrite Hx in Hx0. inversion Hx0; subst. rewrite Hp in Ht. discriminate. }
    unfold set_stats, set_heap. cbn [snd heap].
    rewrite list_lookup_insert_ne by exact Hne. rewrite Hx. reflexivity.
  - intros Hn. rewrite execute_unfold, bool_decide_eq_false_2 by exact Hn.
    pose proof (execute_body_cases (Task.set_status RUNNING x) e) as Hb.
    cbv zeta in Hb. simpl in Hb.
    destruct (Task.function_ x (world e)) as [[v | E |] w]; simpl in Hb; rewrite Hb;
      simpl; split; auto.
Qed.

(** *** C8 *)

(** [getTaskStatus] never changes a counter: what [getStatistics] reports is
    the same before and after the call. *)
Lemma getTaskStatus_keeps_statistics (s : scheduler) name :
  getStatistics (snd (getTaskStatus name s)) = getStatistics s.
Proof. rewrite getTaskStatus_unchanged. reflexivity. Qed.

(** *** C10 *)

(** A [COMPLETED] task of a value type stores a value, however often
    [execute] and [cancel] were called. *)
Lemma lifecycle_COMPLETED_value (x : task) :
  lifecycle x -> Task.status_ x = COMPLETED -> Task.ResultType x <> void ->
  is_Some (TaskResult.result_ (Task.result_ x)).
Proof.
  induction 1 as [| x e Hx IH | x e Hx IH].
  - discriminate.
  - rewrite execute_unfold. case_bool_decide as Hc.
    + simpl. exact IH.
    + pose proof (execute_body_cases (Task.set_status RUNNING x) e) as Hb.
      simpl in Hb. destruct (fst (Task.function_ x (world e))); rewrite Hb; simpl;
        try discriminate.
      intros _ HR. destruct (Task.ResultType x); [contradiction | eauto].
  - rewrite cancel_cases. simpl.
    destruct (Task.cancellable_ x && bool_decide (Task.status_ x = PENDING)).
    + simpl. discriminate.
    + exact IH.
Qed.


End Claims.

(** ** The order of service *)

Section Ordering.
Context {World value : Type}.
Abbreviation task := (Task.t World value).
Abbreviation scheduler := (TaskScheduler.t World value).

(** [TaskComparator] puts a task behind every task that [precedes] it. *)
Lemma TaskComparator_precedes (a b : task) : precedes a b -> TaskComparator b a = true.
Proof.
  unfold precedes, TaskComparator, Task.getPriority, Task.getScheduledTime.
  intros [H | [Hp Ht]]; [| rewrite Hp]; case_bool_decide; lia.
Qed.

(** [TaskComparator] is a strict weak ordering. *)
Lemma TaskComparator_irrefl (a : task) : TaskComparator a a = false.
Proof.
  unfold TaskComparator. case_bool_decide; [contradiction |].
  rewrite Z.gtb_ltb. apply Z.ltb_irrefl.
Qed.

Lemma TaskComparator_asym (a b : task) :
  TaskComparator a b = true -> TaskComparator b a = false.
Proof.
  unfold TaskComparator. repeat case_bool_decide; rewrite ?Z.gtb_ltb;
    rewrite ?Z.ltb_lt, ?Z.ltb_ge; try lia.
Qed.

Lemma TaskComparator_negtrans (a b c : task) :
  TaskComparator a b = false -> TaskComparator b c = false -> TaskComparator a c = false.
Proof.
  unfold TaskComparator. repeat case_bool_decide; rewrite ?Z.gtb_ltb;
    rewrite ?Z.ltb_lt, ?Z.ltb_ge; try lia.
Qed.

Lemma comp_irrefl (s : scheduler) a : comp s a a = false.
Proof. unfold comp. destruct (heap s !! a); [apply TaskComparator_irrefl | reflexivity]. Qed.

Lemma comp_asym (s : scheduler) a b : comp s a b = true -> comp s b a = false.
Proof.
  unfold comp. destruct (heap s !! a), (heap s !! b); try discriminate.
  apply TaskComparator_asym.
Qed.

Lemma comp_negtrans (s : scheduler) a b c :
  is_Some (heap s !! b) ->
  comp s a b = false -> comp s b c = false -> comp s a c = false.
Proof.
  unfold comp. intros [y Hy]. rewrite Hy.
  destruct (heap s !! a), (heap s !! c); try reflexivity.
  apply TaskComparator_negtrans.
Qed.

(** [ThreadPool.max_from] returns an element that nothing in the list
    beats. *)
Lemma max_from_spec (s : scheduler) best q :
  is_Some (heap s !! best) -> Forall (fun l => is_Some (heap s !! l)) q ->
  let m := ThreadPool.max_from (comp s) best q in
  m ∈ best :: q /\ comp s m best = false /\ forall y, y ∈ q -> comp s m y = false.
Proof.
  revert best. induction q as [| x q IH]; intros best Hb Hq; simpl.
  - split; [left |]. split; [apply comp_irrefl |]. intros y Hy. inversion Hy.
  - apply Forall_cons in Hq as [Hx Hq].
    destruct (comp s best x) eqn:Hbx.
    + destruct (IH x Hx Hq) as (Hin & Hmx & Hrest).
      split; [right; exact Hin |]. split.
      * apply comp_negtrans with (b := x); [exact Hx | exact Hmx |].
        apply comp_asym. exact Hbx.
      * intros y Hy. apply elem_of_cons in Hy as [-> | Hy]; auto.
    + destruct (IH best Hb Hq) as (Hin & Hmb & Hrest).
      split; [| split; [exact Hmb |]].
      * apply elem_of_cons in Hin as [-> | Hin]; [left | right; right; exact Hin].
      * intros y Hy. apply elem_of_cons in Hy as [-> | Hy]; [| auto].
        apply comp_negtrans with (b := best); assumption.
Qed.

(** On a queue of existing tasks, [ThreadPool.top] meets the contract of
    [std::priority_queue]. *)
Lemma top_is_top (s : scheduler) q t :
  Forall (fun l => is_Some (heap s !! l)) q ->
  ThreadPool.top (comp s) q = Some t -> ThreadPool.is_top (comp s) q t = true.
Proof.
  destruct q as [| x q]; [discriminate |]. intros Hq Ht. inversion Ht; subst; clear Ht.
  apply Forall_cons in Hq as [Hx Hq].
  destruct (max_from_spec s x q Hx Hq) as (Hin & Hmx & Hrest).
  unfold ThreadPool.is_top. apply andb_true_iff. split.
  - apply bool_decide_eq_true. exact Hin.
  - apply forallb_forall. intros y Hy. apply list_elem_of_In in Hy.
    apply negb_true_iff. apply elem_of_cons in Hy as [-> | Hy]; auto.
Qed.

(** What is dequeued is the queue's top. *)
Lemma dequeued_Some (ev : event World value) (s : scheduler) t :
  dequeued ev s = Some t ->
  exists i, ev = WorkerPop i t /\
    ThreadPool.workers_ (threadPool_ s) !! i = Some Waiting /\
    ThreadPool.is_top (comp s) (ThreadPool.tasks_ (threadPool_ s)) t = true.
Proof.
  destruct ev; try discriminate. simpl. unfold ThreadPool.popped_by.
  destruct (ThreadPool.workers_ (threadPool_ s) !! i) as [[| | |] |] eqn:Hi;
    try discriminate.
  destruct (negb _); [| discriminate]. simpl.
  destruct (ThreadPool.is_top _ _ _) eqn:Htop; [| discriminate].
  intros H. inversion H; subst. exists i. repeat split; assumption.
Qed.

(** The step of a worker that pops [t]. *)
Lemma step_WorkerPop (s : scheduler) i t :
  ThreadPool.workers_ (threadPool_ s) !! i = Some Waiting ->
  ThreadPool.is_top (comp s) (ThreadPool.tasks_ (threadPool_ s)) t = true ->
  step (WorkerPop i t) s =
    set_threadPool
      (ThreadPool.set_workers (<[i := Holding t]> (ThreadPool.workers_ (threadPool_ s)))
         (ThreadPool.set_tasks (ThreadPool.remove_first t (ThreadPool.tasks_ (threadPool_ s)))
            (threadPool_ s))) s /\
  dequeued (WorkerPop i t) s = Some t.
Proof.
  intros Hi Htop. simpl. unfold ThreadPool.worker_pop, ThreadPool.popped_by.
  rewrite Hi, Htop.
  assert (Hne : ThreadPool.tasks_ (threadPool_ s) <> []).
  { intros He. rewrite He in Htop. discriminate. }
  rewrite bool_decide_eq_false_2 by exact Hne.
  rewrite orb_true_r, andb_false_r. simpl. split; reflexivity.
Qed.

(** A queued task stays queued until it is dequeued. *)
Lemma queue_kept (ev : event World value) (s : scheduler) a :
  a ∈ ThreadPool.tasks_ (threadPool_ s) -> dequeued ev s <> Some a ->
  a ∈ ThreadPool.tasks_ (threadPool_ (step ev s)).
Proof.
  intros Ha Hd. destruct ev; simpl in *.
  - rewrite scheduleTask_cases. destruct (tasks_ s !! name); [exact Ha |].
    cbv zeta. case_bool_decide; [destruct (ThreadPool.stop_ (threadPool_ s)) |];
      simpl; try exact Ha. apply elem_of_app. left. exact Ha.
  - rewrite cancelTask_cases. destruct (tasks_ s !! name) as [l0 |]; [| exact Ha].
    destruct (heap s !! l0) as [x |]; [| exact Ha].
    destruct (_ && _); exact Ha.
  - rewrite getTaskStatus_unchanged. exact Ha.
  - exact Ha.
  - rewrite timer_fire_cases. case_bool_decide; [| exact Ha].
    cbv zeta. destruct (ThreadPool.stop_ (threadPool_ s)); simpl; [exact Ha |].
    apply elem_of_app. left. exact Ha.
  - unfold ThreadPool.worker_pop, ThreadPool.popped_by in *.
    destruct (ThreadPool.workers_ (threadPool_ s) !! i) as [[| | |] |]; try exact Ha.
    destruct (negb (_ || _)); [exact Ha |].
    destruct (_ && bool_decide _); [exact Ha |].
    destruct (ThreadPool.is_top _ _ _) eqn:Htop; [| exact Ha].
    simpl. apply elem_of_remove_first_ne; [exact Ha |].
    intros ->. apply Hd.
    rewrite bool_decide_eq_false_2; [reflexivity |].
    intros He. rewrite He in Ha. inversion Ha.
  - unfold worker_begin.
    destruct (ThreadPool.workers_ (threadPool_ s) !! i) as [[| l | l |] |]; try exact Ha.
    destruct (heap s !! l) as [x |]; [| exact Ha].
    destruct (Task.execute_begin (x, env s)) as [[[|] | |] [x' e']]; exact Ha.
  - unfold worker_finish.
    destruct (ThreadPool.workers_ (threadPool_ s) !! i) as [[| l | l |] |]; try exact Ha.
    destruct (heap s !! l) as [x |]; [| exact Ha].
    destruct (Task.execute_body (x, env s)) as [o [x' e']]; exact Ha.
  - exact Ha.
Qed.

Lemma precedes_evolves (a a' b b' : task) :
  evolves a a' -> evolves b b' -> precedes a b -> precedes a' b'.
Proof.
  intros [(_ & _ & Ap & At & _) _] [(_ & _ & Bp & Bt & _) _].
  unfold precedes. rewrite Ap, At, Bp, Bt. auto.
Qed.

Lemma precedes_irrefl (a : task) : ~ precedes a a.
Proof. unfold precedes. intros [H | [_ H]]; lia. Qed.

(** *** C1 *)

(** C1. Let tasks [a] and [b] both be in the ready queue, [a] with the
    higher priority, or with the same priority and the earlier scheduled
    time. Then, whatever the threads do next, [b] is not dequeued until [a]
    has been: in the order of dequeuing, every occurrence of [b] has [a]
    before it. *)
Theorem preceding_task_dequeued_first (evs : list (event World value)) (s : scheduler)
    (a b : loc) (xa xb : task) :
  a ∈ ThreadPool.tasks_ (threadPool_ s) ->
  b ∈ ThreadPool.tasks_ (threadPool_ s) ->
  heap s !! a = Some xa -> heap s !! b = Some xb ->
  precedes xa xb ->
  forall before after, dequeue_order evs s = before ++ b :: after -> a ∈ before.
Proof.
  intros Ha _. revert s xa xb Ha.
  induction evs as [| ev evs IH]; intros s xa xb Ha Hxa Hxb Hp before after Hd.
  - destruct before; discriminate.
  - simpl in Hd.
    destruct (step_task ev s a xa Hxa) as (xa' & Hxa' & Hea & _).
    destruct (step_task ev s b xb Hxb) as (xb' & Hxb' & Heb & _).
    pose proof (precedes_evolves _ _ _ _ Hea Heb Hp) as Hp'.
    destruct (dequeued ev s) as [t |] eqn:Ht.
    + destruct (dequeued_Some ev s t Ht) as (i & -> & Hi & Htop).
      destruct (decide (t = a)) as [-> | Hta].
      * destruct before as [| c before]; simpl in Hd; inversion Hd; subst.
        -- exfalso. rewrite Hxa in Hxb. inversion Hxb; subst.
           exact (precedes_irrefl _ Hp).
        -- left.
      * assert (Htb : t <> b).
        { intros ->. apply andb_true_iff in Htop as [_ Hall].
          rewrite forallb_forall in Hall. apply list_elem_of_In in Ha.
          specialize (Hall a Ha). apply negb_true_iff in Hall.
          unfold comp in Hall. rewrite Hxa, Hxb in Hall.
          rewrite TaskComparator_precedes in Hall by exact Hp. discriminate. }
        destruct before as [| c before]; simpl in Hd; inversion Hd; subst;
          [contradiction |].
        right. eapply IH; [| exact Hxa' | exact Hxb' | exact Hp' | eassumption].
        apply queue_kept; [exact Ha |]. rewrite Ht. congruence.
    + eapply IH; [| exact Hxa' | exact Hxb' | exact Hp' | exact Hd].
      apply queue_kept; [exact Ha |]. rewrite Ht. discriminate.
Qed.

End Ordering.

(** ** Shutdown *)

Section Shutdown.
Context {World value : Type}.
Abbreviation task := (Task.t World value).
Abbreviation scheduler := (TaskScheduler.t World value).

Lemma dequeue_order_app (evs1 evs2 : list (event World value)) (s : scheduler) :
  dequeue_order (evs1 ++ evs2) s = dequeue_order evs1 s ++ dequeue_order evs2 (run evs1 s).
Proof.
  revert s. induction evs1 as [| ev evs1 IH]; intros s; [reflexivity |].
  simpl. destruct (dequeued ev s); rewrite IH; reflexivity.
Qed.

(** A worker that holds a task enters [execute]: a cancelled task sends it
    back to wait, any other task becomes [RUNNING]. *)
Lemma worker_begin_Holding (s : scheduler) i t x :
  ThreadPool.workers_ (threadPool_ s) !! i = Some (Holding t) ->
  heap s !! t = Some x ->
  let s' := worker_begin i s in
  ThreadPool.tasks_ (threadPool_ s') = ThreadPool.tasks_ (threadPool_ s) /\
  ThreadPool.stop_ (threadPool_ s') = ThreadPool.stop_ (threadPool_ s) /\
  ((Task.status_ x = CANCELLED /\
    ThreadPool.workers_ (threadPool_ s') = <[i := Waiting]> (ThreadPool.workers_ (threadPool_ s)) /\
    heap s' !! t = Some x) \/
   (Task.status_ x <> CANCELLED /\
    ThreadPool.workers_ (threadPool_ s') = <[i := Executing t]> (ThreadPool.workers_ (threadPool_ s)) /\
    heap s' !! t = Some (Task.set_status RUNNING x))).
Proof.
  intros Hi Hx. unfold worker_begin. rewrite Hi, Hx.
  assert (Hlt : (t < length (heap s))%nat) by (apply lookup_lt_Some with (x := x); exact Hx).
  destruct (execute_begin_cases x (env s)) as [[Hs ->] | [Hs ->]]; simpl;
    (split; [reflexivity |]); (split; [reflexivity |]); [left | right];
    (split; [exact Hs |]); (split; [reflexivity |]);
    apply list_lookup_insert_eq; exact Hlt.
Qed.

(** A worker inside [execute] finishes it: the task is no longer
    [PENDING], and the worker goes back to wait. *)
Lemma worker_finish_Executing (s : scheduler) i t x :
  ThreadPool.workers_ (threadPool_ s) !! i = Some (Executing t) ->
  heap s !! t = Some x -> Task.status_ x = RUNNING ->
  let s' := worker_finish i s in
  ThreadPool.tasks_ (threadPool_ s') = ThreadPool.tasks_ (threadPool_ s) /\
  ThreadPool.stop_ (threadPool_ s') = ThreadPool.stop_ (threadPool_ s) /\
  ThreadPool.workers_ (threadPool_ s') = <[i := Waiting]> (ThreadPool.workers_ (threadPool_ s)) /\
  exists x', heap s' !! t = Some x' /\ Task.status_ x' <> PENDING.
Proof.
  intros Hi Hx Hr. unfold worker_finish. rewrite Hi, Hx.
  assert (Hlt : (t < length (heap s))%nat) by (apply lookup_lt_Some with (x := x); exact Hx).
  pose proof (execute_body_cases x (env s)) as Hb. cbv zeta in Hb.
  destruct (fst (Task.function_ x (world (env s)))); rewrite Hb; simpl;
    (split; [reflexivity |]); (split; [reflexivity |]); (split; [reflexivity |]);
    eexists; (split; [apply list_lookup_insert_eq; exact Hlt |]);
    simpl; rewrite ?Hr; discriminate.
Qed.

Lemma worker_finish_Waiting (s : scheduler) i :
  ThreadPool.workers_ (threadPool_ s) !! i = Some Waiting -> worker_finish i s = s.
Proof. intros Hi. unfold worker_finish. rewrite Hi. reflexivity. Qed.

Lemma queued_allocated (s : scheduler) :
  consistent s ->
  Forall (fun l => is_Some (heap s !! l)) (ThreadPool.tasks_ (threadPool_ s)).
Proof.
  intros Hc. apply Forall_forall. intros l Hl.
  destruct (queued_unstarted _ _ _ _ _ Hc l) as (x & Hx & _); [| eauto].
  apply elem_of_app. left. exact Hl.
Qed.

(** One turn of a worker's loop on a stopped or running pool: the top task
    is dequeued and [execute] is called on it. *)
Lemma worker_turn (s : scheduler) i t :
  consistent s ->
  ThreadPool.workers_ (threadPool_ s) !! i = Some Waiting ->
  ThreadPool.is_top (comp s) (ThreadPool.tasks_ (threadPool_ s)) t = true ->
  let evs := [WorkerPop i t; WorkerBegin i; WorkerFinish i] in
  let s' := run evs s in
  dequeue_order evs s = [t] /\
  ThreadPool.workers_ (threadPool_ s') !! i = Some Waiting /\
  ThreadPool.tasks_ (threadPool_ s') =
    ThreadPool.remove_first t (ThreadPool.tasks_ (threadPool_ s)) /\
  ThreadPool.stop_ (threadPool_ s') = ThreadPool.stop_ (threadPool_ s) /\
  exists x, heap s' !! t = Some x /\ Task.status_ x <> PENDING.
Proof.
  intros Hc Hi Htop evs s'. subst evs s'.
  destruct (step_WorkerPop s i t Hi Htop) as [Hs1 Hd1].
  assert (Hlen : (i < length (ThreadPool.workers_ (threadPool_ s)))%nat)
    by (apply lookup_lt_Some with (x := Waiting); exact Hi).
  assert (Hin : t ∈ ThreadPool.tasks_ (threadPool_ s)).
  { apply andb_true_iff in Htop as [Hin _]. apply bool_decide_eq_true in Hin. exact Hin. }
  destruct (queued_unstarted _ _ _ _ _ Hc t) as (x & Hx & Hu);
    [apply elem_of_app; left; exact Hin |].
  cbn [run dequeue_order]. rewrite Hd1.
  remember (step (WorkerPop i t) s) as s1 eqn:E1. rewrite Hs1 in E1.
  cbn [dequeued step].
  assert (Hw1 : ThreadPool.workers_ (threadPool_ s1) =
                <[i := Holding t]> (ThreadPool.workers_ (threadPool_ s))) by (subst; reflexivity).
  assert (Hq1 : ThreadPool.tasks_ (threadPool_ s1) =
                ThreadPool.remove_first t (ThreadPool.tasks_ (threadPool_ s))) by (subst; reflexivity).
  assert (Hst1 : ThreadPool.stop_ (threadPool_ s1) = ThreadPool.stop_ (threadPool_ s))
    by (subst; reflexivity).
  assert (Hh1 : heap s1 = heap s) by (subst; reflexivity).
  clear E1 Hs1.
  assert (Hi1 : ThreadPool.workers_ (threadPool_ s1) !! i = Some (Holding t)).
  { rewrite Hw1. apply list_lookup_insert_eq. exact Hlen. }
  rewrite <- Hh1 in Hx.
  destruct (worker_begin_Holding s1 i t x Hi1 Hx) as (Hq2 & Hst2 & Hcase).
  split; [reflexivity |].
  destruct Hcase as [(Hs & Hw2 & Hx2) | (Hs & Hw2 & Hx2)].
  - assert (Hi2 : ThreadPool.workers_ (threadPool_ (worker_begin i s1)) !! i = Some Waiting).
    { rewrite Hw2. apply list_lookup_insert_eq. rewrite Hw1, length_insert. exact Hlen. }
    rewrite (worker_finish_Waiting _ _ Hi2).
    split; [exact Hi2 |]. split; [congruence |]. split; [congruence |].
    exists x. split; [exact Hx2 |]. rewrite Hs. discriminate.
  - assert (Hi2 : ThreadPool.workers_ (threadPool_ (worker_begin i s1)) !! i =
                  Some (Executing t)).
    { rewrite Hw2. apply list_lookup_insert_eq. rewrite Hw1, length_insert. exact Hlen. }
    destruct (worker_finish_Executing _ i t _ Hi2 Hx2 eq_refl) as (Hq3 & Hst3 & Hw3 & Hx3).
    split.
    { rewrite Hw3. apply list_lookup_insert_eq.
      rewrite Hw2, length_insert, Hw1, length_insert. exact Hlen. }
    split; [congruence |]. split; [congruence |]. exact Hx3.
Qed.

(** On a stopped pool a waiting worker returns exactly when the queue is
    empty. *)
Lemma worker_exits_iff_empty (s : scheduler) i choice :
  ThreadPool.stop_ (threadPool_ s) = true ->
  ThreadPool.workers_ (threadPool_ s) !! i = Some Waiting ->
  ThreadPool.workers_ (threadPool_ (step (WorkerPop i choice) s)) !! i = Some Exited <->
  ThreadPool.tasks_ (threadPool_ s) = [].
Proof.
  intros Hstop Hi. simpl. unfold ThreadPool.worker_pop. rewrite Hi, Hstop. simpl.
  assert (Hlen : (i < length (ThreadPool.workers_ (threadPool_ s)))%nat)
    by (apply lookup_lt_Some with (x := Waiting); exact Hi).
  case_bool_decide as Hq; simpl.
  - split; [auto |]. intros _. apply list_lookup_insert_eq. exact Hlen.
  - split; [| contradiction].
    destruct (ThreadPool.is_top _ _ _); simpl.
    + rewrite list_lookup_insert_eq by exact Hlen. discriminate.
    + rewrite Hi. discriminate.
Qed.

(** A worker's loop on a stopped pool empties the queue before it returns. *)
Lemma worker_loop_drains (fuel : nat) (i : nat) (s : scheduler) :
  consistent s ->
  ThreadPool.stop_ (threadPool_ s) = true ->
  ThreadPool.workers_ (threadPool_ s) !! i = Some Waiting ->
  (length (ThreadPool.tasks_ (threadPool_ s)) < fuel)%nat ->
  let evs := worker_loop fuel i s in
  let s' := run evs s in
  ThreadPool.workers_ (threadPool_ s') !! i = Some Exited /\
  ThreadPool.tasks_ (threadPool_ s') = [] /\
  dequeue_order evs s ≡ₚ ThreadPool.tasks_ (threadPool_ s) /\
  forall l, l ∈ ThreadPool.tasks_ (threadPool_ s) ->
    exists x, heap s' !! l = Some x /\ Task.status_ x <> PENDING.
Proof.
  revert s. induction fuel as [| fuel IH]; intros s Hc Hstop Hi Hlen; [lia |].
  cbn [worker_loop].
  destruct (ThreadPool.top (comp s) (ThreadPool.tasks_ (threadPool_ s))) as [t |] eqn:Ht.
  - apply top_is_top in Ht; [| apply queued_allocated; exact Hc].
    destruct (worker_turn s i t Hc Hi Ht) as (Hd & Hi3 & Hq3 & Hst3 & x3 & Hx3 & Hs3).
    set (turn := [WorkerPop i t; WorkerBegin i; WorkerFinish i]) in *.
    assert (Hin : t ∈ ThreadPool.tasks_ (threadPool_ s)).
    { apply andb_true_iff in Ht as [Hin _]. apply bool_decide_eq_true in Hin. exact Hin. }
    pose proof (length_remove_first t _ Hin) as Hl.
    destruct (IH (run turn s)) as (He & Hq & Hperm & Hall).
    + apply consistent_run. exact Hc.
    + congruence.
    + exact Hi3.
    + rewrite Hq3. lia.
    + cbv zeta. rewrite run_app, dequeue_order_app, Hd.
      split; [exact He |]. split; [exact Hq |]. split.
      * rewrite Hperm, Hq3. symmetry. apply remove_first_Permutation. exact Hin.
      * intros l Hl'. destruct (decide (l = t)) as [-> | Hne].
        -- destruct (run_task (worker_loop fuel i (run turn s)) (run turn s) t x3 Hx3)
             as (x' & Hx' & [_ Hp] & _).
           exists x'. split; [exact Hx' |]. intros Hp'. apply Hs3. auto.
        -- apply Hall. rewrite Hq3. apply elem_of_remove_first_ne; assumption.
  - assert (Hq : ThreadPool.tasks_ (threadPool_ s) = []).
    { destruct (ThreadPool.tasks_ (threadPool_ s)); [reflexivity | discriminate]. }
    cbv zeta. cbn [run dequeue_order dequeued].
    split; [apply worker_exits_iff_empty; assumption |].
    unfold ThreadPool.popped_by. cbn [step]. unfold ThreadPool.worker_pop.
    rewrite Hi, Hstop, Hq. simpl. repeat split; auto.
    intros l Hl. inversion Hl.
Qed.

(** *** C4 *)

(** C4, amended. After the stop flag is set, a waiting worker returns only
    when the queue is empty. While tasks are queued it goes on popping and
    executing them: run on its own, the worker's loop dequeues every task
    that was queued at shutdown, leaves none of them [PENDING], and returns
    with the queue empty. *)
Theorem shutdown_drains_queue (s : scheduler) (i : nat) :
  reachable s ->
  ThreadPool.stop_ (threadPool_ s) = true ->
  ThreadPool.workers_ (threadPool_ s) !! i = Some Waiting ->
  (forall choice,
     ThreadPool.workers_ (threadPool_ (step (WorkerPop i choice) s)) !! i = Some Exited <->
     ThreadPool.tasks_ (threadPool_ s) = []) /\
  let evs := worker_loop (S (length (ThreadPool.tasks_ (threadPool_ s)))) i s in
  let s' := run evs s in
  ThreadPool.workers_ (threadPool_ s') !! i = Some Exited /\
  ThreadPool.tasks_ (threadPool_ s') = [] /\
  dequeue_order evs s ≡ₚ ThreadPool.tasks_ (threadPool_ s) /\
  forall l, l ∈ ThreadPool.tasks_ (threadPool_ s) ->
    exists x, heap s' !! l = Some x /\ Task.status_ x <> PENDING.
Proof.
  intros Hr Hstop Hi. split.
  - intros choice. apply worker_exits_iff_empty; assumption.
  - apply worker_loop_drains; [apply reachable_consistent; exact Hr | | | lia]; assumption.
Qed.

End Shutdown.

(** ** The sample programs *)

Section Samples.

Lemma reachable_scheduled : reachable Demo.scheduled.
Proof. exists 1%nat, Demo.env0, Demo.scheduling. vm_compute. reflexivity. Qed.

Lemma reachable_worked : reachable Demo.worked.
Proof. exists 1%nat, Demo.env0, (Demo.scheduling ++ Demo.working). vm_compute. reflexivity. Qed.

Lemma reachable_stopped : reachable Demo.stopped.
Proof. exists 1%nat, Demo.env0, (Demo.scheduling ++ [Shutdown]). vm_compute. reflexivity. Qed.

(** C1 on the sample: a worker that is offered the MEDIUM task first does
    not take it; the HIGH task is dequeued first. *)
Lemma preceding_task_dequeued_first_witness :
  dequeue_order (WorkerPop 0 1%nat :: Demo.working) Demo.scheduled = [0; 1]%nat /\
  0%nat ∈ [0%nat].
Proof.
  split; [vm_compute; reflexivity |].
  apply (preceding_task_dequeued_first (WorkerPop 0 1%nat :: Demo.working) Demo.scheduled
           0%nat 1%nat Demo.factorial_task Demo.failing_task) with (after := []).
  - apply list_elem_of_In. vm_compute. auto.
  - apply list_elem_of_In. vm_compute. auto.
  - vm_compute. reflexivity.
  - vm_compute. reflexivity.
  - left. vm_compute. reflexivity.
  - vm_compute. reflexivity.
Defined.

(** C2 on the sample: the duplicate of the demonstration program. *)
Lemma scheduleTask_duplicate_witness :
  scheduleTask (typed "int") "factorial_10" Demo.factorial_10 MEDIUM 0 true 0 Demo.scheduled =
    (Raised (Exception DuplicateTaskException
               "Task with name 'factorial_10' already exists"), Demo.scheduled).
Proof.
  apply (scheduleTask_duplicate Demo.scheduled (typed "int") "factorial_10"
           Demo.factorial_10 MEDIUM 0 true 0 0%nat).
  vm_compute. reflexivity.
Defined.

(** C3 on the sample: [failingTask] throws a [std::runtime_error], and
    [waitForTask<void>] throws that very error. *)
Lemma failure_is_captured_and_rethrown_witness :
  status_at Demo.worked 1%nat = Some FAILED /\
  waitForTask void "failing_task" 1 Demo.worked = (Raised Demo.failure, Demo.worked).
Proof.
  split; [vm_compute; reflexivity |].
  apply (failure_is_captured_and_rethrown Demo.failing_task (mkEnv 1%nat ["factorial_10"])
           Demo.failure) with (l := 1%nat).
  - discriminate.
  - vm_compute. reflexivity.
  - vm_compute. reflexivity.
  - vm_compute. reflexivity.
Defined.


(** C4 as stated fails: with the stop flag set and two tasks queued, the
    worker does not return; it pops the first task, and its loop runs both
    callables before it returns. *)
Lemma queued_tasks_run_after_shutdown :
  ThreadPool.stop_ (threadPool_ Demo.stopped) = true /\
  ThreadPool.tasks_ (threadPool_ Demo.stopped) = [0; 1]%nat /\
  ThreadPool.workers_ (threadPool_ (step (WorkerPop 0 0%nat) Demo.stopped)) = [Holding 0] /\
  let s' := run (worker_loop 3 0 Demo.stopped) Demo.stopped in
  map Task.status_ (heap s') = [COMPLETED; FAILED; PENDING] /\
  invocations (env s') = ["factorial_10"; "failing_task"] /\
  ThreadPool.workers_ (threadPool_ s') = [Exited].
Proof. vm_compute. repeat split; reflexivity. Qed.

(** C4, amended, on the sample. *)
Lemma shutdown_drains_queue_witness :
  (forall choice,
     ThreadPool.workers_ (threadPool_ (step (WorkerPop 0 choice) Demo.stopped)) !! 0%nat =
       Some Exited <->
     ThreadPool.tasks_ (threadPool_ Demo.stopped) = []) /\
  let evs := worker_loop (S (length (ThreadPool.tasks_ (threadPool_ Demo.stopped)))) 0
               Demo.stopped in
  let s' := run evs Demo.stopped in
  ThreadPool.workers_ (threadPool_ s') !! 0%nat = Some Exited /\
  ThreadPool.tasks_ (threadPool_ s') = [] /\
  dequeue_order evs Demo.stopped ≡ₚ ThreadPool.tasks_ (threadPool_ Demo.stopped) /\
  forall l, l ∈ ThreadPool.tasks_ (threadPool_ Demo.stopped) ->
    exists x, heap s' !! l = Some x /\ Task.status_ x <> PENDING.
Proof.
  apply (shutdown_drains_queue Demo.stopped 0).
  - exact reachable_stopped.
  - vm_compute. reflexivity.
  - vm_compute. reflexivity.
Defined.

(** C7 as stated fails: a second call of [execute] on a [COMPLETED] task
    runs the callable again, and the task ends [FAILED]. *)
Lemma execute_leaves_COMPLETED :
  Task.status_ Demo.once_task_1 = COMPLETED /\
  Task.status_ (fst (snd (Task.execute (Demo.once_task_1, Demo.once_env_1)))) = FAILED.
Proof. vm_compute. split; reflexivity. Qed.

(** C7, amended, on the sample: the completed task keeps its status through
    [cancel] and through [cancelTask]. *)
Lemma terminal_status_is_kept_witness :
  Task.status_ (fst (snd (Task.cancel (Demo.factorial_done, Demo.env0)))) =
    Task.status_ Demo.factorial_done /\
  status_at (snd (cancelTask "factorial_10" Demo.worked)) 0%nat =
    Some (Task.status_ Demo.factorial_done).
Proof.
  destruct (terminal_status_is_kept Demo.factorial_done Demo.env0 eq_refl)
    as (Hc & _ & H & _).
  split; [exact Hc | apply (H Demo.worked 0%nat)].
  vm_compute. reflexivity.
Defined.

(** C8 fails on the sample: "factorial_10" is [COMPLETED] and "failing_task"
    is [FAILED], [getTaskStatus] is called on both, and [getStatistics] still
    reports no completed and no failed task. *)
Theorem getTaskStatus_counts_nothing :
  fst (getTaskStatus "factorial_10" Demo.worked) = Returned COMPLETED /\
  fst (getTaskStatus "failing_task" Demo.worked) = Returned FAILED /\
  let s' := snd (getTaskStatus "failing_task"
                   (snd (getTaskStatus "factorial_10" Demo.worked))) in
  ts_totalTasks (getStatistics s') = 3%N /\
  ts_completedTasks (getStatistics s') = 0%N /\
  ts_failedTasks (getStatistics s') = 0%N.
Proof. vm_compute. repeat split; reflexivity. Qed.



(** C5 on the sample: "future_task" is still with its timer and can be
    cancelled; the completed task cannot; nobody is not registered. *)
Lemma cancelTask_spec_witness :
  (exists s', cancelTask "future_task" Demo.worked = (Returned true, s') /\
              status_at s' 2%nat = Some CANCELLED) /\
  cancelTask "factorial_10" Demo.worked = (Returned false, Demo.worked) /\
  cancelTask "nobody" Demo.worked =
    (Raised (Exception TaskNotFoundException "Task 'nobody' not found"), Demo.worked).
Proof.
  split; [| split].
  - apply (proj2 (cancelTask_spec Demo.worked "future_task") 2%nat
             (Task.new (typed "int") "future_task" Demo.factorial_10 HIGH 5 true)).
    + vm_compute. reflexivity.
    + vm_compute. reflexivity.
    + split; reflexivity.
  - apply (proj2 (cancelTask_spec Demo.worked "factorial_10") 0%nat
             (fst (snd (Task.execute (Demo.factorial_task, Demo.env0))))).
    + vm_compute. reflexivity.
    + vm_compute. reflexivity.
    + intros [_ H]. discriminate H.
  - apply (proj1 (cancelTask_spec Demo.worked "nobody")). vm_compute. reflexivity.
Defined.

(** C9 on the sample: the [int] task asked for as [long], and an unknown
    name. *)
Lemma getTaskResult_errors_witness :
  getTaskResult (typed "long") "factorial_10" Demo.worked =
    (Raised (Exception TaskSchedulerException "Task result type mismatch"), Demo.worked) /\
  getTaskResult void "nobody" Demo.worked =
    (Raised (Exception TaskNotFoundException "Task 'nobody' not found"), Demo.worked).
Proof.
  split.
  - apply (proj2 (getTaskResult_errors Demo.worked (typed "long") "factorial_10") 0%nat
             (fst (snd (Task.execute (Demo.factorial_task, Demo.env0))))).
    + vm_compute. reflexivity.
    + vm_compute. reflexivity.
    + discriminate.
  - apply (proj1 (getTaskResult_errors Demo.worked void "nobody")). vm_compute. reflexivity.
Defined.

(** With the right type the value comes back. *)
Example getTaskResult_factorial_10 :
  fst (getTaskResult_getResult (typed "int") "factorial_10" Demo.worked) =
    Returned (Some 3628800).
Proof. vm_compute. reflexivity. Qed.

End Samples.

(** * Further properties of the scheduler *)

(** ** What a step does to the store and the counters *)

Section Effects.
Context {World value : Type}.
Abbreviation task := (Task.t World value).
Abbreviation scheduler := (TaskScheduler.t World value).

(** Reachable states, by induction on the events that led to them. *)
Lemma reachable_induction (P : scheduler -> Prop) :
  (forall n e, P (new n e)) ->
  (forall s ev, reachable s -> P s -> P (step ev s)) ->
  forall s, reachable s -> P s.
Proof.
  intros Hnew Hstep s (n & e & evs & ->).
  induction evs as [| ev evs IH] using rev_ind; [apply Hnew |].
  rewrite run_app. simpl. apply Hstep; [| exact IH].
  exists n, e, evs. reflexivity.
Qed.

Lemma step_effect (ev : event World value) (s : scheduler) :
  consistent s -> effect s (step ev s).
Proof.
  intros Hc. destruct ev; simpl.
  - rewrite scheduleTask_cases. destruct (tasks_ s !! name); [apply effect_none; reflexivity |].
    cbv zeta.
    apply effect_schedule with (R := R) (name := name) (function := function)
      (priority := priority) (scheduledTime := scheduledTime) (cancellable := cancellable);
      (case_bool_decide; [destruct (ThreadPool.stop_ (threadPool_ s)) |]); reflexivity.
  - rewrite cancelTask_cases.
    destruct (tasks_ s !! name) as [l0 |]; [| apply effect_none; reflexivity].
    destruct (heap s !! l0) as [x |] eqn:Hx; [| apply effect_none; reflexivity].
    destruct (Task.cancellable_ x && bool_decide (Task.status_ x = PENDING)) eqn:Hg;
      [| apply effect_none; reflexivity].
    apply andb_true_iff in Hg as [Hcan Hp]. apply bool_decide_eq_true in Hp.
    apply effect_cancel with (l := l0) (x := x); auto.
  - rewrite getTaskStatus_unchanged. apply effect_none; reflexivity.
  - apply effect_none; reflexivity.
  - rewrite timer_fire_cases. apply effect_none;
      (case_bool_decide; [| reflexivity]); cbv zeta;
      destruct (ThreadPool.stop_ (threadPool_ s)); reflexivity.
  - apply effect_none; reflexivity.
  - unfold worker_begin.
    destruct (ThreadPool.workers_ (threadPool_ s) !! i) as [[| l | l |] |] eqn:Hi;
      try (apply effect_none; reflexivity).
    destruct (heap s !! l) as [x |] eqn:Hx; [| apply effect_none; reflexivity].
    destruct (execute_begin_cases x (env s)) as [[Hs ->] | [Hs ->]].
    + apply effect_none; simpl; [apply list_insert_id; exact Hx | reflexivity].
    + apply list_elem_of_lookup_2 in Hi.
      destruct (workers_ok _ _ _ _ _ Hc _ Hi) as (x0 & Hx0 & [Hp | Hp]);
        rewrite Hx in Hx0; inversion Hx0; subst; [| contradiction].
      apply effect_worker with (l := l) (x := x0) (x' := Task.set_status RUNNING x0);
        auto.
      * apply list_elem_of_bind. exists (Holding l). split; [left | exact Hi].
      * apply task_start. exact Hp.
  - unfold worker_finish.
    destruct (ThreadPool.workers_ (threadPool_ s) !! i) as [[| l | l |] |] eqn:Hi;
      try (apply effect_none; reflexivity).
    destruct (heap s !! l) as [x |] eqn:Hx; [| apply effect_none; reflexivity].
    apply list_elem_of_lookup_2 in Hi.
    destruct (workers_ok _ _ _ _ _ Hc _ Hi) as (x0 & Hx0 & Hr).
    rewrite Hx in Hx0. inversion Hx0; subst.
    apply effect_worker with (l := l) (x := x0)
      (x' := fst (snd (Task.execute_body (x0, env s)))).
    + exact Hx.
    + apply list_elem_of_bind. exists (Executing l). split; [left | exact Hi].
    + rewrite Hr. discriminate.
    + apply task_finish. exact Hr.
    + destruct (Task.execute_body (x0, env s)) as [o [x' e']]. reflexivity.
    + destruct (Task.execute_body (x0, env s)) as [o [x' e']]. reflexivity.
  - apply effect_none; reflexivity.
Qed.

End Effects.

(** ** Status, results and waiting *)

Section Results.
Context {World value : Type}.
Abbreviation task := (Task.t World value).
Abbreviation scheduler := (TaskScheduler.t World value).

(** *** X1 *)

Lemma same_task_refl (x : task) : same_task x x.
Proof. repeat split. Qed.

(** Whatever a step writes to a task, it first takes it out of
    [PENDING]. *)
Lemma step_untouched (ev : event World value) (s : scheduler) l x :
  heap s !! l = Some x ->
  exists x', heap (step ev s) !! l = Some x' /\ same_task x x' /\
             (Task.status_ x' = PENDING -> x' = x).
Proof.
  intros Hx.
  assert (Hlt : (l < length (heap s))%nat) by (apply lookup_lt_Some with (x := x); exact Hx).
  assert (Hsame : exists x', heap s !! l = Some x' /\ same_task x x' /\
                             (Task.status_ x' = PENDING -> x' = x)).
  { exists x. split; [exact Hx |]. split; [apply same_task_refl | auto]. }
  assert (Hins : forall l0 x0 x0', heap s !! l0 = Some x0 -> same_task x0 x0' ->
            (Task.status_ x0' = PENDING -> x0' = x0) ->
            exists x', <[l0 := x0']> (heap s) !! l = Some x' /\ same_task x x' /\
                       (Task.status_ x' = PENDING -> x' = x)).
  { intros l0 x0 x0' H0 Hs Hp. destruct (decide (l = l0)) as [-> | Hne].
    - rewrite Hx in H0. inversion H0; subst. exists x0'.
      split; [apply list_lookup_insert_eq; exact Hlt | auto].
    - rewrite list_lookup_insert_ne by congruence. exact Hsame. }
  destruct ev; simpl.
  - rewrite scheduleTask_cases. destruct (tasks_ s !! name); [exact Hsame |].
    exists x. split; [| split; [apply same_task_refl | auto]].
    cbv zeta. case_bool_decide; [destruct (ThreadPool.stop_ (threadPool_ s)) |];
      simpl; apply lookup_app_l_Some; exact Hx.
  - rewrite cancelTask_cases. destruct (tasks_ s !! name) as [l0 |]; [| exact Hsame].
    destruct (heap s !! l0) as [x0 |] eqn:H0; [| exact Hsame].
    destruct (_ && _); [| exact Hsame].
    simpl. apply (Hins l0 x0); [exact H0 | repeat split | discriminate].
  - rewrite getTaskStatus_unchanged. exact Hsame.
  - exact Hsame.
  - rewrite timer_fire_cases. case_bool_decide; [| exact Hsame].
    cbv zeta. destruct (ThreadPool.stop_ (threadPool_ s)); exact Hsame.
  - exact Hsame.
  - unfold worker_begin.
    destruct (ThreadPool.workers_ (threadPool_ s) !! i) as [[| t | t |] |];
      try exact Hsame.
    destruct (heap s !! t) as [x0 |] eqn:H0; [| exact Hsame].
    destruct (execute_begin_cases x0 (env s)) as [[_ ->] | [_ ->]]; simpl.
    + apply (Hins t x0); [exact H0 | apply same_task_refl | auto].
    + apply (Hins t x0); [exact H0 | repeat split | discriminate].
  - unfold worker_finish.
    destruct (ThreadPool.workers_ (threadPool_ s) !! i) as [[| t | t |] |];
      try exact Hsame.
    destruct (heap s !! t) as [x0 |] eqn:H0; [| exact Hsame].
    pose proof (execute_body_cases x0 (env s)) as Hb. cbv zeta in Hb.
    destruct (fst (Task.function_ x0 (world (env s)))); rewrite Hb; simpl.
    + apply (Hins t x0); [exact H0 | repeat split | discriminate].
    + apply (Hins t x0); [exact H0 | repeat split | discriminate].
    + apply (Hins t x0); [exact H0 | apply same_task_refl | auto].
  - exact Hsame.
Qed.

Lemma same_task_trans (x y z : task) : same_task x y -> same_task y z -> same_task x z.
Proof.
  intros (A1 & A2 & A3 & A4 & A5 & A6) (B1 & B2 & B3 & B4 & B5 & B6).
  repeat split; congruence.
Qed.

(** X1. No operation changes what the constructor of a task fixed (name,
    callable, priority, scheduled time, cancellable flag, result type), and
    none sets a status back to [PENDING]: a task that is [PENDING] after any
    events of the scheduler has not been written at all. The same holds for
    [execute] and [cancel] called on the task itself: after [execute] a task
    is never [PENDING], and [cancel] leaves a task [PENDING] only by leaving
    it alone. *)
Theorem pending_task_is_untouched :
  (forall (evs : list (event World value)) (s : scheduler) l x,
     heap s !! l = Some x ->
     exists x', heap (run evs s) !! l = Some x' /\ same_task x x' /\
                (Task.status_ x' = PENDING -> x' = x)) /\
  (forall (x : task) (e : Env World),
     same_task x (fst (snd (Task.execute (x, e)))) /\
     Task.status_ (fst (snd (Task.execute (x, e)))) <> PENDING) /\
  (forall (x : task) (e : Env World),
     same_task x (fst (snd (Task.cancel (x, e)))) /\
     (Task.status_ (fst (snd (Task.cancel (x, e)))) = PENDING ->
      fst (snd (Task.cancel (x, e))) = x)).
Proof.
  split; [| split].
  - induction evs as [| ev evs IH]; intros s l x Hx.
    + exists x. split; [exact Hx |]. split; [apply same_task_refl | auto].
    + destruct (step_untouched ev s l x Hx) as (x1 & Hx1 & Hs1 & Hp1).
      destruct (IH (step ev s) l x1 Hx1) as (x2 & Hx2 & Hs2 & Hp2).
      exists x2. split; [exact Hx2 |]. split; [eapply same_task_trans; eauto |].
      intros Hp. pose proof (Hp2 Hp) as ->. auto.
  - intros x e. rewrite execute_unfold. case_bool_decide as Hc.
    + simpl. split; [apply same_task_refl | rewrite Hc; discriminate].
    + pose proof (execute_body_cases (Task.set_status RUNNING x) e) as Hb.
      cbv zeta in Hb. simpl in Hb.
      destruct (fst (Task.function_ x (world e))); rewrite Hb; simpl;
        (split; [repeat split | discriminate]).
  - intros x e. rewrite cancel_cases. simpl.
    destruct (Task.cancellable_ x && bool_decide (Task.status_ x = PENDING)).
    + split; [repeat split | discriminate].
    + split; [apply same_task_refl | auto].
Qed.

Lemma getTaskResult_getResult_cases (s : scheduler) R name l x :
  tasks_ s !! name = Some l -> heap s !! l = Some x ->
  getTaskResult_getResult R name s =
    if bool_decide (Task.ResultType x = R)
    then (TaskResult.getResult_of R (Task.result_ x), s)
    else (Raised (Exception TaskSchedulerException "Task result type mismatch"), s).
Proof.
  intros Hn Hx. unfold getTaskResult_getResult. unfold bind.
  rewrite getTaskResult_cases, Hn, Hx. case_bool_decide; reflexivity.
Qed.

Lemma getTaskResult_getResult_state (s : scheduler) R name :
  snd (getTaskResult_getResult R name s) = s.
Proof.
  unfold getTaskResult_getResult. unfold bind. rewrite getTaskResult_cases.
  destruct (tasks_ s !! name) as [l |]; [| reflexivity].
  destruct (heap s !! l) as [x |]; [| reflexivity].
  case_bool_decide; reflexivity.
Qed.

(** One pass of [waitForTask] on a registered task, by its status. *)
Lemma waitForTask_pass_cases (s : scheduler) R name l x :
  tasks_ s !! name = Some l -> heap s !! l = Some x ->
  waitForTask_pass R name s =
    (match Task.status_ x with
     | COMPLETED =>
         match fst (getTaskResult_getResult R name s) with
         | Returned v => Returned (Some v)
         | Raised e => Raised e
         | Undefined => Undefined
         end
     | FAILED =>
         match fst (getTaskResult_getResult R name s) with
         | Returned _ => Returned None
         | Raised e => Raised e
         | Undefined => Undefined
         end
     | CANCELLED => Raised (Exception TaskSchedulerException "Task was cancelled")
     | PENDING | RUNNING => Returned None
     end, s).
Proof.
  intros Hn Hx. unfold waitForTask_pass, try_catch. unfold bind at 1.
  rewrite getTaskStatus_cases, Hn, Hx.
  pose proof (getTaskResult_getResult_state s R name) as Hst.
  destruct (Task.status_ x); simpl; try reflexivity.
  - unfold bind, ret. destruct (getTaskResult_getResult R name s) as [[v | e |] s'];
      simpl in *; subst; try reflexivity.
    destruct (derives_from _ _); reflexivity.
  - unfold bind, ret. destruct (getTaskResult_getResult R name s) as [[v | e |] s'];
      simpl in *; subst; try reflexivity.
    destruct (derives_from _ _); reflexivity.
Qed.

Lemma waitForTask_S (s : scheduler) R name fuel :
  waitForTask R name (S fuel) s =
    match waitForTask_pass R name s with
    | (Returned (Some v), s') => (Returned (Some v), s')
    | (Returned None, s') => waitForTask R name fuel s'
    | (Raised e, s') => (Raised e, s')
    | (Undefined, s') => (Undefined, s')
    end.
Proof.
  simpl. unfold bind at 1.
  destruct (waitForTask_pass R name s) as [[[v |] | e |] s']; reflexivity.
Qed.

(** The holder of a task that [execute] has not got into does not say
    [COMPLETED], however often [execute] and [cancel] were called. *)
Lemma lifecycle_unstarted_holder (x : task) :
  lifecycle x -> unstarted x -> TaskResult.status_ (Task.result_ x) <> COMPLETED.
Proof.
  induction 1 as [| x e Hx IH | x e Hx IH]; intros Hu.
  - discriminate.
  - revert Hu. rewrite execute_unfold. case_bool_decide as Hc.
    + simpl. intros _. apply IH. right. exact Hc.
    + pose proof (execute_body_cases (Task.set_status RUNNING x) e) as Hb.
      simpl in Hb. destruct (fst (Task.function_ x (world e))); rewrite Hb; simpl;
        intros [Hu | Hu]; discriminate.
  - revert Hu. rewrite cancel_cases. simpl.
    destruct (Task.cancellable_ x && bool_decide (Task.status_ x = PENDING)) eqn:Hg.
    + simpl. intros _. discriminate.
    + exact IH.
Qed.

(** *** X2 *)


(** *** X3 *)

(** X3. [waitForTask<R>(name)] ends on its first pass when the name is not
    registered ([TaskNotFoundException]), when the task is [CANCELLED]
    ([TaskSchedulerException] with [Task was cancelled]) and when it is
    [COMPLETED]. For a [COMPLETED] task of another result type it throws the
    type mismatch; for one of result type [R] it does what [getResult] does
    on the holder: it rethrows an error that the holder still stores from an
    earlier failed [execute], and otherwise returns the stored value, or
    plainly for [void]. *)
Theorem waitForTask_terminal (s : scheduler) R name fuel :
  (tasks_ s !! name = None ->
   waitForTask R name (S fuel) s =
     (Raised (Exception TaskNotFoundException ("Task '" +:+ name +:+ "' not found")), s)) /\
  (forall l x, tasks_ s !! name = Some l -> heap s !! l = Some x ->
     (Task.status_ x = CANCELLED ->
      waitForTask R name (S fuel) s =
        (Raised (Exception TaskSchedulerException "Task was cancelled"), s)) /\
     (Task.status_ x = COMPLETED -> Task.ResultType x <> R ->
      waitForTask R name (S fuel) s =
        (Raised (Exception TaskSchedulerException "Task result type mismatch"), s)) /\
     (Task.status_ x = COMPLETED -> Task.ResultType x = R ->
      (forall E, TaskResult.exception_ (Task.result_ x) = Some E ->
         waitForTask R name (S fuel) s = (Raised E, s)) /\
      (forall T v, R = typed T -> TaskResult.exception_ (Task.result_ x) = None ->
         TaskResult.result_ (Task.result_ x) = Some v ->
         waitForTask R name (S fuel) s = (Returned (Some (Some v)), s)) /\
      (R = void -> TaskResult.exception_ (Task.result_ x) = None ->
         TaskResult.status_ (Task.result_ x) = COMPLETED ->
         waitForTask R name (S fuel) s = (Returned (Some None), s)))).
Proof.
  rewrite waitForTask_S. split.
  - intros Hn. unfold waitForTask_pass, try_catch.
    unfold bind at 1. rewrite getTaskStatus_cases, Hn. reflexivity.
  - intros l x Hn Hx. rewrite (waitForTask_pass_cases s R name l x Hn Hx).
    split; [| split].
    + intros ->. reflexivity.
    + intros Hs HR. rewrite Hs, (getTaskResult_getResult_cases s R name l x Hn Hx).
      rewrite bool_decide_eq_false_2 by exact HR. reflexivity.
    + intros Hs HR. rewrite Hs, (getTaskResult_getResult_cases s R name l x Hn Hx).
      rewrite bool_decide_eq_true_2 by exact HR. cbn [fst].
      unfold TaskResult.getResult_of, TaskResult.getResult, TaskResult.getResult_void.
      split; [| split].
      * intros E ->. destruct R; reflexivity.
      * intros T v -> -> ->. reflexivity.
      * intros -> -> Hh. rewrite bool_decide_eq_false_2 by (intros H; exact (H Hh)).
        reflexivity.
Qed.

(** *** X4 *)

(** X4. While a registered task is [PENDING] or [RUNNING] and no other
    thread takes a step, [waitForTask<R>(name)] does not return, however many
    passes it makes; that holds for every [R], so asking for the wrong result
    type goes unnoticed until the task is terminal. *)
Theorem waitForTask_blocks (s : scheduler) R name l x fuel :
  tasks_ s !! name = Some l -> heap s !! l = Some x ->
  Task.status_ x = PENDING \/ Task.status_ x = RUNNING ->
  waitForTask R name fuel s = (Returned None, s).
Proof.
  intros Hn Hx Hs. induction fuel as [| fuel IH]; [reflexivity |].
  rewrite waitForTask_S, (waitForTask_pass_cases s R name l x Hn Hx).
  destruct Hs as [-> | ->]; exact IH.
Qed.

End Results.


(** ** Cleaning up, listing, waiting for all *)

Section Registry.
Context {World value : Type}.
Abbreviation task := (Task.t World value).
Abbreviation scheduler := (TaskScheduler.t World value).

Lemma cleanup_lookup (s : scheduler) name l :
  tasks_ (cleanup s) !! name = Some l <->
  tasks_ s !! name = Some l /\ terminal_at s l = false.
Proof. unfold cleanup. simpl. apply map_lookup_filter_Some. Qed.

Lemma terminal_at_Some (s : scheduler) l x :
  heap s !! l = Some x -> terminal_at s l = terminal (Task.status_ x).
Proof. intros H. unfold terminal_at. rewrite H. reflexivity. Qed.

(** *** X5 *)

(** X5. [cleanup] unregisters exactly the terminal tasks: afterwards
    [getTaskStatus] throws [TaskNotFoundException] for a name whose task was
    [COMPLETED], [FAILED] or [CANCELLED], and still returns the status of a
    [PENDING] or [RUNNING] task. It touches nothing but the registry: the
    task objects, the pool with its queue, the timers and the counters stay
    as they were. *)
Theorem cleanup_unregisters_terminal (s : scheduler) name l x :
  tasks_ s !! name = Some l -> heap s !! l = Some x ->
  (terminal (Task.status_ x) = true ->
   getTaskStatus name (cleanup s) =
     (Raised (Exception TaskNotFoundException ("Task '" +:+ name +:+ "' not found")),
      cleanup s)) /\
  (terminal (Task.status_ x) = false ->
   getTaskStatus name (cleanup s) = (Returned (Task.status_ x), cleanup s)) /\
  heap (cleanup s) = heap s /\ threadPool_ (cleanup s) = threadPool_ s /\
  timers (cleanup s) = timers s /\ stats_ (cleanup s) = stats_ s /\
  env (cleanup s) = env s.
Proof.
  intros Hn Hx. rewrite getTaskStatus_cases.
  split; [| split; [| repeat split]].
  - intros Ht. destruct (tasks_ (cleanup s) !! name) as [l' |] eqn:Hl; [| reflexivity].
    apply cleanup_lookup in Hl as [Hl Hf]. rewrite Hn in Hl. inversion Hl; subst.
    rewrite (terminal_at_Some s l' x Hx) in Hf. congruence.
  - intros Ht.
    assert (Hl : tasks_ (cleanup s) !! name = Some l).
    { apply cleanup_lookup. split; [exact Hn |].
      rewrite (terminal_at_Some s l x Hx). exact Ht. }
    rewrite Hl. simpl. rewrite Hx. reflexivity.
Qed.

(** *** X6 *)

(** X6. A name is free again after [cleanup] has removed its terminal task:
    [scheduleTask] under that name then registers a new [PENDING] task at a
    new address instead of throwing [DuplicateTaskException], and the old
    task object, which a caller may still hold, is unchanged. *)
Theorem cleanup_frees_name (s : scheduler) R name function priority scheduledTime
    cancellable now l x :
  tasks_ s !! name = Some l -> heap s !! l = Some x ->
  terminal (Task.status_ x) = true ->
  let s' := snd (scheduleTask R name function priority scheduledTime cancellable now
                   (cleanup s)) in
  tasks_ s' !! name = Some (length (heap s)) /\
  length (heap s) <> l /\
  getTaskStatus name s' = (Returned PENDING, s') /\
  heap s' !! l = Some x.
Proof.
  intros Hn Hx Ht s'. subst s'. rewrite scheduleTask_cases.
  assert (Hfree : tasks_ (cleanup s) !! name = None).
  { destruct (tasks_ (cleanup s) !! name) as [l' |] eqn:Hl; [| reflexivity].
    apply cleanup_lookup in Hl as [Hl Hf]. rewrite Hn in Hl. inversion Hl; subst.
    rewrite (terminal_at_Some s l' x Hx) in Hf. congruence. }
  rewrite Hfree. cbv zeta.
  assert (Hlt : (l < length (heap s))%nat) by (apply lookup_lt_Some with (x := x); exact Hx).
  assert (Hh : heap (cleanup s) = heap s) by reflexivity.
  set (y := Task.new R name function priority scheduledTime cancellable).
  assert (Hy : (heap s ++ [y]) !! length (heap s) = Some y).
  { rewrite lookup_app_r by lia. rewrite Nat.sub_diag. reflexivity. }
  rewrite getTaskStatus_cases.
  case_bool_decide; [destruct (ThreadPool.stop_ (threadPool_ (cleanup s))) |];
    simpl; rewrite lookup_insert_eq; simpl; rewrite Hy;
    (split; [reflexivity |]); (split; [lia |]); (split; [reflexivity |]);
    apply lookup_app_l_Some; exact Hx.
Qed.

Lemma listTasks_loop_spec (h : list task) (pairs : list (string * loc)) :
  (forall pair, pair ∈ pairs -> is_Some (h !! pair.2)) ->
  exists l, listTasks_loop h pairs = Returned l /\ Forall2 (listed h) pairs l.
Proof.
  induction pairs as [| [name t] pairs IH]; intros Hall.
  - exists []. split; [reflexivity | constructor].
  - destruct (Hall (name, t)) as [x Hx]; [left |]. simpl in Hx.
    destruct IH as (l & Hl & Hf); [intros pair H; apply Hall; right; exact H |].
    exists ((name, Task.status_ x) :: l). simpl. rewrite Hx, Hl.
    split; [reflexivity |]. constructor; [| exact Hf].
    split; [reflexivity |]. exists x. auto.
Qed.

Lemma registry_pairs_allocated (s : scheduler) :
  consistent s ->
  forall pair, pair ∈ map_to_list (tasks_ s) -> is_Some (heap s !! pair.2).
Proof.
  intros Hc [name l] H. apply elem_of_map_to_list in H.
  exact (registry_allocated _ _ _ _ _ Hc name l H).
Qed.

(** *** X7 *)

(** X7. On a reachable scheduler [listTasks] returns one entry for each
    registered name and no other: a pair of a name and a status is listed
    exactly when the name is registered and that is its task's status; no
    name is listed twice, and the list is as long as the registry. *)
Theorem listTasks_snapshot (s : scheduler) :
  reachable s ->
  exists l, listTasks s = Returned l /\
    length l = size (tasks_ s) /\ NoDup l.*1 /\
    forall name st, (name, st) ∈ l <->
      exists t x, tasks_ s !! name = Some t /\ heap s !! t = Some x /\ Task.status_ x = st.
Proof.
  intros Hr. apply reachable_consistent in Hr.
  destruct (listTasks_loop_spec (heap s) (map_to_list (tasks_ s))
              (registry_pairs_allocated s Hr)) as (l & Hl & Hf).
  exists l. split; [exact Hl |].
  assert (Hnames : l.*1 = (map_to_list (tasks_ s)).*1).
  { clear Hl. induction Hf as [| [n t] [n' st] ps l' [Hn _] Hf IH]; [reflexivity |].
    rewrite !fmap_cons. f_equal; [symmetry; exact Hn | exact IH]. }
  split; [| split].
  - rewrite <- (Forall2_length _ _ _ Hf). apply length_map_to_list.
  - rewrite Hnames. apply NoDup_fst_map_to_list.
  - intros name st. split.
    + intros Hin. apply list_elem_of_lookup_1 in Hin as [i Hi].
      destruct (Forall2_lookup_r _ _ _ i (name, st) Hf Hi)
        as ([n t] & Hp & Hn & x & Hx & Hs).
      simpl in *. subst. exists t, x. split; [| auto].
      apply elem_of_map_to_list. eapply list_elem_of_lookup_2. exact Hp.
    + intros (t & x & Hn & Hx & Hs). apply elem_of_map_to_list in Hn.
      apply list_elem_of_lookup_1 in Hn as [i Hi].
      destruct (Forall2_lookup_l _ _ _ i (name, t) Hf Hi) as ([n' st'] & Hi' & Hn' & x' & Hx' & Hs').
      simpl in *. subst. rewrite Hx in Hx'. inversion Hx'; subst.
      eapply list_elem_of_lookup_2. exact Hi'.
Qed.

(** The loop of [waitForAll] finds every registered task terminal, or stops
    at one that is not. *)
Lemma allDone_loop_spec (h : list task) (pairs : list (string * loc)) :
  (forall pair, pair ∈ pairs -> is_Some (h !! pair.2)) ->
  exists b, allDone_loop h pairs = Returned b /\
    (b = true <->
     forall pair x, pair ∈ pairs -> h !! pair.2 = Some x -> terminal (Task.status_ x) = true).
Proof.
  induction pairs as [| [name t] pairs IH]; intros Hall.
  - exists true. split; [reflexivity |]. split; [| reflexivity].
    intros _ pair x H. inversion H.
  - destruct (Hall (name, t)) as [x Hx]; [left |]. simpl in Hx.
    destruct IH as (b & Hb & Hiff); [intros pair H; apply Hall; right; exact H |].
    simpl. rewrite Hx. unfold Task.getStatus.
    destruct (bool_decide (Task.status_ x = PENDING) || bool_decide (Task.status_ x = RUNNING))
      eqn:Hg.
    + exists false. split; [reflexivity |]. split; [discriminate |].
      intros H. specialize (H (name, t) x (list_elem_of_here _ _) Hx).
      apply orb_true_iff in Hg as [Hg | Hg]; apply bool_decide_eq_true in Hg;
        rewrite Hg in H; discriminate.
    + exists b. split; [exact Hb |]. rewrite Hiff. split.
      * intros H pair y Hin Hy. apply elem_of_cons in Hin as [-> | Hin]; [| eauto].
        simpl in Hy. rewrite Hx in Hy. inversion Hy; subst.
        apply orb_false_iff in Hg as [Hg1 Hg2].
        apply bool_decide_eq_false in Hg1. apply bool_decide_eq_false in Hg2.
        destruct (Task.status_ y); try reflexivity; contradiction.
      * intros H pair y Hin Hy. apply (H pair y); [right; exact Hin | exact Hy].
Qed.

(** *** X8 *)

(** X8. On a reachable scheduler on which no other thread takes a step,
    [waitForAll] returns after its first pass when every registered task is
    [COMPLETED], [FAILED] or [CANCELLED] (so also when nothing is
    registered), and [cleanup] then leaves the registry empty; when some
    registered task is [PENDING] or [RUNNING] it does not return, however
    many passes it makes. *)
Theorem waitForAll_returns_when_all_terminal (s : scheduler) (fuel : nat) :
  reachable s ->
  ((forall name l x, tasks_ s !! name = Some l -> heap s !! l = Some x ->
      terminal (Task.status_ x) = true) ->
   waitForAll (S fuel) s = Returned true /\ tasks_ (cleanup s) = ∅) /\
  (forall name l x, tasks_ s !! name = Some l -> heap s !! l = Some x ->
     terminal (Task.status_ x) = false ->
     waitForAll fuel s = Returned false).
Proof.
  intros Hr. apply reachable_consistent in Hr.
  destruct (allDone_loop_spec (heap s) (map_to_list (tasks_ s))
              (registry_pairs_allocated s Hr)) as (b & Hb & Hiff).
  split.
  - intros Hall. split.
    + simpl. rewrite Hb.
      assert (b = true) as ->; [| reflexivity].
      apply Hiff. intros [name l] x Hin Hx. apply elem_of_map_to_list in Hin. eauto.
    + apply map_eq. intros name. rewrite lookup_empty.
      apply map_lookup_filter_None_2.
      destruct (tasks_ s !! name) as [l |] eqn:Hn; [right | left; reflexivity].
      intros l' Hl'. inversion Hl'; subst. simpl.
      destruct (registry_allocated _ _ _ _ _ Hr name l' Hn) as [x Hx].
      rewrite (terminal_at_Some s l' x Hx), (Hall name l' x Hn Hx). discriminate.
  - intros name l x Hn Hx Ht.
    assert (b = false) as ->.
    { destruct b; [| reflexivity].
      assert (Hall := proj1 Hiff eq_refl). apply elem_of_map_to_list in Hn.
      specialize (Hall (name, l) x Hn Hx). congruence. }
    induction fuel as [| fuel IH]; [reflexivity |]. simpl. rewrite Hb. exact IH.
Qed.

(** The [pending++] of [getStatistics], over the pairs of the registry. *)
Lemma pending_fold (h : list task) (pairs : list (string * loc))
    (l : list (string * TaskStatus)) :
  Forall2 (listed h) pairs l ->
  foldr (uncurry (fun (_ : string) (t : loc) (n : N) =>
                    match h !! t with
                    | Some x => if bool_decide (Task.getStatus x = PENDING)
                                then size_t_incr n else n
                    | None => n
                    end)) 0%N pairs =
    (N.of_nat (length (filter (fun entry => entry.2 = PENDING) l)) mod size_t_modulus)%N.
Proof.
  induction 1 as [| [n t] [n' st] ps l' [_ (x & Hx & Hs)] Hf IH]; [reflexivity |].
  simpl in *. rewrite Hx, IH. unfold Task.getStatus. rewrite Hs.
  case_bool_decide as Hp.
  - rewrite filter_cons_True by exact Hp. simpl length.
    unfold size_t_incr. rewrite N.Div0.add_mod_idemp_l. f_equal. lia.
  - rewrite filter_cons_False by exact Hp. reflexivity.
Qed.

(** *** X9 *)

(** X9. On a reachable scheduler the [pendingTasks] of [getStatistics] is
    the number of [PENDING] entries that [listTasks] returns (as a
    [size_t]). *)
Theorem pendingTasks_counts_listed (s : scheduler) l :
  reachable s -> listTasks s = Returned l ->
  ts_pendingTasks (getStatistics s) =
    (N.of_nat (length (filter (fun entry => entry.2 = PENDING) l)) mod size_t_modulus)%N.
Proof.
  intros Hr Hl. apply reachable_consistent in Hr.
  destruct (listTasks_loop_spec (heap s) (map_to_list (tasks_ s))
              (registry_pairs_allocated s Hr)) as (l' & Hl' & Hf).
  unfold listTasks in Hl. rewrite Hl' in Hl. inversion Hl; subst.
  unfold getStatistics. simpl. rewrite map_fold_foldr. apply pending_fold. exact Hf.
Qed.

End Registry.

(** ** The counters *)

Section Counters.
Context {World value : Type}.
Abbreviation task := (Task.t World value).
Abbreviation scheduler := (TaskScheduler.t World value).

(** Replacing one element changes the number of elements with a property
    by that element alone. *)
Lemma length_filter_insert {A} (P : A -> Prop) `{forall a, Decision (P a)}
    (l : list A) (i : nat) (a b : A) :
  l !! i = Some a ->
  (length (filter P (<[i := b]> l)) + (if decide (P a) then 1 else 0) =
   length (filter P l) + (if decide (P b) then 1 else 0))%nat.
Proof.
  intros Hi.
  rewrite insert_take_drop by (apply lookup_lt_Some with (x := a); exact Hi).
  rewrite <- (take_drop_middle l i a Hi) at 3.
  rewrite !filter_app, !filter_cons, !length_app.
  destruct (decide (P a)), (decide (P b)); simpl; lia.
Qed.

Lemma size_t_incr_of_nat (c : nat) :
  size_t_incr (N.of_nat c mod size_t_modulus) = (N.of_nat (S c) mod size_t_modulus)%N.
Proof.
  unfold size_t_incr. rewrite N.Div0.add_mod_idemp_l. f_equal. lia.
Qed.

Lemma size_t_decr_of_nat (c : nat) :
  size_t_decr (N.of_nat (S c) mod size_t_modulus) = (N.of_nat c mod size_t_modulus)%N.
Proof.
  unfold size_t_decr.
  assert (Hm : (0 < size_t_modulus)%N) by reflexivity.
  generalize dependent size_t_modulus. intros m Hm.
  assert (E : (N.of_nat (S c) mod m + m - 1 = N.of_nat (S c) mod m + (m - 1))%N).
  { remember (N.of_nat (S c) mod m)%N as r. lia. }
  rewrite E, N.Div0.add_mod_idemp_l.
  assert (E2 : (N.of_nat (S c) + (m - 1) = N.of_nat c + 1 * m)%N) by lia.
  rewrite E2. apply N.Div0.mod_add.
Qed.

(** *** X10 *)

(** X10. On a reachable scheduler [totalTasks] is the number of task
    objects ever created by [scheduleTask] (as a [size_t]): it counts a task
    whose [enqueue] failed on a stopped pool as well, and [cleanup] does not
    lower it. *)
Theorem totalTasks_counts_created (s : scheduler) :
  reachable s ->
  ts_totalTasks (getStatistics s) = (N.of_nat (length (heap s)) mod size_t_modulus)%N.
Proof.
  unfold getStatistics. simpl. revert s.
  apply (reachable_induction
           (fun s => totalTasks (stats_ s) =
                     (N.of_nat (length (heap s)) mod size_t_modulus)%N)).
  - intros n e. reflexivity.
  - intros s ev Hr IH.
    destruct (step_effect ev s (reachable_consistent s Hr))
      as [Hh Hst | R nm f p t c Hh Hst | l0 x0 H0 Hp Hc Hh Hst | l0 x0 x0' H0 Hw Hn Hts Hh Hst];
      rewrite Hh, Hst; simpl; rewrite ?length_insert; try exact IH.
    rewrite IH, length_app. simpl. rewrite Nat.add_1_r. apply size_t_incr_of_nat.
Qed.

(** *** X11 *)

(** X11. On a reachable scheduler [completedTasks] and [failedTasks] are
    zero: no step of the scheduler ever increments either counter, whatever
    the tasks do. *)
Theorem completed_and_failed_stay_zero (s : scheduler) :
  reachable s ->
  ts_completedTasks (getStatistics s) = 0%N /\ ts_failedTasks (getStatistics s) = 0%N.
Proof.
  unfold getStatistics. simpl. revert s.
  apply (reachable_induction
           (fun s => completedTasks (stats_ s) = 0%N /\ failedTasks (stats_ s) = 0%N)).
  - intros n e. split; reflexivity.
  - intros s ev Hr IH.
    destruct (step_effect ev s (reachable_consistent s Hr))
      as [Hh Hst | R nm f p t c Hh Hst | l0 x0 H0 Hp Hc Hh Hst | l0 x0 x0' H0 Hw Hn Hts Hh Hst];
      rewrite Hst; exact IH.
Qed.

(** One step adds to [cancelledTasks] exactly when it is a [cancelTask]
    that returns [true]. *)
Lemma cancelledTasks_step (ev : event World value) (s : scheduler) :
  cancelledTasks (stats_ (step ev s)) =
    if cancels ev s then size_t_incr (cancelledTasks (stats_ s))
    else cancelledTasks (stats_ s).
Proof.
  destruct ev; simpl.
  - rewrite scheduleTask_cases. destruct (tasks_ s !! name); [reflexivity |].
    cbv zeta. case_bool_decide; [destruct (ThreadPool.stop_ (threadPool_ s)) |];
      reflexivity.
  - rewrite cancelTask_cases. destruct (tasks_ s !! name) as [l0 |]; [| reflexivity].
    destruct (heap s !! l0) as [x |]; [| reflexivity].
    destruct (_ && _); reflexivity.
  - rewrite getTaskStatus_unchanged. reflexivity.
  - reflexivity.
  - rewrite timer_fire_cases. case_bool_decide; [| reflexivity].
    cbv zeta. destruct (ThreadPool.stop_ (threadPool_ s)); reflexivity.
  - reflexivity.
  - unfold worker_begin.
    destruct (ThreadPool.workers_ (threadPool_ s) !! i) as [[| t | t |] |];
      try reflexivity.
    destruct (heap s !! t) as [x |]; [| reflexivity].
    destruct (Task.execute_begin (x, env s)) as [[[|] | |] [x' e']]; reflexivity.
  - unfold worker_finish.
    destruct (ThreadPool.workers_ (threadPool_ s) !! i) as [[| t | t |] |];
      try reflexivity.
    destruct (heap s !! t) as [x |]; [| reflexivity].
    destruct (Task.execute_body (x, env s)) as [o [x' e']]. reflexivity.
  - reflexivity.
Qed.

Lemma cancelledTasks_run (evs : list (event World value)) (s : scheduler) (c : nat) :
  cancelledTasks (stats_ s) = (N.of_nat c mod size_t_modulus)%N ->
  cancelledTasks (stats_ (run evs s)) =
    (N.of_nat (c + cancelled_calls evs s) mod size_t_modulus)%N.
Proof.
  revert s c. induction evs as [| ev evs IH]; intros s c Hc.
  - simpl. rewrite Nat.add_0_r. exact Hc.
  - cbn [run cancelled_calls]. pose proof (cancelledTasks_step ev s) as Hs.
    destruct (cancels ev s).
    + rewrite (IH _ (S c)) by (rewrite Hs, Hc; apply size_t_incr_of_nat).
      f_equal. f_equal. lia.
    + rewrite (IH _ c) by (rewrite Hs; exact Hc). f_equal.
Qed.

(** *** X12 *)

(** X12. [cancelledTasks] counts the calls of [cancelTask] that returned
    [true]: on a scheduler constructed with any number of threads, after any
    events, it is the number of those calls so far (as a [size_t]); no other
    operation changes it, and [cleanup] does not lower it. *)
Theorem cancelledTasks_counts_successful_cancels (n : nat) (e : Env World)
    (evs : list (event World value)) :
  ts_cancelledTasks (getStatistics (run evs (new n e))) =
    (N.of_nat (cancelled_calls evs (new n e)) mod size_t_modulus)%N.
Proof.
  unfold getStatistics. cbn [ts_cancelledTasks].
  apply (cancelledTasks_run evs (new n e) 0). reflexivity.
Qed.

Lemma count_executing_insert (ws : list worker) i w w' :
  ws !! i = Some w ->
  (count_executing (<[i := w']> ws) + (if is_executing w then 1 else 0) =
   count_executing ws + (if is_executing w' then 1 else 0))%nat.
Proof.
  intros Hi. unfold count_executing.
  pose proof (length_filter_insert (fun w => is_executing w = true) ws i w w' Hi) as H.
  cbv beta in H. revert H.
  destruct (is_executing w), (is_executing w'); repeat case_decide;
    try congruence; simpl; lia.
Qed.

Lemma pool_counts_step (ev : event World value) (s : scheduler) n :
  pool_counts n (threadPool_ s) -> pool_counts n (threadPool_ (step ev s)).
Proof.
  intros (Ha & Hl & Hm). unfold pool_counts. destruct ev; simpl.
  - rewrite scheduleTask_cases. destruct (tasks_ s !! name); [auto |].
    cbv zeta. case_bool_decide; [destruct (ThreadPool.stop_ (threadPool_ s)) |];
      simpl; auto.
  - rewrite cancelTask_cases. destruct (tasks_ s !! name) as [l0 |]; [| auto].
    destruct (heap s !! l0) as [x |]; [| auto].
    destruct (_ && _); simpl; auto.
  - rewrite getTaskStatus_unchanged. auto.
  - auto.
  - rewrite timer_fire_cases. case_bool_decide; [| auto].
    cbv zeta. destruct (ThreadPool.stop_ (threadPool_ s)); simpl; auto.
  - unfold ThreadPool.worker_pop.
    destruct (ThreadPool.workers_ (threadPool_ s) !! i) as [[| l | l |] |] eqn:Hi;
      auto.
    assert (Hk : forall w', is_executing w' = false ->
              count_executing (<[i := w']> (ThreadPool.workers_ (threadPool_ s))) =
              count_executing (ThreadPool.workers_ (threadPool_ s))).
    { intros w' Hw'. pose proof (count_executing_insert _ i _ w' Hi) as H1.
      rewrite Hw' in H1. simpl in H1. lia. }
    destruct (negb _); [auto |].
    destruct (_ && _); [| destruct (ThreadPool.is_top _ _ _); [| auto]];
      simpl; rewrite Hk, length_insert by reflexivity; auto.
  - unfold worker_begin.
    destruct (ThreadPool.workers_ (threadPool_ s) !! i) as [[| l | l |] |] eqn:Hi;
      auto.
    destruct (heap s !! l) as [x |]; [| auto].
    destruct (execute_begin_cases x (env s)) as [[_ ->] | [_ ->]]; simpl;
      rewrite length_insert; (split; [| auto]).
    + pose proof (count_executing_insert _ i _ Waiting Hi) as H1. simpl in H1.
      replace (count_executing (<[i := Waiting]> (ThreadPool.workers_ (threadPool_ s))))
        with (count_executing (ThreadPool.workers_ (threadPool_ s))) by lia.
      rewrite Ha, size_t_incr_of_nat. apply size_t_decr_of_nat.
    + pose proof (count_executing_insert _ i _ (Executing l) Hi) as H1. simpl in H1.
      replace (count_executing (<[i := Executing l]> (ThreadPool.workers_ (threadPool_ s))))
        with (S (count_executing (ThreadPool.workers_ (threadPool_ s)))) by lia.
      rewrite Ha. apply size_t_incr_of_nat.
  - unfold worker_finish.
    destruct (ThreadPool.workers_ (threadPool_ s) !! i) as [[| l | l |] |] eqn:Hi;
      auto.
    destruct (heap s !! l) as [x |]; [| auto].
    destruct (Task.execute_body (x, env s)) as [o [x' e']]. simpl.
    rewrite length_insert. split; [| auto].
    pose proof (count_executing_insert _ i _ Waiting Hi) as H1. simpl in H1.
    replace (count_executing (ThreadPool.workers_ (threadPool_ s)))
      with (S (count_executing (<[i := Waiting]> (ThreadPool.workers_ (threadPool_ s)))))
      in Ha by lia.
    rewrite Ha. apply size_t_decr_of_nat.
  - auto.
Qed.

Lemma pool_counts_run (evs : list (event World value)) (s : scheduler) n :
  pool_counts n (threadPool_ s) -> pool_counts n (threadPool_ (run evs s)).
Proof.
  revert s. induction evs as [| ev evs IH]; intros s H; [exact H |].
  simpl. apply IH. apply pool_counts_step. exact H.
Qed.

Lemma count_executing_le (ws : list worker) : (count_executing ws <= length ws)%nat.
Proof. unfold count_executing. apply length_filter. Qed.

(** *** X13 *)

(** X13. On a scheduler constructed with [n] threads, whatever events
    follow, [maxThreads] stays [n] (as a [size_t]) and, [n] being a
    [size_t], [activeThreads] never exceeds [maxThreads]. *)
Theorem activeThreads_within_maxThreads (n : nat) (e : Env World)
    (evs : list (event World value)) :
  ts_maxThreads (getStatistics (run evs (new n e))) = (N.of_nat n mod size_t_modulus)%N /\
  ((N.of_nat n < size_t_modulus)%N ->
   (ts_activeThreads (getStatistics (run evs (new n e))) <=
    ts_maxThreads (getStatistics (run evs (new n e))))%N).
Proof.
  destruct (pool_counts_run evs (new n e) n) as (Ha & Hl & Hm).
  { split; [| split].
    - simpl. unfold count_executing.
      replace (filter _ (replicate n Waiting)) with (@nil worker); [reflexivity |].
      induction n as [| n IH]; [reflexivity |]. simpl.
      rewrite filter_cons_False by discriminate. exact IH.
    - simpl. apply length_replicate.
    - reflexivity. }
  unfold getStatistics, ThreadPool.getActiveThreadCount, ThreadPool.getMaxThreadCount.
  simpl. split; [exact Hm |].
  intros Hn. rewrite Ha, Hm.
  pose proof (count_executing_le (ThreadPool.workers_ (threadPool_ (run evs (new n e))))) as Hle.
  rewrite Hl in Hle.
  rewrite !N.mod_small by lia. lia.
Qed.

End Counters.

(** ** The pool: what the queue and the workers refer to *)

Section Pool.
Context {World value : Type}.
Abbreviation task := (Task.t World value).
Abbreviation scheduler := (TaskScheduler.t World value).

(** No step frees a task. *)
Lemma heap_length_step (ev : event World value) (s : scheduler) :
  (length (heap s) <= length (heap (step ev s)))%nat.
Proof.
  destruct (step_heap_cases ev s) as [H | [(y & H) | (l0 & x0 & x0' & _ & H & _)]];
    rewrite H; rewrite ?length_app, ?length_insert; simpl; lia.
Qed.

Lemma elem_of_insert_refs (ws : list worker) i w' (l : loc) :
  l ∈ (<[i := w']> ws ≫= worker_refs) ->
  l ∈ worker_refs w' \/ l ∈ (ws ≫= worker_refs).
Proof.
  intros H. apply list_elem_of_bind in H as (w & Hl & Hin).
  apply list_elem_of_lookup in Hin as [j Hj].
  apply list_lookup_insert_Some in Hj as [(-> & -> & _) | (Hne & Hj)].
  - left. exact Hl.
  - right. apply list_elem_of_bind. exists w. split; [exact Hl |].
    apply list_elem_of_lookup_2 in Hj. exact Hj.
Qed.

(** A step puts into the queue and the timers only the task it creates, and
    into a worker's hand only a task of the queue. *)
Lemma pending_step (ev : event World value) (s : scheduler) (l : loc) :
  (l ∈ ThreadPool.tasks_ (threadPool_ (step ev s)) ++ timers (step ev s) ->
   l ∈ ThreadPool.tasks_ (threadPool_ s) ++ timers s \/ l = length (heap s)) /\
  (l ∈ (ThreadPool.workers_ (threadPool_ (step ev s)) ≫= worker_refs) ->
   l ∈ (ThreadPool.workers_ (threadPool_ s) ≫= worker_refs) \/
   l ∈ ThreadPool.tasks_ (threadPool_ s)).
Proof.
  destruct ev; simpl.
  - rewrite scheduleTask_cases. destruct (tasks_ s !! name); [tauto |].
    cbv zeta. case_bool_decide; [destruct (ThreadPool.stop_ (threadPool_ s)) |];
      simpl; split; try tauto; rewrite ?elem_of_app, ?list_elem_of_singleton; tauto.
  - rewrite cancelTask_cases. destruct (tasks_ s !! name) as [l0 |]; [| tauto].
    destruct (heap s !! l0) as [x |]; [| tauto].
    destruct (_ && _); simpl; tauto.
  - rewrite getTaskStatus_unchanged. tauto.
  - tauto.
  - rewrite timer_fire_cases. case_bool_decide as Hin; [| tauto].
    cbv zeta. destruct (ThreadPool.stop_ (threadPool_ s)); simpl; split; try tauto;
      rewrite ?elem_of_app, ?list_elem_of_singleton; intros H.
    + left. destruct H as [H | H]; [tauto |].
      right. exact (elem_of_remove_first _ _ _ H).
    + left. destruct H as [[H | ->] | H]; [tauto | tauto |].
      right. exact (elem_of_remove_first _ _ _ H).
  - unfold ThreadPool.worker_pop.
    destruct (ThreadPool.workers_ (threadPool_ s) !! i) as [[| | |] |]; try tauto.
    destruct (negb (_ || _)); [tauto |].
    destruct (_ && bool_decide _).
    { simpl. split; [tauto |]. intros H.
      apply elem_of_insert_refs in H as [H | H]; [inversion H | tauto]. }
    destruct (ThreadPool.is_top _ _ _) eqn:Htop; [| tauto].
    simpl. split.
    + rewrite !elem_of_app. intros [H | H]; [| tauto].
      left. left. exact (elem_of_remove_first _ _ _ H).
    + intros H. apply elem_of_insert_refs in H as [H | H]; [| tauto].
      simpl in H. apply list_elem_of_singleton in H as ->.
      right. apply andb_true_iff in Htop as [Htop _].
      apply andb_true_iff in Htop as [Htop _] || idtac.
      apply bool_decide_eq_true in Htop. exact Htop.
  - unfold worker_begin.
    destruct (ThreadPool.workers_ (threadPool_ s) !! i) as [[| t | t |] |] eqn:Hi;
      try tauto.
    destruct (heap s !! t) as [x |]; [| tauto].
    assert (Ht : t ∈ (ThreadPool.workers_ (threadPool_ s) ≫= worker_refs)).
    { apply list_elem_of_bind. exists (Holding t). split; [left |].
      apply list_elem_of_lookup_2 in Hi. exact Hi. }
    destruct (Task.execute_begin (x, env s)) as [[[|] | |] [x' e']]; simpl;
      (split; [tauto |]); intros H;
      apply elem_of_insert_refs in H as [H | H]; try tauto;
      simpl in H; try (inversion H; fail);
      apply list_elem_of_singleton in H as ->; tauto.
  - unfold worker_finish.
    destruct (ThreadPool.workers_ (threadPool_ s) !! i) as [[| t | t |] |]; try tauto.
    destruct (heap s !! t) as [x |]; [| tauto].
    destruct (Task.execute_body (x, env s)) as [o [x' e']]. simpl.
    split; [tauto |]. intros H.
    apply elem_of_insert_refs in H as [H | H]; [inversion H | tauto].
  - tauto.
Qed.

(** Along a run, what is dequeued waits in the queue or with a timer at the
    start, or is created on the way; and nothing is dequeued twice. *)
Lemma dequeue_order_fresh (evs : list (event World value)) (s : scheduler) :
  consistent s ->
  NoDup (dequeue_order evs s) /\
  forall l, l ∈ dequeue_order evs s ->
    l ∈ ThreadPool.tasks_ (threadPool_ s) ++ timers s \/ (length (heap s) <= l)%nat.
Proof.
  revert s. induction evs as [| ev evs IH]; intros s Hc.
  { split; [constructor |]. intros l H. inversion H. }
  pose proof (consistent_step ev s Hc) as Hc1.
  destruct (IH (step ev s) Hc1) as [Hnd Hel].
  pose proof (heap_length_step ev s) as Hlen.
  assert (Hrest : forall l, l ∈ dequeue_order evs (step ev s) ->
            l ∈ ThreadPool.tasks_ (threadPool_ s) ++ timers s \/ (length (heap s) <= l)%nat).
  { intros l Hl. destruct (Hel l Hl) as [H | H]; [| right; lia].
    destruct (proj1 (pending_step ev s l) H) as [H' | ->]; [left; exact H' | right; lia]. }
  cbn [dequeue_order]. destruct (dequeued ev s) as [t |] eqn:Hd; [| split; assumption].
  destruct (dequeued_Some ev s t Hd) as (i & -> & Hi & Htop).
  assert (Hin : t ∈ ThreadPool.tasks_ (threadPool_ s)).
  { apply andb_true_iff in Htop as [Hin _]. apply bool_decide_eq_true in Hin. exact Hin. }
  split.
  - apply NoDup_cons. split; [| exact Hnd]. intros Ht.
    destruct (Hel t Ht) as [H | H].
    + destruct (step_WorkerPop s i t Hi Htop) as [Hs _]. rewrite Hs in H. simpl in H.
      pose proof (refs_NoDup _ _ _ _ _ Hc) as Hr. unfold refs in Hr.
      rewrite app_assoc in Hr. apply NoDup_app in Hr as [Hr _].
      rewrite (remove_first_Permutation t _ Hin) in Hr. simpl in Hr.
      apply NoDup_cons in Hr as [Hr _]. exact (Hr H).
    + destruct (queued_unstarted _ _ _ _ _ Hc t) as (x & Hx & _);
        [apply elem_of_app; left; exact Hin |].
      apply lookup_lt_Some in Hx. lia.
  - intros l Hl. apply elem_of_cons in Hl as [-> | Hl]; [| exact (Hrest l Hl)].
    left. apply elem_of_app. left. exact Hin.
Qed.

(** X14. A task is taken out of the queue at most once: however the
    scheduler got to its state and whatever happens next, no task occurs
    twice among the tasks dequeued. *)
Theorem each_task_dequeued_once (evs : list (event World value)) (s : scheduler) :
  reachable s -> NoDup (dequeue_order evs s).
Proof.
  intros Hr. apply dequeue_order_fresh. apply reachable_consistent. exact Hr.
Qed.

End Pool.

(** ** One turn of a worker *)

Section Turns.
Context {World value : Type}.
Abbreviation task := (Task.t World value).
Abbreviation scheduler := (TaskScheduler.t World value).

(** The three steps of a turn, composed. *)
Lemma worker_turn_state (s : scheduler) i t x :
  ThreadPool.workers_ (threadPool_ s) !! i = Some Waiting ->
  ThreadPool.is_top (comp s) (ThreadPool.tasks_ (threadPool_ s)) t = true ->
  heap s !! t = Some x ->
  let s' := run [WorkerPop i t; WorkerBegin i; WorkerFinish i] s in
  heap s' = <[t := fst (snd (Task.execute (x, env s)))]> (heap s) /\
  env s' = snd (snd (Task.execute (x, env s))) /\
  ThreadPool.tasks_ (threadPool_ s') =
    ThreadPool.remove_first t (ThreadPool.tasks_ (threadPool_ s)) /\
  ThreadPool.workers_ (threadPool_ s') = ThreadPool.workers_ (threadPool_ s) /\
  ThreadPool.stop_ (threadPool_ s') = ThreadPool.stop_ (threadPool_ s) /\
  tasks_ s' = tasks_ s /\ stats_ s' = stats_ s /\ timers s' = timers s.
Proof.
  intros Hi Htop Hx. cbn [run].
  destruct (step_WorkerPop s i t Hi Htop) as [-> _].
  assert (Hlen : (i < length (ThreadPool.workers_ (threadPool_ s)))%nat)
    by (apply lookup_lt_Some with (x := Waiting); exact Hi).
  assert (Hlt : (t < length (heap s))%nat)
    by (apply lookup_lt_Some with (x := x); exact Hx).
  destruct s as [[ws q st act mx] reg stats h tm e]. simpl in *.
  unfold worker_begin. simpl. rewrite list_lookup_insert_eq by exact Hlen. rewrite Hx.
  rewrite execute_unfold.
  destruct (execute_begin_cases x e) as [[Hs ->] | [Hs ->]]; simpl.
  - unfold worker_finish. simpl.
    rewrite list_lookup_insert_eq by (rewrite length_insert; exact Hlen). simpl.
    rewrite bool_decide_eq_true_2 by exact Hs. simpl.
    rewrite !list_insert_insert_eq.
    rewrite (list_insert_id ws i Waiting Hi).
    repeat split; reflexivity.
  - unfold worker_finish. simpl.
    rewrite list_lookup_insert_eq by (rewrite length_insert; exact Hlen).
    rewrite list_lookup_insert_eq by exact Hlt.
    rewrite bool_decide_eq_false_2 by exact Hs.
    destruct (Task.execute_body (Task.set_status RUNNING x, e)) as [o [x' e']]. simpl.
    rewrite !list_insert_insert_eq.
    rewrite (list_insert_id ws i Waiting Hi).
    repeat split; reflexivity.
Qed.

(** X15. One turn of a worker's loop is one call of [execute] on the task
    the queue serves: the task object and the environment of the callables
    change as that call changes them, the task leaves the queue, and the
    registry, the statistics, the timers and the other tasks stay. A
    cancelled task is therefore taken out of the queue and not run: the
    store and the environment stay as they are. *)
Theorem worker_turn_is_one_execute (s : scheduler) i t x :
  ThreadPool.workers_ (threadPool_ s) !! i = Some Waiting ->
  ThreadPool.is_top (comp s) (ThreadPool.tasks_ (threadPool_ s)) t = true ->
  heap s !! t = Some x ->
  let s' := run [WorkerPop i t; WorkerBegin i; WorkerFinish i] s in
  heap s' = <[t := fst (snd (Task.execute (x, env s)))]> (heap s) /\
  env s' = snd (snd (Task.execute (x, env s))) /\
  ThreadPool.tasks_ (threadPool_ s') =
    ThreadPool.remove_first t (ThreadPool.tasks_ (threadPool_ s)) /\
  tasks_ s' = tasks_ s /\ stats_ s' = stats_ s /\ timers s' = timers s /\
  (Task.status_ x = CANCELLED -> heap s' = heap s /\ env s' = env s).
Proof.
  intros Hi Htop Hx s'.
  destruct (worker_turn_state s i t x Hi Htop Hx)
    as (Hh & He & Hq & _ & _ & Hreg & Hst & Htm).
  fold s' in Hh, He, Hq, Hreg, Hst, Htm.
  repeat (split; [assumption |]).
  intros Hc. rewrite Hh, He, (execute_CANCELLED x (env s) Hc). simpl.
  split; [apply list_insert_id; exact Hx | reflexivity].
Qed.

(** X16. From [scheduleTask] to the result: a task scheduled for now on a
    running pool with an empty queue, and then served by a waiting worker,
    has had its callable invoked once. When the callable returns, the task
    is [COMPLETED] and [getTaskResult<R>(name).getResult()] returns the
    callable's value (nothing for [void]); when it throws, the task is
    [FAILED] and the same call throws the callable's exception. *)
Theorem scheduled_task_runs_to_its_result (s : scheduler) R name function priority
    scheduledTime cancellable now i :
  tasks_ s !! name = None ->
  ThreadPool.stop_ (threadPool_ s) = false ->
  ThreadPool.tasks_ (threadPool_ s) = [] ->
  ThreadPool.workers_ (threadPool_ s) !! i = Some Waiting ->
  scheduledTime <= now ->
  let l := length (heap s) in
  let s1 := step (ScheduleTask R name function priority scheduledTime cancellable now) s in
  let s2 := run [WorkerPop i l; WorkerBegin i; WorkerFinish i] s1 in
  dequeue_order [WorkerPop i l; WorkerBegin i; WorkerFinish i] s1 = [l] /\
  env s2 = mkEnv (snd (function (world (env s)))) (invocations (env s) ++ [name]) /\
  match fst (function (world (env s))) with
  | Returned v =>
      getTaskStatus name s2 = (Returned COMPLETED, s2) /\
      getTaskResult_getResult R name s2 =
        (Returned (match R with void => None | typed _ => Some v end), s2)
  | Raised E =>
      getTaskStatus name s2 = (Returned FAILED, s2) /\
      getTaskResult_getResult R name s2 = (Raised E, s2)
  | Undefined => True
  end.
Proof.
  intros Hfresh Hstop Hq Hi Hnow l s1 s2.
  set (x0 := Task.new R name function priority scheduledTime cancellable).
  assert (E1 : s1 = set_threadPool
                      (ThreadPool.set_tasks [l] (threadPool_ s)) (registered s name x0)).
  { unfold s1. cbn [step]. rewrite scheduleTask_cases, Hfresh. cbv zeta.
    rewrite bool_decide_eq_true_2 by exact Hnow. rewrite Hstop, Hq. reflexivity. }
  assert (Hi1 : ThreadPool.workers_ (threadPool_ s1) !! i = Some Waiting)
    by (rewrite E1; exact Hi).
  assert (Hx1 : heap s1 !! l = Some x0).
  { rewrite E1. simpl. apply list_lookup_middle. reflexivity. }
  assert (Htop : ThreadPool.is_top (comp s1) (ThreadPool.tasks_ (threadPool_ s1)) l = true).
  { rewrite E1. simpl. unfold ThreadPool.is_top. simpl.
    rewrite bool_decide_eq_true_2 by (apply list_elem_of_singleton; reflexivity).
    rewrite comp_irrefl. reflexivity. }
  destruct (worker_turn_state s1 i l x0 Hi1 Htop Hx1)
    as (Hh & He & _ & _ & _ & Hreg & _ & _).
  fold s2 in Hh, He, Hreg.
  assert (Hd : dequeue_order [WorkerPop i l; WorkerBegin i; WorkerFinish i] s1 = [l]).
  { cbn [dequeue_order]. rewrite (proj2 (step_WorkerPop s1 i l Hi1 Htop)). reflexivity. }
  assert (Hn2 : tasks_ s2 !! name = Some l).
  { rewrite Hreg, E1. simpl. apply lookup_insert_eq. }
  assert (Hx2 : heap s2 !! l = Some (fst (snd (Task.execute (x0, env s1))))).
  { rewrite Hh. apply list_lookup_insert_eq. apply lookup_lt_Some with (x := x0). exact Hx1. }
  assert (Ee : env s1 = env s) by (rewrite E1; reflexivity).
  rewrite Ee in He, Hx2.
  rewrite execute_unfold in He, Hx2.
  rewrite bool_decide_eq_false_2 in He, Hx2 by discriminate.
  pose proof (execute_body_cases (Task.set_status RUNNING x0) (env s)) as Hb.
  cbv zeta in Hb. simpl in Hb.
  split; [exact Hd |].
  destruct (function (world (env s))) as [[v | E |] w'] eqn:Hf; simpl in Hb;
    rewrite Hb in He, Hx2; simpl in He, Hx2.
  - split; [exact He |]. split.
    + rewrite getTaskStatus_cases, Hn2, Hx2. reflexivity.
    + rewrite (getTaskResult_getResult_cases s2 R name l _ Hn2 Hx2). simpl.
      rewrite bool_decide_eq_true_2 by reflexivity.
      destruct R; reflexivity.
  - split; [exact He |]. split.
    + rewrite getTaskStatus_cases, Hn2, Hx2. reflexivity.
    + rewrite (getTaskResult_getResult_cases s2 R name l _ Hn2 Hx2). simpl.
      rewrite bool_decide_eq_true_2 by reflexivity.
      destruct R; reflexivity.
  - split; [exact He | exact I].
Qed.

End Turns.

(** ** The stopped pool *)

Section Stopped.
Context {World value : Type}.
Abbreviation task := (Task.t World value).
Abbreviation scheduler := (TaskScheduler.t World value).

(** After [~ThreadPool] has set [stop_], a step leaves it set and puts
    nothing into the queue. *)
Lemma stopped_step (ev : event World value) (s : scheduler) :
  ThreadPool.stop_ (threadPool_ s) = true ->
  ThreadPool.stop_ (threadPool_ (step ev s)) = true /\
  ThreadPool.tasks_ (threadPool_ (step ev s)) ⊆+ ThreadPool.tasks_ (threadPool_ s).
Proof.
  intros Hs. destruct ev; simpl.
  - rewrite scheduleTask_cases. destruct (tasks_ s !! name); [auto |].
    cbv zeta. rewrite Hs. case_bool_decide; simpl; auto.
  - rewrite cancelTask_cases. destruct (tasks_ s !! name) as [l0 |]; [| auto].
    destruct (heap s !! l0) as [x |]; [| auto].
    destruct (_ && _); simpl; auto.
  - rewrite getTaskStatus_unchanged. auto.
  - auto.
  - rewrite timer_fire_cases. case_bool_decide; [| auto].
    cbv zeta. rewrite Hs. simpl. auto.
  - unfold ThreadPool.worker_pop.
    destruct (ThreadPool.workers_ (threadPool_ s) !! i) as [[| | |] |]; auto.
    destruct (negb (_ || _)); [auto |].
    destruct (_ && bool_decide _); [simpl; auto |].
    destruct (ThreadPool.is_top _ _ _); [| auto].
    simpl. split; [exact Hs | apply remove_first_submseteq].
  - unfold worker_begin.
    destruct (ThreadPool.workers_ (threadPool_ s) !! i) as [[| t | t |] |]; auto.
    destruct (heap s !! t) as [x |]; [| auto].
    destruct (Task.execute_begin (x, env s)) as [[[|] | |] [x' e']]; simpl; auto.
  - unfold worker_finish.
    destruct (ThreadPool.workers_ (threadPool_ s) !! i) as [[| t | t |] |]; auto.
    destruct (heap s !! t) as [x |]; [| auto].
    destruct (Task.execute_body (x, env s)) as [o [x' e']]; simpl; auto.
  - auto.
Qed.

(** X19. The destructor's flag is final. Once [stop_] is set it stays set,
    and from then on the queue only loses tasks: whatever happens next, every
    task in the queue was in it when the pool was stopped, and the queue is
    no longer. *)
Theorem stopped_pool_takes_no_tasks (evs : list (event World value)) (s : scheduler) :
  ThreadPool.stop_ (threadPool_ s) = true ->
  ThreadPool.stop_ (threadPool_ (run evs s)) = true /\
  ThreadPool.tasks_ (threadPool_ (run evs s)) ⊆+ ThreadPool.tasks_ (threadPool_ s) /\
  (length (ThreadPool.tasks_ (threadPool_ (run evs s))) <=
   length (ThreadPool.tasks_ (threadPool_ s)))%nat.
Proof.
  revert s. induction evs as [| ev evs IH]; intros s Hs.
  { cbn [run]. split; [exact Hs |]. split; [reflexivity | lia]. }
  cbn [run]. destruct (stopped_step ev s Hs) as [Hs1 Hq1].
  destruct (IH (step ev s) Hs1) as (Hs2 & Hq2 & _).
  split; [exact Hs2 |].
  assert (Hq : ThreadPool.tasks_ (threadPool_ (run evs (step ev s))) ⊆+
               ThreadPool.tasks_ (threadPool_ s)) by (etransitivity; eassumption).
  split; [exact Hq |]. apply submseteq_length. exact Hq.
Qed.

End Stopped.

(** ** The comparator of the queue *)

Section ComparatorProperties.
Context {World value : Type}.
Abbreviation task := (Task.t World value).

Lemma Priority_value_inj (p q : Priority) : Priority_value p = Priority_value q -> p = q.
Proof. destruct p, q; simpl; intros H; try reflexivity; lia. Qed.

Lemma TaskComparator_trans (a b c : task) :
  TaskComparator a b = true -> TaskComparator b c = true -> TaskComparator a c = true.
Proof.
  unfold TaskComparator. repeat case_bool_decide; rewrite ?Z.gtb_ltb;
    rewrite ?Z.ltb_lt; try lia.
Qed.

(** X20. [TaskComparator] is what [std::priority_queue] requires, a strict
    weak ordering: irreflexive, asymmetric, transitive, and with a transitive
    incomparability. It orders [a] before [b] exactly when [b] has the higher
    priority, or the same priority and the earlier scheduled time; two tasks
    are left unordered exactly when they agree on both. *)
Theorem TaskComparator_strict_weak_order :
  (forall a : task, TaskComparator a a = false) /\
  (forall a b : task, TaskComparator a b = true -> TaskComparator b a = false) /\
  (forall a b c : task,
     TaskComparator a b = true -> TaskComparator b c = true -> TaskComparator a c = true) /\
  (forall a b c : task,
     TaskComparator a b = false -> TaskComparator b c = false ->
     TaskComparator a c = false) /\
  (forall a b : task, TaskComparator a b = true <-> precedes b a) /\
  (forall a b : task,
     TaskComparator a b = false /\ TaskComparator b a = false <->
     Task.priority_ a = Task.priority_ b /\ Task.scheduledTime_ a = Task.scheduledTime_ b).
Proof.
  split; [exact TaskComparator_irrefl |].
  split; [exact TaskComparator_asym |].
  split; [exact TaskComparator_trans |].
  split; [exact TaskComparator_negtrans |].
  split.
  - intros a b. split; [| apply TaskComparator_precedes].
    unfold precedes, TaskComparator, Task.getPriority, Task.getScheduledTime.
    case_bool_decide as Hp; intros H.
    + left. lia.
    + right. split; [| lia].
      apply Priority_value_inj. symmetry. exact Hp.
  - intros a b.
    unfold TaskComparator, Task.getPriority, Task.getScheduledTime. split.
    + intros [H1 H2]. repeat case_bool_decide; try lia.
      split; [| lia]. apply Priority_value_inj. lia.
    + intros [Hp Ht]. rewrite Hp, Ht.
      rewrite bool_decide_eq_false_2 by (intros H; apply H; reflexivity).
      split; lia.
Qed.

End ComparatorProperties.

(** ** The helper functions of the demonstration program *)

Section DemoProgramProperties.
Import DemoProgram.

(** Once the loop has overflowed, more turns do not help. *)
Lemma computeFactorial_loop_Undefined (turns more : nat) (i result : Z) :
  computeFactorial_loop turns i result = Undefined ->
  computeFactorial_loop (turns + more) i result = Undefined.
Proof.
  revert i result. induction turns as [| turns IH]; intros i result; simpl.
  - discriminate.
  - destruct (_ && _); [| reflexivity].
    destruct (i + 1 <=? INT_MAX); [| reflexivity]. apply IH.
Qed.

(** Up to [12] the loop stays inside the range of [int]. *)
Lemma computeFactorial_small (k : nat) :
  (k <= 12)%nat -> computeFactorial (Z.of_nat k) = Returned (factorial k).
Proof.
  intros Hk. do 13 (destruct k as [| k]; [vm_compute; reflexivity |]). lia.
Qed.

(** X21. [computeFactorial] throws [std::invalid_argument] for a negative
    argument; for [0] to [12] it returns the factorial; from [13] on the
    multiplication leaves the range of [int], and the behaviour is
    undefined. *)
Theorem computeFactorial_spec :
  (forall n, n < 0 ->
     computeFactorial n =
       Raised (Exception (other_exception "std::invalid_argument")
                 "Factorial not defined for negative numbers")) /\
  (forall n, 0 <= n <= 12 -> computeFactorial n = Returned (factorial (Z.to_nat n))) /\
  (forall n, 13 <= n -> computeFactorial n = Undefined).
Proof.
  split; [| split].
  - intros n Hn. unfold computeFactorial.
    destruct (n <? 0) eqn:E; [reflexivity | lia].
  - intros n Hn. pose proof (computeFactorial_small (Z.to_nat n)) as H.
    rewrite Z2Nat.id in H by lia. apply H. lia.
  - intros n Hn. unfold computeFactorial.
    destruct (n <? 0) eqn:E; [lia |].
    replace (Z.to_nat (n - 1)) with (12 + Z.to_nat (n - 13))%nat by lia.
    apply computeFactorial_loop_Undefined. vm_compute. reflexivity.
Qed.

(** The [default] branches are taken exactly outside the enumerators'
    values. *)
Lemma statusToString_UNKNOWN (v : Z) : statusToString v = "UNKNOWN" <-> v < 0 \/ 4 < v.
Proof.
  destruct v as [| p | p]; simpl; [split; [discriminate | lia] | | split; [lia | reflexivity]].
  destruct p as [[[p | p |] | [p | p |] |] | [[p | p |] | [p | p |] |] |]; simpl;
    split; intros H; try discriminate H; try reflexivity; lia.
Qed.

Lemma priorityToString_UNKNOWN (v : Z) : priorityToString v = "UNKNOWN" <-> v < 0 \/ 3 < v.
Proof.
  destruct v as [| p | p]; simpl; [split; [discriminate | lia] | | split; [lia | reflexivity]].
  destruct p as [[[p | p |] | [p | p |] |] | [[p | p |] | [p | p |] |] |]; simpl;
    split; intros H; try discriminate H; try reflexivity; lia.
Qed.

(** X22. [statusToString] and [priorityToString] give every enumerator a
    name of its own, and return the [UNKNOWN] of their [default] branches
    exactly for a value that is no enumerator's. *)
Theorem enumerator_names_are_distinct :
  (forall a b, statusToString (TaskStatus_value a) = statusToString (TaskStatus_value b) ->
               a = b) /\
  (forall a b, priorityToString (Priority_value a) = priorityToString (Priority_value b) ->
               a = b) /\
  (forall v, statusToString v = "UNKNOWN" <-> forall a, v <> TaskStatus_value a) /\
  (forall v, priorityToString v = "UNKNOWN" <-> forall a, v <> Priority_value a).
Proof.
  split; [| split; [| split]].
  - intros [] []; simpl; intros H; try reflexivity; discriminate H.
  - intros [] []; simpl; intros H; try reflexivity; discriminate H.
  - intros v. rewrite statusToString_UNKNOWN. split.
    + intros Hv []; simpl; lia.
    + intros H.
      pose proof (H PENDING). pose proof (H RUNNING). pose proof (H COMPLETED).
      pose proof (H FAILED). pose proof (H CANCELLED). simpl in *. lia.
  - intros v. rewrite priorityToString_UNKNOWN. split.
    + intros Hv []; simpl; lia.
    + intros H.
      pose proof (H LOW). pose proof (H MEDIUM). pose proof (H HIGH).
      pose proof (H CRITICAL). simpl in *. lia.
Qed.

End DemoProgramProperties.

(** ** The further properties on the sample programs *)

Section FurtherSamples.

Lemma reachable_all_done : reachable Demo.all_done.
Proof.
  exists 1%nat, Demo.env0, (Demo.scheduling ++ Demo.working ++ [CancelTask "future_task"]).
  vm_compute. reflexivity.
Qed.


(** X3 on the sample: waiting for the completed task, for a cancelled task
    and for an unknown name. *)
Lemma waitForTask_terminal_witness :
  waitForTask (typed "int") "factorial_10" 1 Demo.worked =
    (Returned (Some (Some 3628800)), Demo.worked) /\
  waitForTask (typed "int") "future_task" 1 Demo.all_done =
    (Raised (Exception TaskSchedulerException "Task was cancelled"), Demo.all_done) /\
  waitForTask void "nobody" 1 Demo.worked =
    (Raised (Exception TaskNotFoundException ("Task '" +:+ "nobody" +:+ "' not found")),
     Demo.worked).
Proof.
  split; [| split].
  - apply (proj1 (proj2 (proj2 (proj2 (proj2 (waitForTask_terminal Demo.worked (typed "int")
                                                "factorial_10" 0)
                                         0%nat Demo.factorial_done
                                         ltac:(vm_compute; reflexivity)
                                         ltac:(vm_compute; reflexivity)))
                           ltac:(vm_compute; reflexivity) ltac:(vm_compute; reflexivity)))
             "int" 3628800);
      vm_compute; reflexivity.
  - apply (proj1 (proj2 (waitForTask_terminal Demo.all_done (typed "int") "future_task" 0)
                    2%nat (cancelled Demo.future_task)
                    ltac:(vm_compute; reflexivity) ltac:(vm_compute; reflexivity))).
    reflexivity.
  - apply (proj1 (waitForTask_terminal Demo.worked void "nobody" 0)).
    vm_compute. reflexivity.
Defined.

(** X4 on the sample: waiting for the task that is still with its timer. *)
Lemma waitForTask_blocks_witness :
  waitForTask (typed "int") "future_task" 3 Demo.worked = (Returned None, Demo.worked).
Proof.
  apply (waitForTask_blocks Demo.worked (typed "int") "future_task" 2%nat Demo.future_task 3).
  - vm_compute. reflexivity.
  - vm_compute. reflexivity.
  - left. reflexivity.
Defined.

(** X5 on the sample: [cleanup] forgets the completed task and keeps the
    pending one. *)
Lemma cleanup_unregisters_terminal_witness :
  getTaskStatus "factorial_10" (cleanup Demo.worked) =
    (Raised (Exception TaskNotFoundException ("Task '" +:+ "factorial_10" +:+ "' not found")),
     cleanup Demo.worked) /\
  getTaskStatus "future_task" (cleanup Demo.worked) =
    (Returned (Task.status_ Demo.future_task), cleanup Demo.worked).
Proof.
  split.
  - apply (proj1 (cleanup_unregisters_terminal Demo.worked "factorial_10" 0%nat
                    Demo.factorial_done ltac:(vm_compute; reflexivity)
                    ltac:(vm_compute; reflexivity))).
    vm_compute. reflexivity.
  - apply (proj1 (proj2 (cleanup_unregisters_terminal Demo.worked "future_task" 2%nat
                           Demo.future_task ltac:(vm_compute; reflexivity)
                           ltac:(vm_compute; reflexivity)))).
    reflexivity.
Defined.

(** X6 on the sample: after [cleanup] the name of the completed task is
    free for a new task. *)
Lemma cleanup_frees_name_witness :
  tasks_ (snd (scheduleTask (typed "int") "factorial_10" Demo.factorial_10 LOW 0 true 0
                 (cleanup Demo.worked))) !! "factorial_10" =
    Some (length (heap Demo.worked)) /\
  heap (snd (scheduleTask (typed "int") "factorial_10" Demo.factorial_10 LOW 0 true 0
               (cleanup Demo.worked))) !! 0%nat = Some Demo.factorial_done.
Proof.
  destruct (cleanup_frees_name Demo.worked (typed "int") "factorial_10" Demo.factorial_10
              LOW 0 true 0 0%nat Demo.factorial_done
              ltac:(vm_compute; reflexivity) ltac:(vm_compute; reflexivity)
              ltac:(vm_compute; reflexivity)) as (H1 & _ & _ & H4).
  split; [exact H1 | exact H4].
Defined.

(** X7 on the sample. *)
Lemma listTasks_snapshot_witness :
  exists l, listTasks Demo.worked = Returned l /\
    length l = size (tasks_ Demo.worked) /\ NoDup l.*1 /\
    forall name st, (name, st) ∈ l <->
      exists t x, tasks_ Demo.worked !! name = Some t /\ heap Demo.worked !! t = Some x /\
                  Task.status_ x = st.
Proof. apply (listTasks_snapshot Demo.worked reachable_worked). Defined.

(** X8 on the sample: with "future_task" pending [waitForAll] goes on
    waiting; once it is cancelled, [waitForAll] returns and empties the
    registry. *)
Lemma waitForAll_returns_when_all_terminal_witness :
  waitForAll 2 Demo.worked = Returned false /\
  waitForAll 1 Demo.all_done = Returned true /\ tasks_ (cleanup Demo.all_done) = ∅.
Proof.
  split.
  - apply (proj2 (waitForAll_returns_when_all_terminal Demo.worked 2 reachable_worked)
             "future_task" 2%nat Demo.future_task);
      vm_compute; reflexivity.
  - apply (proj1 (waitForAll_returns_when_all_terminal Demo.all_done 0 reachable_all_done)).
    intros name l x Hn Hx.
    apply elem_of_map_to_list in Hn.
    replace (map_to_list (tasks_ Demo.all_done))
      with [("future_task", 2%nat); ("factorial_10", 0%nat); ("failing_task", 1%nat)] in Hn
      by (vm_compute; reflexivity).
    repeat (apply elem_of_cons in Hn as [Hn | Hn];
            [inversion Hn; subst; vm_compute in Hx; inversion Hx; reflexivity |]).
    inversion Hn.
Defined.

(** X9 on the sample: one of the three listed tasks is pending. *)
Lemma pendingTasks_counts_listed_witness :
  ts_pendingTasks (getStatistics Demo.worked) =
    (N.of_nat
       (length
          (filter (fun entry : string * TaskStatus => entry.2 = PENDING)
             [("future_task", PENDING); ("factorial_10", COMPLETED);
              ("failing_task", FAILED)])) mod size_t_modulus)%N.
Proof.
  apply (pendingTasks_counts_listed Demo.worked _ reachable_worked).
  vm_compute. reflexivity.
Defined.

(** X10 and X11 on the sample. *)
Lemma totalTasks_counts_created_witness :
  ts_totalTasks (getStatistics Demo.worked) =
    (N.of_nat (length (heap Demo.worked)) mod size_t_modulus)%N.
Proof. apply (totalTasks_counts_created Demo.worked reachable_worked). Defined.

Lemma completed_and_failed_stay_zero_witness :
  ts_completedTasks (getStatistics Demo.worked) = 0%N /\
  ts_failedTasks (getStatistics Demo.worked) = 0%N.
Proof. apply (completed_and_failed_stay_zero Demo.worked reachable_worked). Defined.

(** X14 on the sample. *)
Lemma each_task_dequeued_once_witness :
  NoDup (dequeue_order (Demo.working ++ Demo.afterwards) Demo.scheduled).
Proof.
  apply (each_task_dequeued_once (Demo.working ++ Demo.afterwards) Demo.scheduled
           reachable_scheduled).
Defined.

(** X15 on the sample: the first turn of the worker. *)
Lemma worker_turn_is_one_execute_witness :
  heap (run Demo.turn Demo.scheduled) =
    <[0%nat := fst (snd (Task.execute (Demo.factorial_task, env Demo.scheduled)))]>
      (heap Demo.scheduled) /\
  env (run Demo.turn Demo.scheduled) =
    snd (snd (Task.execute (Demo.factorial_task, env Demo.scheduled))).
Proof.
  destruct (worker_turn_is_one_execute Demo.scheduled 0 0%nat Demo.factorial_task
              ltac:(vm_compute; reflexivity) ltac:(vm_compute; reflexivity)
              ltac:(vm_compute; reflexivity)) as (H1 & H2 & _).
  split; [exact H1 | exact H2].
Defined.

(** X16 on the sample: the factorial of the demonstration program, from
    [scheduleTask] to its value. *)
Lemma scheduled_task_runs_to_its_result_witness :
  fst (getTaskResult_getResult (typed "int") "factorial_10"
         (run [WorkerPop 0 (length (heap Demo.scheduler0)); WorkerBegin 0; WorkerFinish 0]
            (step (ScheduleTask (typed "int") "factorial_10" Demo.factorial_10 HIGH 0 true 0)
               Demo.scheduler0))) =
    Returned (Some 3628800).
Proof.
  destruct (scheduled_task_runs_to_its_result Demo.scheduler0 (typed "int") "factorial_10"
              Demo.factorial_10 HIGH 0 true 0 0
              ltac:(vm_compute; reflexivity) ltac:(vm_compute; reflexivity)
              ltac:(vm_compute; reflexivity) ltac:(vm_compute; reflexivity)
              ltac:(lia)) as (_ & _ & _ & H).
  rewrite H. reflexivity.
Defined.

(** X19 on the sample: after the pool was stopped the queue takes neither
    the late task nor the task of the timer. *)
Lemma stopped_pool_takes_no_tasks_witness :
  ThreadPool.stop_ (threadPool_ (run Demo.too_late Demo.stopped)) = true /\
  ThreadPool.tasks_ (threadPool_ (run Demo.too_late Demo.stopped)) ⊆+
    ThreadPool.tasks_ (threadPool_ Demo.stopped) /\
  (length (ThreadPool.tasks_ (threadPool_ (run Demo.too_late Demo.stopped))) <=
   length (ThreadPool.tasks_ (threadPool_ Demo.stopped)))%nat.
Proof.
  apply (stopped_pool_takes_no_tasks Demo.too_late Demo.stopped).
  vm_compute. reflexivity.
Defined.

End FurtherSamples.
